(** * Robust buffer access behaviour tests: a shallow embedding

    Source: external/openglcts/modules/common/glcRobustBufferAccessBehaviorTests.cpp

    The file embeds the helper classes of the test module (the resource
    wrappers [Buffer], [Framebuffer], [Shader], [Program], [Texture] and
    [VertexArray]), the shader source generation by token substitution
    ([replaceToken] and the [getComputeShader] methods) and the result
    verification routines, and states their properties.

    Conventions.
    - Unsigned C++ integers ([size_t], [GLuint]) are values of [N];
      wrap-around is written where the source can reach it.  Signed ones
      ([GLint], [int]) are values of [Z].  A byte of memory ([GLubyte],
      [unsigned char]) is a [Byte.byte].
    - A [GLfloat] is its IEEE 754 binary32 bit pattern; only [==] and [memcmp]
      are applied to floats in the source, and both are functions of the bit
      pattern.
    - A [std::string] is the list of its characters; a [const GLchar*] is the
      list of characters it points to, read up to the first NUL.
    - A C++ function that has side effects or can throw is a computation in
      the monad [M St]: it maps a state to a normal return ([Ok]) or to a
      thrown exception ([Throw]), each with the state reached.
    - Exhaustion of memory is outside the model: no [std::bad_alloc], and no
      [std::length_error] for a string that would outgrow [max_size()]. *)

From Stdlib Require Import NArith ZArith List String Ascii Bool Lia.
From Stdlib Require DecimalFacts.
From Stdlib Require Import DecimalString.
Import ListNotations.

Set Implicit Arguments.
Local Open Scope string_scope.
Local Open Scope list_scope.

(** ** Exceptions and the monad of effectful code *)

(** The exceptions the module can raise: the one [GLU_EXPECT_NO_ERROR] throws
    for an error code ([glu::Error], or [glu::OutOfMemoryError] when the code
    is [GL_OUT_OF_MEMORY]), [tcu::TestError] from [TCU_FAIL] and the two
    standard library exceptions of [std::string]. *)
Inductive Exception : Type :=
| glu_Error (err : N) (msg : string)
| tcu_TestError (msg : string)
| std_out_of_range
| std_length_error.

Inductive Outcome (St A : Type) : Type :=
| Ok (a : A) (s : St)
| Throw (e : Exception) (s : St).

Arguments Ok {St A} a s.
Arguments Throw {St A} e s.

Definition M (St A : Type) : Type := St -> Outcome St A.

Definition ret {St A} (a : A) : M St A := fun s => Ok a s.

Definition bind {St A B} (m : M St A) (k : A -> M St B) : M St B :=
  fun s => match m s with
           | Ok a s' => k a s'
           | Throw e s' => Throw e s'
           end.

Definition throw {St A} (e : Exception) : M St A := fun s => Throw e s.

Definition get {St} : M St St := fun s => Ok s s.

Definition put {St} (s : St) : M St unit := fun _ => Ok tt s.

(** Run a computation on a component of the state (a member object, or the
    world next to [this]). *)
Definition zoom {S T A} (proj : S -> T) (upd : T -> S -> S) (m : M T A)
  : M S A :=
  fun s => match m (proj s) with
           | Ok a t => Ok a (upd t s)
           | Throw e t => Throw e (upd t s)
           end.

Declare Scope monad_scope.
Delimit Scope monad_scope with monad.
Notation "x <- c1 ;; c2" := (bind c1 (fun x => c2))
  (at level 61, c1 at next level, right associativity) : monad_scope.
Notation "' pat <- c1 ;; c2" := (bind c1 (fun x => match x with pat => c2 end))
  (at level 61, pat pattern, c1 at next level, right associativity) : monad_scope.
Notation "c1 ;; c2" := (bind c1 (fun _ => c2))
  (at level 61, right associativity) : monad_scope.
Local Open Scope monad_scope.

(** The value of a normal return, if any. *)
Definition returned {St A} (o : Outcome St A) : option A :=
  match o with Ok a _ => Some a | Throw _ _ => None end.

(** ** [std::string] and C strings *)

Module StdString.

Local Open Scope N_scope.

Definition size_t := N.

(** [size_t] is 64 bits wide. *)
Definition SIZE_MODULUS : N := 2 ^ 64.

(** [std::string::npos], that is [size_t(-1)]. *)
Definition npos : size_t := SIZE_MODULUS - 1.

Definition std_string := list ascii.

(** Characters a [const GLchar*] points to, terminator and what follows it
    included when the list holds a NUL. *)
Definition GLchar_ptr := list ascii.

Definition NUL : ascii := Ascii.zero.

Fixpoint strlen_nat (p : GLchar_ptr) : nat :=
  match p with
  | [] => 0%nat
  | c :: p' => if Ascii.eqb c NUL then 0%nat else S (strlen_nat p')
  end.

Definition strlen (p : GLchar_ptr) : size_t := N.of_nat (strlen_nat p).

(** The characters of the C string at [p]. *)
Definition c_chars (p : GLchar_ptr) : list ascii := firstn (strlen_nat p) p.

(** [std::string] constructed from a C string. *)
Definition of_c_str (p : GLchar_ptr) : std_string := c_chars p.

(** [std::string::c_str()]. *)
Definition c_str (s : std_string) : GLchar_ptr := s.

Definition size (s : std_string) : size_t := N.of_nat (List.length s).

Fixpoint starts_with (tok s : list ascii) : bool :=
  match tok, s with
  | [], _ => true
  | _ :: _, [] => false
  | a :: tok', b :: s' => Ascii.eqb a b && starts_with tok' s'
  end.

(** Left-to-right search in [s], the suffix of the subject that starts at
    index [i]. *)
Fixpoint scan (tok s : list ascii) (i : nat) : option nat :=
  if starts_with tok s then Some i
  else match s with
       | [] => None
       | _ :: s' => scan tok s' (S i)
       end.

(** [std::string::find(const char* s, size_type pos)]: the lowest index
    [>= pos] at which the C string occurs, [npos] when there is none. *)
Definition find (str : std_string) (tok : GLchar_ptr) (pos : size_t) : size_t :=
  if size str <? pos then npos
  else match scan (c_chars tok) (skipn (N.to_nat pos) str) (N.to_nat pos) with
       | Some p => N.of_nat p
       | None => npos
       end.

(** [std::string::replace(size_type pos, size_type len, const char* s,
    size_type n)]: throws [std::out_of_range] when [pos > size()], otherwise
    replaces [min(len, size() - pos)] characters at [pos] by the first [n]
    characters of [s]. *)
Definition replace {St} (str : std_string) (pos len : size_t) (s : GLchar_ptr)
    (n : size_t) : M St std_string :=
  if size str <? pos then throw std_out_of_range
  else ret (firstn (N.to_nat pos) str
              ++ firstn (N.to_nat n) s
              ++ skipn (N.to_nat (pos + N.min len (size str - pos))) str).

End StdString.

Import StdString.

(** ** Token substitution *)

(** [replaceToken(token, search_position, text, string)].  The two reference
    parameters are returned; when an exception is thrown they keep the values
    they had (the assignment to [search_position] is the last statement and
    [replace] throws before it modifies the string). *)
Definition replaceToken {St} (token : GLchar_ptr) (search_position : size_t)
    (text : GLchar_ptr) (string : std_string) : M St (size_t * std_string) :=
  let text_length := strlen text in
  let token_length := strlen token in
  let token_position := find string token search_position in
  string' <- replace string token_position token_length text text_length ;;
  ret (((token_position + text_length) mod SIZE_MODULUS)%N, string').

(** ** GL types and enumerators *)

Definition GLuint := N.
Definition GLenum := N.
Definition GLint := Z.
Definition GLsizei := Z.
Definition GLubyte := Byte.byte.

(** [GLuint] is 32 bits wide: [GLuint(-1)]. *)
Definition GLuint_minus_one : GLuint := (2 ^ 32 - 1)%N.

(** Modelled from the spec: the enumerators come from glwEnums.hpp, which is
    not among the sources.  [GL_NO_ERROR], [GL_FALSE] and [GL_TRUE] are
    compared with values the driver returns and carry the values the OpenGL
    specification fixes; the others are only passed to the driver. *)
Definition GL_NO_ERROR : GLenum := 0%N.
Definition GL_FALSE : GLint := 0%Z.
Definition GL_TRUE : GLint := 1%Z.
Definition GL_TEXTURE_2D : GLenum := 0x0DE1%N.
Definition GL_UNSIGNED_BYTE : GLenum := 0x1401%N.
Definition GL_RED_INTEGER : GLenum := 0x8D94%N.
Definition GL_FRAGMENT_SHADER : GLenum := 0x8B30%N.
Definition GL_VERTEX_SHADER : GLenum := 0x8B31%N.
Definition GL_COMPILE_STATUS : GLenum := 0x8B81%N.
Definition GL_LINK_STATUS : GLenum := 0x8B82%N.
Definition GL_INFO_LOG_LENGTH : GLenum := 0x8B84%N.
Definition GL_GEOMETRY_SHADER : GLenum := 0x8DD9%N.
Definition GL_TESS_EVALUATION_SHADER : GLenum := 0x8E87%N.
Definition GL_TESS_CONTROL_SHADER : GLenum := 0x8E88%N.
Definition GL_COMPUTE_SHADER : GLenum := 0x91B9%N.

(** The entry points of [glw::Functions] the embedded code calls, with the
    arguments it passes.  Out pointers are left out: what the driver stores
    through them is its answer (see [Platform]). *)
Inductive GLCall : Type :=
| deleteBuffers (n : GLsizei) (id : GLuint)
| deleteFramebuffers (n : GLsizei) (id : GLuint)
| deleteProgram (id : GLuint)
| deleteShader (id : GLuint)
| deleteTextures (n : GLsizei) (id : GLuint)
| deleteVertexArrays (n : GLsizei) (id : GLuint)
| bindVertexArray (id : GLuint)
| bindTexture (target : GLenum) (id : GLuint)
| useProgram (id : GLuint)
| getError
| createShader (stage : GLenum)
| shaderSource (id : GLuint) (count : GLsizei) (code : list ascii)
| compileShader (id : GLuint)
| getShaderiv (id : GLuint) (pname : GLenum)
| getShaderInfoLog (id : GLuint) (max_length : GLsizei)
| createProgram
| attachShader (program shader : GLuint)
| linkProgram (id : GLuint)
| getProgramiv (id : GLuint) (pname : GLenum)
| getProgramInfoLog (id : GLuint) (max_length : GLsizei)
| getTexImage (target : GLenum) (level : GLint) (format type : GLenum).

Arguments deleteBuffers n%_Z id%_N.
Arguments deleteFramebuffers n%_Z id%_N.
Arguments deleteTextures n%_Z id%_N.
Arguments deleteVertexArrays n%_Z id%_N.
Arguments bindVertexArray id%_N.
Arguments bindTexture target%_N id%_N.
Arguments shaderSource id%_N count%_Z code%_list.
Arguments getTexImage target%_N level%_Z format%_N type%_N.
Arguments deleteProgram id%_N.
Arguments deleteShader id%_N.
Arguments useProgram id%_N.
Arguments attachShader program%_N shader%_N.

(** Is the call one of the [glDelete*] entry points? *)
Definition is_delete (c : GLCall) : bool :=
  match c with
  | deleteBuffers _ _ | deleteFramebuffers _ _ | deleteProgram _
  | deleteShader _ | deleteTextures _ _ | deleteVertexArrays _ _ => true
  | _ => false
  end.

(** Does the call create an object (the [glCreate*] entry points; the
    embedded code calls no [glGen*])? *)
Definition is_create (c : GLCall) : bool :=
  match c with
  | createShader _ | createProgram => true
  | _ => false
  end.

Inductive ApiType : Type :=
| ApiType_core (major minor : N).

(** The collaborators outside the module: the GL implementation under test and
    the framework's knowledge of context types.  The driver is a state machine
    of an arbitrary state type; for a call made in a given state it fixes the
    next state, the scalar the call returns (if it returns one) and what it
    stores through its out pointer (if it has one).  [contextSupports] is
    [glu::contextSupports]; [getGLSLVersionDeclaration] is the C string
    [glu::getGLSLVersionDeclaration(glu::getContextTypeGLSLVersion(type))]. *)
Class Platform : Type := {
  Driver : Type;
  drv_next : GLCall -> Driver -> Driver;
  drv_value : GLCall -> Driver -> N;
  drv_out_int : GLCall -> Driver -> option GLint;
  drv_out_bytes : GLCall -> Driver -> list Byte.byte;
  ContextType : Type;
  contextSupports : ContextType -> ApiType -> bool;
  getGLSLVersionDeclaration : ContextType -> list ascii
}.

Inductive qpTestResult : Type :=
| QP_TEST_RESULT_PASS
| QP_TEST_RESULT_FAIL
| QP_TEST_RESULT_NOT_SUPPORTED.

Inductive IterateResult : Type :=
| STOP
| CONTINUE.

(** What [deqp::Context] gives access to: the GL functions (the driver state
    and, for the statements below, the calls issued so far, oldest first), the
    context information, the test result and the log. *)
Record World `{Platform} : Type := mkWorld {
  gl_state : Driver;
  gl_calls : list GLCall;
  ctx_extensions : list string;
  ctx_type : ContextType;
  test_result : option (qpTestResult * string);
  test_log : list string
}.

Arguments mkWorld {_} _ _ _ _ _ _.

Section Embedding.

Context `{P : Platform}.

Definition issue (c : GLCall) (w : World) : World :=
  mkWorld (drv_next c (gl_state w)) (gl_calls w ++ [c]) (ctx_extensions w)
          (ctx_type w) (test_result w) (test_log w).

(** A call that returns nothing. *)
Definition gl (c : GLCall) : M World unit :=
  fun w => Ok tt (issue c w).

(** A call that returns a scalar. *)
Definition gl_value (c : GLCall) : M World N :=
  fun w => Ok (drv_value c (gl_state w)) (issue c w).

(** A call that stores one [GLint] through its out pointer, or leaves the
    variable as it was. *)
Definition gl_out_int (c : GLCall) (old : GLint) : M World GLint :=
  fun w => Ok (match drv_out_int c (gl_state w) with Some v => v | None => old end)
              (issue c w).

(** Bytes stored from the start of a buffer: the buffer keeps its size. *)
Definition overlay {A} (data buf : list A) : list A :=
  firstn (List.length buf) data ++ skipn (List.length data) buf.

(** A call that stores bytes into the buffer its out pointer designates. *)
Definition gl_out_bytes (c : GLCall) (buf : list Byte.byte) : M World (list Byte.byte) :=
  fun w => Ok (overlay (drv_out_bytes c (gl_state w)) buf) (issue c w).

(** [GLU_EXPECT_NO_ERROR(gl.getError(), msg)]. *)
Definition GLU_EXPECT_NO_ERROR_getError (msg : string) : M World unit :=
  err <- gl_value getError ;;
  if (err =? GL_NO_ERROR)%N then ret tt else throw (glu_Error err msg).

(** [TCU_FAIL(msg)]. *)
Definition TCU_FAIL {St A} (msg : string) : M St A :=
  throw (tcu_TestError msg).

(** [m_context.getTestContext().getLog() << Message << ... << EndMessage]. *)
Definition log_message (msg : string) : M World unit :=
  fun w => Ok tt (mkWorld (gl_state w) (gl_calls w) (ctx_extensions w)
                          (ctx_type w) (test_result w) (test_log w ++ [msg])).

(** [m_context.getTestContext().setTestResult(result, description)]. *)
Definition setTestResult (r : qpTestResult) (description : string) : M World unit :=
  fun w => Ok tt (mkWorld (gl_state w) (gl_calls w) (ctx_extensions w)
                          (ctx_type w) (Some (r, description)) (test_log w)).

(** [context.getContextInfo().isExtensionSupported(name)]. *)
Definition isExtensionSupported (name : string) : M World bool :=
  fun w => Ok (existsb (String.eqb name) (ctx_extensions w)) w.

(** [context.getRenderContext().getType()]. *)
Definition getType : M World ContextType :=
  fun w => Ok (ctx_type w) w.

(** *** Methods: the state is [this] next to the world *)

Definition this {T} : M (T * World) T := fun s => Ok (fst s) s.

Definition set_this {T} (x : T) : M (T * World) unit :=
  fun s => Ok tt (x, snd s).

(** A computation that does not touch [this]. *)
Definition inW {T A} (m : M World A) : M (T * World) A :=
  zoom snd (fun w s => (fst s, w)) m.

(** A method call on the member that [proj] reads and [upd] writes. *)
Definition on_member {T U A} (proj : T -> U) (upd : U -> T -> T)
    (m : M (U * World) A) : M (T * World) A :=
  zoom (fun s => (proj (fst s), snd s))
       (fun u s => (upd (fst u) (fst s), snd u)) m.

End Embedding.

(** ** Resource wrappers *)

Module Buffer.
Section Methods.
Context `{P : Platform}.

Record t : Type := mk { m_id : GLuint; m_target : GLenum }.

Definition m_invalid_id : GLuint := GLuint_minus_one.

(** [Buffer::Release]. *)
Definition Release : M (t * World) unit :=
  self <- this ;;
  if negb (m_invalid_id =? m_id self)%N then
    inW (gl (deleteBuffers 1 (m_id self))) ;;
    set_this (mk m_invalid_id (m_target self))
  else ret tt.

(** [Buffer::~Buffer]. *)
Definition destructor : M (t * World) unit := Release.

End Methods.
End Buffer.

Module Framebuffer.
Section Methods.
Context `{P : Platform}.

Record t : Type := mk { m_id : GLuint }.

Definition m_invalid_id : GLuint := GLuint_minus_one.

(** [Framebuffer::Release]. *)
Definition Release : M (t * World) unit :=
  self <- this ;;
  if negb (m_invalid_id =? m_id self)%N then
    inW (gl (deleteFramebuffers 1 (m_id self))) ;;
    set_this (mk m_invalid_id)
  else ret tt.

(** [Framebuffer::~Framebuffer]. *)
Definition destructor : M (t * World) unit := Release.

End Methods.
End Framebuffer.

Module Texture.
Section Methods.
Context `{P : Platform}.

Record t : Type := mk { m_id : GLuint }.

Definition m_invalid_id : GLuint := GLuint_minus_one.

(** [Texture::Release]. *)
Definition Release : M (t * World) unit :=
  self <- this ;;
  if negb (m_invalid_id =? m_id self)%N then
    inW (gl (deleteTextures 1 (m_id self))) ;;
    set_this (mk m_invalid_id)
  else ret tt.

(** [Texture::~Texture]. *)
Definition destructor : M (t * World) unit := Release.

(** [Texture::Bind(gl, id, target)]. *)
Definition Bind (id : GLuint) (target : GLenum) : M World unit :=
  gl (bindTexture target id) ;;
  GLU_EXPECT_NO_ERROR_getError "BindTexture".

(** [Texture::GetData(gl, level, target, format, type, out_data)]; the
    contents of [out_data] are passed in and returned. *)
Definition GetData (level : GLint) (target format type : GLenum)
    (out_data : list GLubyte) : M World (list GLubyte) :=
  out_data' <- gl_out_bytes (getTexImage target level format type) out_data ;;
  GLU_EXPECT_NO_ERROR_getError "GetTexImage" ;;
  ret out_data'.

End Methods.
End Texture.

Module VertexArray.
Section Methods.
Context `{P : Platform}.

Record t : Type := mk { m_id : GLuint }.

Definition m_invalid_id : GLuint := GLuint_minus_one.

(** [VertexArray::Bind(gl, id)]. *)
Definition Bind (id : GLuint) : M World unit :=
  gl (bindVertexArray id) ;;
  GLU_EXPECT_NO_ERROR_getError "BindVertexArray".

(** [VertexArray::Release]. *)
Definition Release : M (t * World) unit :=
  self <- this ;;
  if negb (m_invalid_id =? m_id self)%N then
    inW (Bind 0%N) ;;
    inW (gl (deleteVertexArrays 1 (m_id self))) ;;
    set_this (mk m_invalid_id)
  else ret tt.

(** [VertexArray::~VertexArray]. *)
Definition destructor : M (t * World) unit := Release.

End Methods.
End VertexArray.

(** [std::string::resize(n, c)] on an empty string, with [n] converted from a
    [GLint]: a negative [n] becomes a size above [max_size()]. *)
Definition resize_empty {St} (n : GLint) (c : ascii) : M St std_string :=
  if (n <? 0)%Z then throw std_length_error
  else ret (repeat c (Z.to_nat n)).

Definition ascii_of_byte_list (l : list Byte.byte) : list ascii :=
  map ascii_of_byte l.

Definition byte_of_ascii_list (l : list ascii) : list Byte.byte :=
  map byte_of_ascii l.

Module Shader.
Section Methods.
Context `{P : Platform}.

Record t : Type := mk { m_id : GLuint }.

Definition m_invalid_id : GLuint := 0%N.

(** [Shader::Release]. *)
Definition Release : M (t * World) unit :=
  self <- this ;;
  if negb (m_invalid_id =? m_id self)%N then
    inW (gl (deleteShader (m_id self))) ;;
    set_this (mk m_invalid_id)
  else ret tt.

(** [Shader::~Shader]. *)
Definition destructor : M (t * World) unit := Release.

(** [Shader::Compile(gl, id)]. *)
Definition Compile (id : GLuint) : M World unit :=
  let status := GL_FALSE in
  gl (compileShader id) ;;
  GLU_EXPECT_NO_ERROR_getError "CompileShader" ;;
  status <- gl_out_int (getShaderiv id GL_COMPILE_STATUS) status ;;
  GLU_EXPECT_NO_ERROR_getError "GetShaderiv" ;;
  if negb (GL_TRUE =? status)%Z then
    let length := 0%Z in
    length <- gl_out_int (getShaderiv id GL_INFO_LOG_LENGTH) length ;;
    GLU_EXPECT_NO_ERROR_getError "GetShaderiv" ;;
    message <- resize_empty length NUL ;;
    written <- gl_out_bytes (getShaderInfoLog id length) (byte_of_ascii_list message) ;;
    GLU_EXPECT_NO_ERROR_getError "GetShaderInfoLog" ;;
    TCU_FAIL (string_of_list_ascii (c_chars (ascii_of_byte_list written)))
  else ret tt.

(** [Shader::Create(gl, stage, out_id)]; [out_id] is returned, it is assigned
    on the last line only. *)
Definition Create (stage : GLenum) : M World GLuint :=
  id <- gl_value (createShader stage) ;;
  GLU_EXPECT_NO_ERROR_getError "CreateShader" ;;
  if (m_invalid_id =? id)%N then TCU_FAIL "Failed to create shader"
  else ret id.

(** [Shader::Source(gl, id, source)]. *)
Definition Source (id : GLuint) (source : std_string) : M World unit :=
  let code := c_str source in
  gl (shaderSource id 1 (c_chars code)) ;;
  GLU_EXPECT_NO_ERROR_getError "ShaderSource".

(** [Shader::Init(stage, source)]. *)
Definition Init (stage : GLenum) (source : std_string) : M (t * World) unit :=
  match source with
  | [] => ret tt
  | _ :: _ =>
      Release ;;
      id <- inW (Create stage) ;;
      set_this (mk id) ;;
      inW (Source id source) ;;
      inW (Compile id)
  end.

End Methods.
End Shader.

Module Program.
Section Methods.
Context `{P : Platform}.

Record t : Type := mk {
  m_id : GLuint;
  m_compute : Shader.t;
  m_fragment : Shader.t;
  m_geometry : Shader.t;
  m_tess_ctrl : Shader.t;
  m_tess_eval : Shader.t;
  m_vertex : Shader.t
}.

Definition m_invalid_id : GLuint := 0%N.

Definition set_m_id (v : GLuint) (p : t) : t :=
  mk v (m_compute p) (m_fragment p) (m_geometry p) (m_tess_ctrl p)
     (m_tess_eval p) (m_vertex p).
Definition set_m_compute (v : Shader.t) (p : t) : t :=
  mk (m_id p) v (m_fragment p) (m_geometry p) (m_tess_ctrl p)
     (m_tess_eval p) (m_vertex p).
Definition set_m_fragment (v : Shader.t) (p : t) : t :=
  mk (m_id p) (m_compute p) v (m_geometry p) (m_tess_ctrl p)
     (m_tess_eval p) (m_vertex p).
Definition set_m_geometry (v : Shader.t) (p : t) : t :=
  mk (m_id p) (m_compute p) (m_fragment p) v (m_tess_ctrl p)
     (m_tess_eval p) (m_vertex p).
Definition set_m_tess_ctrl (v : Shader.t) (p : t) : t :=
  mk (m_id p) (m_compute p) (m_fragment p) (m_geometry p) v
     (m_tess_eval p) (m_vertex p).
Definition set_m_tess_eval (v : Shader.t) (p : t) : t :=
  mk (m_id p) (m_compute p) (m_fragment p) (m_geometry p) (m_tess_ctrl p)
     v (m_vertex p).
Definition set_m_vertex (v : Shader.t) (p : t) : t :=
  mk (m_id p) (m_compute p) (m_fragment p) (m_geometry p) (m_tess_ctrl p)
     (m_tess_eval p) v.

(** [Program::Use(gl, id)]. *)
Definition Use (id : GLuint) : M World unit :=
  gl (useProgram id) ;;
  GLU_EXPECT_NO_ERROR_getError "UseProgram".

(** [Program::Release]. *)
Definition Release : M (t * World) unit :=
  self <- this ;;
  (if negb (m_invalid_id =? m_id self)%N then
     inW (Use m_invalid_id) ;;
     inW (gl (deleteProgram (m_id self))) ;;
     set_this (set_m_id m_invalid_id self)
   else ret tt) ;;
  on_member m_compute set_m_compute Shader.Release ;;
  on_member m_fragment set_m_fragment Shader.Release ;;
  on_member m_geometry set_m_geometry Shader.Release ;;
  on_member m_tess_ctrl set_m_tess_ctrl Shader.Release ;;
  on_member m_tess_eval set_m_tess_eval Shader.Release ;;
  on_member m_vertex set_m_vertex Shader.Release.

(** [Program::~Program]. *)
Definition destructor : M (t * World) unit := Release.

(** [Program::Attach(gl, program_id, shader_id)]. *)
Definition Attach (program_id shader_id : GLuint) : M World unit :=
  if (m_invalid_id =? program_id)%N || (Shader.m_invalid_id =? shader_id)%N
  then ret tt
  else
    gl (attachShader program_id shader_id) ;;
    GLU_EXPECT_NO_ERROR_getError "AttachShader".

(** [Program::Create(gl, out_id)]; [out_id] is returned. *)
Definition Create : M World GLuint :=
  id <- gl_value createProgram ;;
  GLU_EXPECT_NO_ERROR_getError "CreateProgram" ;;
  if (m_invalid_id =? id)%N then TCU_FAIL "Failed to create program"
  else ret id.

(** [Program::Link(gl, id)]. *)
Definition Link (id : GLuint) : M World unit :=
  let status := GL_FALSE in
  gl (linkProgram id) ;;
  GLU_EXPECT_NO_ERROR_getError "LinkProgram" ;;
  status <- gl_out_int (getProgramiv id GL_LINK_STATUS) status ;;
  GLU_EXPECT_NO_ERROR_getError "GetProgramiv" ;;
  if negb (GL_TRUE =? status)%Z then
    let length := 0%Z in
    length <- gl_out_int (getProgramiv id GL_INFO_LOG_LENGTH) length ;;
    GLU_EXPECT_NO_ERROR_getError "GetProgramiv" ;;
    message <- resize_empty length NUL ;;
    written <- gl_out_bytes (getProgramInfoLog id length) (byte_of_ascii_list message) ;;
    GLU_EXPECT_NO_ERROR_getError "GetProgramInfoLog" ;;
    TCU_FAIL (string_of_list_ascii (c_chars (ascii_of_byte_list written)))
  else ret tt.

(** [Program::Init(compute_shader, fragment_shader, geometry_shader,
    tesselation_control_shader, tesselation_evaluation_shader,
    vertex_shader)]. *)
Definition Init (compute_shader fragment_shader geometry_shader
    tesselation_control_shader tesselation_evaluation_shader
    vertex_shader : std_string) : M (t * World) unit :=
  Release ;;
  on_member m_compute set_m_compute (Shader.Init GL_COMPUTE_SHADER compute_shader) ;;
  on_member m_fragment set_m_fragment (Shader.Init GL_FRAGMENT_SHADER fragment_shader) ;;
  on_member m_geometry set_m_geometry (Shader.Init GL_GEOMETRY_SHADER geometry_shader) ;;
  on_member m_tess_ctrl set_m_tess_ctrl
    (Shader.Init GL_TESS_CONTROL_SHADER tesselation_control_shader) ;;
  on_member m_tess_eval set_m_tess_eval
    (Shader.Init GL_TESS_EVALUATION_SHADER tesselation_evaluation_shader) ;;
  on_member m_vertex set_m_vertex (Shader.Init GL_VERTEX_SHADER vertex_shader) ;;
  id <- inW Create ;;
  self <- this ;;
  set_this (set_m_id id self) ;;
  self <- this ;;
  inW (Attach (m_id self) (Shader.m_id (m_compute self))) ;;
  inW (Attach (m_id self) (Shader.m_id (m_fragment self))) ;;
  inW (Attach (m_id self) (Shader.m_id (m_geometry self))) ;;
  inW (Attach (m_id self) (Shader.m_id (m_tess_ctrl self))) ;;
  inW (Attach (m_id self) (Shader.m_id (m_tess_eval self))) ;;
  inW (Attach (m_id self) (Shader.m_id (m_vertex self))) ;;
  inW (Link (m_id self)).

End Methods.
End Program.

(** ** Floats in memory *)

Module Float32.

Local Open Scope N_scope.

(** The bit pattern of an IEEE 754 binary32 value, below [2^32]. *)
Definition GLfloat := N.

Definition exponent (f : GLfloat) : N := (f / 2 ^ 23) mod 2 ^ 8.
Definition mantissa (f : GLfloat) : N := f mod 2 ^ 23.

Definition is_nan (f : GLfloat) : bool :=
  (exponent f =? 255) && negb (mantissa f =? 0).

(** Positive or negative zero. *)
Definition is_zero (f : GLfloat) : bool :=
  (exponent f =? 0) && (mantissa f =? 0).

(** The [==] of C++ on two floats: a NaN equals nothing, the two zeros are
    equal, and otherwise the values are equal when the patterns are. *)
Definition eqb (a b : GLfloat) : bool :=
  negb (is_nan a) && negb (is_nan b) && ((a =? b) || (is_zero a && is_zero b)).

Definition byte_of (n : N) : Byte.byte :=
  match Byte.of_N (n mod 256) with
  | Some b => b
  | None => Byte.x00
  end.

(** The four bytes of a float in memory, least significant first.  The source
    only compares memory images that the same machine stored, so the byte
    order has no influence on the results. *)
Definition to_bytes (f : GLfloat) : list Byte.byte :=
  [byte_of f; byte_of (f / 2 ^ 8); byte_of (f / 2 ^ 16); byte_of (f / 2 ^ 24)].

Definition of_bytes (b0 b1 b2 b3 : Byte.byte) : GLfloat :=
  Byte.to_N b0 + 2 ^ 8 * Byte.to_N b1 + 2 ^ 16 * Byte.to_N b2
  + 2 ^ 24 * Byte.to_N b3.

(** The memory image of a float array. *)
Definition array_bytes (a : list GLfloat) : list Byte.byte :=
  flat_map to_bytes a.

(** [p[i]] for a [GLfloat* p] into memory [mem]. *)
Definition load (mem : list Byte.byte) (i : nat) : GLfloat :=
  of_bytes (nth (4 * i) mem Byte.x00) (nth (4 * i + 1) mem Byte.x00)
           (nth (4 * i + 2) mem Byte.x00) (nth (4 * i + 3) mem Byte.x00).

(** The literals of the source. *)
Definition f_0_0 : GLfloat := 0.
Definition f_1_0 : GLfloat := 0x3F800000.
Definition f_2_0 : GLfloat := 0x40000000.
Definition f_3_0 : GLfloat := 0x40400000.
Definition f_4_0 : GLfloat := 0x40800000.
Definition f_5_0 : GLfloat := 0x40A00000.

End Float32.

(** [memcmp(a, b, n)]: the bytes are compared as [unsigned char]; the result
    is zero when the first [n] bytes agree and has the sign of the first
    difference otherwise.  Both arrays hold [n] bytes at every call. *)
Fixpoint memcmp (a b : list Byte.byte) (n : nat) {struct n} : Z :=
  match n with
  | O => 0%Z
  | S n' =>
      match a, b with
      | x :: a', y :: b' =>
          if (Byte.to_N x =? Byte.to_N y)%N then memcmp a' b' n'
          else (Z.of_N (Byte.to_N x) - Z.of_N (Byte.to_N y))%Z
      | _, _ => 0%Z
      end
  end.

(** [stream << n] for an unsigned [n] on a fresh [std::stringstream], then
    [str()]: the decimal digits. *)
Definition decimal (n : GLuint) : std_string :=
  list_ascii_of_string (NilZero.string_of_uint (N.to_uint n)).

(** A [for] loop over the given indices. *)
Fixpoint for_each {St} (l : list nat) (body : nat -> M St unit) : M St unit :=
  match l with
  | [] => ret tt
  | i :: l' => body i ;; for_each l' body
  end.

Definition lit (s : string) : GLchar_ptr := list_ascii_of_string s.

(** The newline of the string literals. *)
Definition nl : string := String (ascii_of_nat 10) EmptyString.

(** Adjacent string literals of the source, each ending in a newline. *)
Fixpoint lines (l : list string) : string :=
  match l with
  | [] => EmptyString
  | x :: l' => (x ++ nl ++ lines l')%string
  end.

(** ** The feature check *)

Section FeatureCheck.
Context `{P : Platform}.

(** [isRobustBufferAccessBehaviorFeatureSupported(context)]. *)
Definition isRobustBufferAccessBehaviorFeatureSupported : M World bool :=
  context_type <- getType ;;
  khr <- isExtensionSupported "GL_KHR_robust_buffer_access_behavior" ;;
  if khr then ret true
  else
    arb <- isExtensionSupported "GL_ARB_robust_buffer_access_behavior" ;;
    if arb then ret true
    else if contextSupports context_type (ApiType_core 4 3) then ret true
    else
      setTestResult QP_TEST_RESULT_NOT_SUPPORTED "Not Supported" ;;
      ret false.

End FeatureCheck.

(** ** VertexBufferObjectsTest *)

Module VertexBufferObjectsTest.
Section Methods.
Context `{P : Platform}.

Definition height : nat := 8.
Definition width : nat := 8.

(** [VertexBufferObjectsTest::iterate]: the feature check and the early
    return; [rest] stands for the statements after them (creation of the
    objects, the draws and the verification). *)
Definition iterate (rest : M World IterateResult) : M World IterateResult :=
  supported <- isRobustBufferAccessBehaviorFeatureSupported ;;
  if negb supported then ret STOP else rest.

(** The verification loop of [verifyResults], from index [i] for [n]
    iterations. *)
Fixpoint verify_loop (pixels : list GLubyte) (i n : nat) : bool :=
  match n with
  | O => true
  | S n' =>
      if negb (255 =? Byte.to_N (nth i pixels Byte.x00))%N then false
      else verify_loop pixels (S i) n'
  end.

(** [VertexBufferObjectsTest::verifyResults(texture_id)]; the first loop of
    the source fills the 64 pixels with zeros. *)
Definition verifyResults (texture_id : GLuint) : M World bool :=
  let pixels := repeat Byte.x00 (width * height) in
  Texture.Bind texture_id GL_TEXTURE_2D ;;
  pixels <- Texture.GetData 0%Z GL_TEXTURE_2D GL_RED_INTEGER GL_UNSIGNED_BYTE pixels ;;
  Texture.Bind 0%N GL_TEXTURE_2D ;;
  ret (verify_loop pixels 0 (width * height)).

(** [VertexBufferObjectsTest::verifyInvalidResults(texture_id)]. *)
Definition verifyInvalidResults (texture_id : GLuint) : M World bool :=
  r <- verifyResults texture_id ;;
  ret (negb r).

(** [VertexBufferObjectsTest::verifyValidResults(texture_id)]. *)
Definition verifyValidResults (texture_id : GLuint) : M World bool :=
  verifyResults texture_id.

End Methods.
End VertexBufferObjectsTest.

Module TexelFetchTest.

(** Modelled from the spec: the enumeration [TexelFetchTest::TEST_CASES] is
    declared in the header, which is not among the sources; the enumerators
    are those the source names. *)
Inductive TEST_CASES : Type :=
| R8
| RG8_SNORM
| RGBA32F
| R32UI_MIPMAP
| R32UI_MULTISAMPLE
| LAST.

Record t : Type := mk { m_test_case : TEST_CASES }.

Definition TEST_CASES_eqb (a b : TEST_CASES) : bool :=
  match a, b with
  | R8, R8 | RG8_SNORM, RG8_SNORM | RGBA32F, RGBA32F
  | R32UI_MIPMAP, R32UI_MIPMAP | R32UI_MULTISAMPLE, R32UI_MULTISAMPLE
  | LAST, LAST => true
  | _, _ => false
  end.

Definition plane_0 : GLchar_ptr := lit (lines ["    int   plane  = 0;"]).
Definition plane_1 : GLchar_ptr := lit (lines ["    int   plane  = 1;"]).
Definition plane_2 : GLchar_ptr := lit (lines ["    int   plane  = 2;"]).
Definition plane_sample_invalid : GLchar_ptr :=
  lit (lines ["    int   plane  = 9;"]).
Definition plane_sample_valid : GLchar_ptr :=
  lit (lines ["    int   plane  = gl_SampleID;"]).

Definition sampler_regular : GLchar_ptr := lit "sampler2D".
Definition sampler_regular_u : GLchar_ptr := lit "usampler2D".
Definition sampler_multisampled_u : GLchar_ptr := lit "usampler2DMS".

(** The template of [getFragmentShader]. *)
Definition template_code : GLchar_ptr := lit ("VERSION" ++ lines [
  "";
  "                      in  lowp vec2      gs_fs_tex_coord;";
  "layout (location = 0) out lowp TYPE      out_fs_color;";
  "layout (location = 0) uniform lowp SAMPLER uni_texture;";
  "";
  "void main()";
  "{";
  "PLANE";
  "    ivec2 point  = ivec2(gs_fs_tex_coord * 16.0) + ivec2(OFFSET);";
  "    out_fs_color = texelFetch(uni_texture, point, plane);";
  "}";
  ""])%string.

Definition type_vec4 : GLchar_ptr := lit "vec4".
Definition type_uvec4 : GLchar_ptr := lit "uvec4".

Section Methods.
Context `{P : Platform}.

(** [TexelFetchTest::iterate], as far as the early return. *)
Definition iterate {T} (rest : M (T * World) IterateResult)
  : M (T * World) IterateResult :=
  supported <- inW isRobustBufferAccessBehaviorFeatureSupported ;;
  if negb supported then ret STOP else rest.

(** [TexelFetchTest::getFragmentShader(is_case_valid, fetch_offset)] over a
    template [template_code]. *)
Definition getFragmentShader_from (template_code : GLchar_ptr) (self : t)
    (is_case_valid : bool) (fetch_offset : GLuint) : M World std_string :=
  let plane := plane_0 in
  let sampler := sampler_regular in
  let type := type_vec4 in
  let '(plane, sampler, type, fetch_offset) :=
    if TEST_CASES_eqb R32UI_MIPMAP (m_test_case self) then
      if Bool.eqb false is_case_valid
      then (plane_2, sampler_regular_u, type_uvec4, 0%N)
      else (plane_1, sampler_regular_u, type_uvec4, fetch_offset)
    else if TEST_CASES_eqb R32UI_MULTISAMPLE (m_test_case self) then
      if Bool.eqb false is_case_valid
      then (plane_sample_invalid, sampler_multisampled_u, type_uvec4, 0%N)
      else (plane_sample_valid, sampler_multisampled_u, type_uvec4, fetch_offset)
    else (plane, sampler, type, fetch_offset) in
  contextType <- getType ;;
  let version := getGLSLVersionDeclaration contextType in
  let position := 0%N in
  let source := of_c_str template_code in
  let offset_str := decimal fetch_offset in
  '(position, source) <- replaceToken (lit "VERSION") position version source ;;
  '(position, source) <- replaceToken (lit "TYPE") position type source ;;
  '(position, source) <- replaceToken (lit "SAMPLER") position sampler source ;;
  '(position, source) <- replaceToken (lit "PLANE") position plane source ;;
  '(position, source) <-
    replaceToken (lit "OFFSET") position (c_str offset_str) source ;;
  ret source.

(** [TexelFetchTest::getFragmentShader(is_case_valid, fetch_offset)]. *)
Definition getFragmentShader (self : t) (is_case_valid : bool)
    (fetch_offset : GLuint) : M World std_string :=
  getFragmentShader_from template_code self is_case_valid fetch_offset.

End Methods.
End TexelFetchTest.

Module ImageLoadStoreTest.

Import TexelFetchTest.

(** Modelled from the spec: the enumeration [ImageLoadStoreTest::VERSION] is
    declared in the header, which is not among the sources; the enumerators
    are those the source names. *)
Inductive VERSION : Type :=
| VALID
| SOURCE_INVALID
| DESTINATION_INVALID.

Definition VERSION_eqb (a b : VERSION) : bool :=
  match a, b with
  | VALID, VALID | SOURCE_INVALID, SOURCE_INVALID
  | DESTINATION_INVALID, DESTINATION_INVALID => true
  | _, _ => false
  end.

(** The template of [getComputeShader]. *)
Definition template_code : GLchar_ptr := lit (lines [
  "#version 430 core";
  "";
  "layout (local_size_x = 1, local_size_y = 1, local_size_z = 1) in;";
  "";
  "layout (location = 1) writeonly uniform IMAGE uni_destination_image;";
  "layout (location = 0, FORMAT) readonly  uniform IMAGE uni_source_image;";
  "";
  "void main()";
  "{";
  "    const ivec2 point_destination = ivec2(gl_WorkGroupID.xy) + ivec2(COORD_OFFSET);";
  "    const ivec2 point_source      = ivec2(gl_WorkGroupID.xy) + ivec2(COORD_OFFSET);";
  ""] ++ "COPY" ++ lines [
  "}";
  ""])%string.

Definition copy_multisampled : GLchar_ptr := lit (lines [
  "    const TYPE color_0 = imageLoad(uni_source_image, point_source, 0 + SAMPLE_OFFSET);";
  "    const TYPE color_1 = imageLoad(uni_source_image, point_source, 1 + SAMPLE_OFFSET);";
  "    const TYPE color_2 = imageLoad(uni_source_image, point_source, 2 + SAMPLE_OFFSET);";
  "    const TYPE color_3 = imageLoad(uni_source_image, point_source, 3 + SAMPLE_OFFSET);";
  "    imageStore(uni_destination_image, point_destination, 0 + SAMPLE_OFFSET, color_0);";
  "    imageStore(uni_destination_image, point_destination, 1 + SAMPLE_OFFSET, color_1);";
  "    imageStore(uni_destination_image, point_destination, 2 + SAMPLE_OFFSET, color_2);";
  "    imageStore(uni_destination_image, point_destination, 3 + SAMPLE_OFFSET, color_3);"]).

Definition copy_regular : GLchar_ptr := lit (lines [
  "    const TYPE color = imageLoad(uni_source_image, point_source);";
  "    imageStore(uni_destination_image, point_destination, color);"]).

Definition format_r8 : GLchar_ptr := lit "r8".
Definition format_rg8_snorm : GLchar_ptr := lit "rg8_snorm".
Definition format_rgba32f : GLchar_ptr := lit "rgba32f".
Definition format_r32ui : GLchar_ptr := lit "r32ui".

Definition image_vec4 : GLchar_ptr := lit "image2D".
Definition image_uvec4 : GLchar_ptr := lit "uimage2D".
Definition image_uvec4_ms : GLchar_ptr := lit "uimage2DMS".

(** [ImageLoadStoreTest::getComputeShader(version, coord_offset,
    sample_offset)] over a template [template_code].  The assignment
    [coord_offset = 0] of the multisample case follows the last use of the
    variable and has no counterpart here. *)
Definition getComputeShader_from {St} (template_code : GLchar_ptr) (self : t)
    (version : VERSION) (coord_offset sample_offset : GLuint)
  : M St std_string :=
  let copy := copy_regular in
  let format := format_r8 in
  let image := image_vec4 in
  let type := type_vec4 in
  let zero := of_c_str (lit "0") in
  let coord_offset_stream := decimal coord_offset in
  let sample_offset_stream := decimal sample_offset in
  let '(src_coord_offset_str, dst_coord_offset_str,
        src_sample_offset_str, dst_sample_offset_str) :=
    if VERSION_eqb version SOURCE_INVALID
    then (coord_offset_stream, zero, sample_offset_stream, zero)
    else if VERSION_eqb version DESTINATION_INVALID
    then (zero, coord_offset_stream, zero, sample_offset_stream)
    else (zero, zero, zero, zero) in
  '(copy, format, image, type) <-
    match m_test_case self with
    | R8 => ret (copy, format, image, type)
    | RG8_SNORM => ret (copy, format_rg8_snorm, image, type)
    | RGBA32F => ret (copy, format_rgba32f, image, type)
    | R32UI_MIPMAP => ret (copy, format_r32ui, image_uvec4, type_uvec4)
    | R32UI_MULTISAMPLE =>
        ret (copy_multisampled, format_r32ui, image_uvec4_ms, type_uvec4)
    | LAST => TCU_FAIL "Invalid enum"
    end ;;
  let position := 0%N in
  let source := of_c_str template_code in
  '(position, source) <- replaceToken (lit "IMAGE") position image source ;;
  '(position, source) <- replaceToken (lit "FORMAT") position format source ;;
  '(position, source) <- replaceToken (lit "IMAGE") position image source ;;
  '(position, source) <-
    replaceToken (lit "COORD_OFFSET") position (c_str dst_coord_offset_str) source ;;
  '(position, source) <-
    replaceToken (lit "COORD_OFFSET") position (c_str src_coord_offset_str) source ;;
  let temp_position := position in
  '(position, source) <- replaceToken (lit "COPY") position copy source ;;
  let position := temp_position in
  let src := c_str src_sample_offset_str in
  let dst := c_str dst_sample_offset_str in
  match m_test_case self with
  | R8 | RG8_SNORM | RGBA32F | R32UI_MIPMAP =>
      '(position, source) <- replaceToken (lit "TYPE") position type source ;;
      ret source
  | R32UI_MULTISAMPLE =>
      '(position, source) <- replaceToken (lit "TYPE") position type source ;;
      '(position, source) <- replaceToken (lit "SAMPLE_OFFSET") position src source ;;
      '(position, source) <- replaceToken (lit "TYPE") position type source ;;
      '(position, source) <- replaceToken (lit "SAMPLE_OFFSET") position src source ;;
      '(position, source) <- replaceToken (lit "TYPE") position type source ;;
      '(position, source) <- replaceToken (lit "SAMPLE_OFFSET") position src source ;;
      '(position, source) <- replaceToken (lit "TYPE") position type source ;;
      '(position, source) <- replaceToken (lit "SAMPLE_OFFSET") position src source ;;
      '(position, source) <- replaceToken (lit "SAMPLE_OFFSET") position dst source ;;
      '(position, source) <- replaceToken (lit "SAMPLE_OFFSET") position dst source ;;
      '(position, source) <- replaceToken (lit "SAMPLE_OFFSET") position dst source ;;
      '(position, source) <- replaceToken (lit "SAMPLE_OFFSET") position dst source ;;
      ret source
  | LAST => TCU_FAIL "Invalid enum"
  end.

(** [ImageLoadStoreTest::getComputeShader(version, coord_offset,
    sample_offset)]. *)
Definition getComputeShader {St} (self : t) (version : VERSION)
    (coord_offset sample_offset : GLuint) : M St std_string :=
  getComputeShader_from template_code self version coord_offset sample_offset.

Section Methods.
Context `{P : Platform}.

(** [ImageLoadStoreTest::iterate], as far as the early return. *)
Definition iterate {T} (rest : M (T * World) IterateResult)
  : M (T * World) IterateResult :=
  supported <- inW isRobustBufferAccessBehaviorFeatureSupported ;;
  if negb supported then ret STOP else rest.

End Methods.
End ImageLoadStoreTest.

(** ** StorageBufferTest *)

Module StorageBufferTest.

(** Modelled from the spec: the enumeration [StorageBufferTest::VERSION] is
    declared in the header, which is not among the sources; the enumerators
    are those the source names. *)
Inductive VERSION : Type :=
| VALID
| SOURCE_INVALID
| DESTINATION_INVALID
| LAST.

Record t : Type := mk {
  m_test_case : VERSION;
  m_hasKhrRobustBufferAccess : bool
}.

Definition VERSION_eqb (a b : VERSION) : bool :=
  match a, b with
  | VALID, VALID | SOURCE_INVALID, SOURCE_INVALID
  | DESTINATION_INVALID, DESTINATION_INVALID | LAST, LAST => true
  | _, _ => false
  end.

Import Float32.

Definition m_destination_data : list GLfloat := [f_1_0; f_1_0; f_1_0; f_1_0].
Definition m_source_data : list GLfloat := [f_2_0; f_3_0; f_4_0; f_5_0].

Definition expected_data_valid : list GLfloat := [f_2_0; f_3_0; f_4_0; f_5_0].
Definition expected_data_invalid_source : list GLfloat :=
  [f_0_0; f_0_0; f_0_0; f_0_0].
Definition expected_data_invalid_destination : list GLfloat :=
  [f_1_0; f_1_0; f_1_0; f_1_0].

(** The template of [getComputeShader]. *)
Definition cs : GLchar_ptr := lit (lines [
  "#version 430 core";
  "";
  "layout (local_size_x = 4, local_size_y = 1, local_size_z = 1) in;";
  "";
  "layout (binding = 1, std430) buffer Source {";
  "    float data[];";
  "} source;";
  "";
  "layout (binding = 0, std430) buffer Destination {";
  "    float data[];";
  "} destination;";
  "";
  "void main()";
  "{";
  "    const uint index_destination = gl_LocalInvocationID.x + OFFSET;";
  "    const uint index_source      = gl_LocalInvocationID.x + OFFSET;";
  "";
  "    destination.data[index_destination] = source.data[index_source];";
  "}";
  ""]).

(** [StorageBufferTest::getComputeShader(offset)] over a template [cs]. *)
Definition getComputeShader_from {St} (cs : GLchar_ptr) (self : t)
    (offset : GLuint) : M St std_string :=
  let destination_offset := of_c_str (lit "0") in
  let source_offset := of_c_str (lit "0") in
  let position := 0%N in
  let source := of_c_str cs in
  let offset_stream := decimal offset in
  let '(source_offset, destination_offset) :=
    if VERSION_eqb (m_test_case self) SOURCE_INVALID
    then (offset_stream, destination_offset)
    else if VERSION_eqb (m_test_case self) DESTINATION_INVALID
    then (source_offset, offset_stream)
    else (source_offset, destination_offset) in
  '(position, source) <-
    replaceToken (lit "OFFSET") position (c_str destination_offset) source ;;
  '(position, source) <-
    replaceToken (lit "OFFSET") position (c_str source_offset) source ;;
  ret source.

(** [StorageBufferTest::getComputeShader(offset)]. *)
Definition getComputeShader {St} (self : t) (offset : GLuint) : M St std_string :=
  getComputeShader_from cs self offset.

(** The inner loop of [verifyResults]:
    [for (int c = 0; c < 4 && !valid; c++)
       if (x == m_source_data[c]) valid = true;] *)
Definition match_source (x : GLfloat) (valid : bool) : bool :=
  fold_left
    (fun valid c =>
       if negb valid
       then (if Float32.eqb x (nth c m_source_data f_0_0) then true else valid)
       else valid)
    (seq 0 4) valid.

Section Methods.
Context `{P : Platform}.

(** [StorageBufferTest::iterate], as far as the early return. *)
Definition iterate (rest : M (t * World) IterateResult)
  : M (t * World) IterateResult :=
  supported <- inW isRobustBufferAccessBehaviorFeatureSupported ;;
  if negb supported then ret STOP else rest.

Definition failed_message (name : string) : string :=
  ("Test case: " ++ name ++ " failed")%string.

(** [StorageBufferTest::verifyResults(buffer_data)]; [buffer_data] is the
    mapped memory the pointer designates. *)
Definition verifyResults (self : t) (buffer_data : list Byte.byte) : M World bool :=
  '(name, check_expected_data, expected_data) <-
    match m_test_case self with
    | VALID => ret ("valid indices", true, expected_data_valid)
    | SOURCE_INVALID =>
        let name := "invalid source indices" in
        if m_hasKhrRobustBufferAccess self then
          for_each (seq 0 4) (fun b =>
            let valid := false in
            let valid :=
              if Float32.eqb (load buffer_data b) f_0_0 then true
              else match_source (load buffer_data b) valid in
            if negb valid then log_message (failed_message name) else ret tt) ;;
          ret (name, false, [])
        else ret (name, true, expected_data_invalid_source)
    | DESTINATION_INVALID =>
        let name := "invalid destination indices" in
        if m_hasKhrRobustBufferAccess self then
          for_each (seq 0 4) (fun b =>
            let valid := false in
            let valid :=
              if Float32.eqb (load buffer_data b) (nth b m_destination_data f_0_0)
              then true
              else match_source (load buffer_data b) valid in
            if negb valid then log_message (failed_message name) else ret tt) ;;
          ret (name, false, [])
        else ret (name, true, expected_data_invalid_destination)
    | LAST => TCU_FAIL "Invalid enum"
    end ;;
  if check_expected_data : bool then
    let size := 16%nat in
    if negb (0 =? memcmp (array_bytes expected_data) buffer_data size)%Z then
      log_message (failed_message name) ;;
      ret false
    else ret true
  else ret true.

End Methods.
End StorageBufferTest.

(** ** UniformBufferTest *)

Module UniformBufferTest.

(** Modelled from the spec: the enumeration [UniformBufferTest::VERSION] is
    declared in the header, which is not among the sources; the enumerators
    are those the source names. *)
Inductive VERSION : Type :=
| VALID
| SOURCE_INVALID
| LAST.

Record t : Type := mk { m_test_case : VERSION }.

Definition VERSION_eqb (a b : VERSION) : bool :=
  match a, b with
  | VALID, VALID | SOURCE_INVALID, SOURCE_INVALID | LAST, LAST => true
  | _, _ => false
  end.

Import Float32.

Definition expected_data_valid : list GLfloat := [f_2_0; f_3_0; f_4_0; f_5_0].
Definition expected_data_invalid_source : list GLfloat :=
  [f_0_0; f_0_0; f_0_0; f_0_0].

(** The template of [getComputeShader]. *)
Definition cs : GLchar_ptr := lit (lines [
  "#version 430 core";
  "";
  "layout (local_size_x = 4, local_size_y = 1, local_size_z = 1) in;";
  "";
  "layout (binding = 0, std140) uniform Source {";
  "    float data[16];";
  "} source;";
  "";
  "layout (binding = 0, std430) buffer Destination {";
  "    float data[];";
  "} destination;";
  "";
  "void main()";
  "{";
  "    const uint index_destination = gl_LocalInvocationID.x + OFFSET;";
  "    const uint index_source      = gl_LocalInvocationID.x + OFFSET;";
  "";
  "    destination.data[index_destination] = source.data[index_source];";
  "}";
  ""]).

(** [UniformBufferTest::getComputeShader(offset)] over a template [cs]. *)
Definition getComputeShader_from {St} (cs : GLchar_ptr) (self : t)
    (offset : GLuint) : M St std_string :=
  let destination_offset := lit "0" in
  let source_offset := of_c_str (lit "0") in
  let position := 0%N in
  let source := of_c_str cs in
  let offset_stream := decimal offset in
  let source_offset :=
    if VERSION_eqb (m_test_case self) SOURCE_INVALID then offset_stream
    else source_offset in
  '(position, source) <-
    replaceToken (lit "OFFSET") position destination_offset source ;;
  '(position, source) <-
    replaceToken (lit "OFFSET") position (c_str source_offset) source ;;
  ret source.

(** [UniformBufferTest::getComputeShader(offset)]. *)
Definition getComputeShader {St} (self : t) (offset : GLuint) : M St std_string :=
  getComputeShader_from cs self offset.

Section Methods.
Context `{P : Platform}.

(** [UniformBufferTest::iterate], as far as the early return. *)
Definition iterate (rest : M (t * World) IterateResult)
  : M (t * World) IterateResult :=
  supported <- inW isRobustBufferAccessBehaviorFeatureSupported ;;
  if negb supported then ret STOP else rest.

Definition failed_message (name : string) : string :=
  ("Test case: " ++ name ++ " failed")%string.

(** [UniformBufferTest::verifyResults(buffer_data)]. *)
Definition verifyResults (self : t) (buffer_data : list Byte.byte) : M World bool :=
  let size := 16%nat in
  '(expected_data, name) <-
    match m_test_case self with
    | VALID => ret (expected_data_valid, "valid indices")
    | SOURCE_INVALID => ret (expected_data_invalid_source, "invalid source indices")
    | LAST => TCU_FAIL "Invalid enum"
    end ;;
  if negb (0 =? memcmp (array_bytes expected_data) buffer_data size)%Z then
    log_message (failed_message name) ;;
    ret false
  else ret true.

End Methods.
End UniformBufferTest.

(** ** Vocabulary of the statements *)

(** [tok] occurs in [s] at index [p]. *)
Definition occurs_at (tok s : list ascii) (p : nat) : Prop :=
  exists pre post, s = pre ++ tok ++ post /\ List.length pre = p.

(** The token of the two compute shader templates. *)
Definition OFFSET : list ascii := lit "OFFSET".

(** The text of [StorageBufferTest::getComputeShader]'s template in front of
    its first token. *)
Definition storage_cs_head : list ascii := lit (lines [
  "#version 430 core";
  "";
  "layout (local_size_x = 4, local_size_y = 1, local_size_z = 1) in;";
  "";
  "layout (binding = 1, std430) buffer Source {";
  "    float data[];";
  "} source;";
  "";
  "layout (binding = 0, std430) buffer Destination {";
  "    float data[];";
  "} destination;";
  "";
  "void main()";
  "{"]
  ++ "    const uint index_destination = gl_LocalInvocationID.x + ")%string.

(** The same for [UniformBufferTest::getComputeShader]. *)
Definition uniform_cs_head : list ascii := lit (lines [
  "#version 430 core";
  "";
  "layout (local_size_x = 4, local_size_y = 1, local_size_z = 1) in;";
  "";
  "layout (binding = 0, std140) uniform Source {";
  "    float data[16];";
  "} source;";
  "";
  "layout (binding = 0, std430) buffer Destination {";
  "    float data[];";
  "} destination;";
  "";
  "void main()";
  "{"]
  ++ "    const uint index_destination = gl_LocalInvocationID.x + ")%string.

(** The text between the two tokens, and the text after the second. *)
Definition cs_mid : list ascii := lit (lines [";"]
  ++ "    const uint index_source      = gl_LocalInvocationID.x + ")%string.

Definition cs_tail : list ascii := lit (lines [
  ";";
  "";
  "    destination.data[index_destination] = source.data[index_source];";
  "}";
  ""]).

(** The indices of [s] at which [tok] starts, in increasing order. *)
Definition occurrences (tok s : list ascii) : list nat :=
  filter (fun q => starts_with tok (skipn q s)) (seq 0 (S (List.length s))).

Section WorldVocabulary.
Context `{P : Platform}.

(** The 64 bytes of the pixel array of [VertexBufferObjectsTest::verifyResults]
    after [glGetTexImage]: what the driver stored for level 0 of the texture
    bound to [GL_TEXTURE_2D], over the zeros the array was filled with. *)
Definition texels_read_back (texture_id : GLuint) (w : World) : list GLubyte :=
  let bound := issue getError (issue (bindTexture GL_TEXTURE_2D texture_id) w) in
  overlay (drv_out_bytes
             (getTexImage GL_TEXTURE_2D 0 GL_RED_INTEGER GL_UNSIGNED_BYTE)
             (gl_state bound))
          (repeat Byte.x00 64).

(** The world with the test marked as not supported. *)
Definition marked_not_supported (w : World) : World :=
  mkWorld (gl_state w) (gl_calls w) (ctx_extensions w) (ctx_type w)
          (Some (QP_TEST_RESULT_NOT_SUPPORTED, "Not Supported")) (test_log w).

(** The condition of [isRobustBufferAccessBehaviorFeatureSupported]. *)
Definition feature_supported (w : World) : Prop :=
  In "GL_KHR_robust_buffer_access_behavior" (ctx_extensions w) \/
  In "GL_ARB_robust_buffer_access_behavior" (ctx_extensions w) \/
  contextSupports (ctx_type w) (ApiType_core 4 3) = true.

(** The world after [Shader::Release] on a shader of the given name. *)
Definition shader_released (id : GLuint) (w : World) : World :=
  if (Shader.m_invalid_id =? id)%N then w else issue (deleteShader id) w.

(** The world after the six member shaders of a program are released, in the
    order of [Program::Release]. *)
Definition shaders_released (p : Program.t) (w : World) : World :=
  shader_released (Shader.m_id (Program.m_vertex p))
    (shader_released (Shader.m_id (Program.m_tess_eval p))
      (shader_released (Shader.m_id (Program.m_tess_ctrl p))
        (shader_released (Shader.m_id (Program.m_geometry p))
          (shader_released (Shader.m_id (Program.m_fragment p))
            (shader_released (Shader.m_id (Program.m_compute p)) w))))).

(** The calls issued between two worlds are no [glDelete*] calls. *)
Definition nothing_deleted (w w' : World) : Prop :=
  filter is_delete (gl_calls w') = filter is_delete (gl_calls w).

(** What is stated of the [Release] method of a wrapper class with objects of
    type [T], where [invalid] tells that an object holds no valid name:
    - when [Release] returns, the object is invalid;
    - on an invalid object [Release] returns at once: no GL call is issued and
      the object and the world are as before;
    - the destructor, run after a [Release] that returned, is such a no-op;
    - when [Release] throws, it throws the [glu::Error] of a failed error
      check, the object is as before and nothing was deleted. *)
Definition releases {T} (Release destructor : M (T * World) unit)
    (invalid : T -> Prop) : Prop :=
  (forall self w self' w',
      Release (self, w) = Ok tt (self', w') -> invalid self') /\
  (forall self w, invalid self -> Release (self, w) = Ok tt (self, w)) /\
  (forall self w self' w',
      Release (self, w) = Ok tt (self', w') ->
      destructor (self', w') = Ok tt (self', w')) /\
  (forall self w e s,
      Release (self, w) = Throw e s ->
      (exists err msg, e = glu_Error err msg /\ err <> GL_NO_ERROR) /\
      fst s = self /\ nothing_deleted w (snd s)).

(** [Release] returns on every object, in every world. *)
Definition always_returns {T} (Release : M (T * World) unit) : Prop :=
  forall self w, exists self' w', Release (self, w) = Ok tt (self', w').

(** What is stated of a [Release] that unbinds the object before it deletes
    it, on an object whose own name is valid: it issues [unbind] and checks
    for a GL error.  When the driver reports one there, [Release] throws the
    [glu::Error] with the reported error and [msg], with the object as before
    and with the unbinding and the error query as its only calls; in every
    other case (no error reported there, or no valid name) it returns. *)
Definition checks_unbinding {T} (Release : M (T * World) unit)
    (own_name_valid : T -> Prop) (unbind : GLCall) (msg : string) : Prop :=
  forall self w,
    let err := drv_value getError (gl_state (issue unbind w)) in
    (own_name_valid self /\ err <> GL_NO_ERROR ->
     Release (self, w)
     = Throw (glu_Error err msg) (self, issue getError (issue unbind w))) /\
    (~ (own_name_valid self /\ err <> GL_NO_ERROR) ->
     exists self' w', Release (self, w) = Ok tt (self', w')).

(** Every name of a program object is invalid: its own and those of its six
    shaders. *)
Definition program_invalid (p : Program.t) : Prop :=
  Program.m_id p = Program.m_invalid_id /\
  Shader.m_id (Program.m_compute p) = Shader.m_invalid_id /\
  Shader.m_id (Program.m_fragment p) = Shader.m_invalid_id /\
  Shader.m_id (Program.m_geometry p) = Shader.m_invalid_id /\
  Shader.m_id (Program.m_tess_ctrl p) = Shader.m_invalid_id /\
  Shader.m_id (Program.m_tess_eval p) = Shader.m_invalid_id /\
  Shader.m_id (Program.m_vertex p) = Shader.m_invalid_id.

(** The calls that create a shader or attach one to a program. *)
Definition shader_call (c : GLCall) : bool :=
  match c with
  | createShader _ | attachShader _ _ => true
  | _ => false
  end.

(** The creation of the shader of a stage, when its source is not empty. *)
Definition created (stage : GLenum) (source : std_string) : list GLCall :=
  match source with
  | [] => []
  | _ :: _ => [createShader stage]
  end.

(** The attachment of a member shader, when its name is valid. *)
Definition attached (p : Program.t) (sh : Shader.t) : list GLCall :=
  if (Shader.m_invalid_id =? Shader.m_id sh)%N then []
  else [attachShader (Program.m_id p) (Shader.m_id sh)].

(** The calls that build a program: the creation of a shader, its source, its
    compilation and the query of the compile status; the creation of the
    program, the attachment of a shader, the linking and the query of the
    link status. *)
Definition build_call (c : GLCall) : bool :=
  match c with
  | createShader _ | shaderSource _ _ _ | compileShader _ | getShaderiv _ _
  | createProgram | attachShader _ _ | linkProgram _ | getProgramiv _ _ => true
  | _ => false
  end.

(** The calls that build the shader [sh] of a stage from its source, when
    the source is not empty. *)
Definition built (stage : GLenum) (source : std_string) (sh : Shader.t)
  : list GLCall :=
  match source with
  | [] => []
  | _ :: _ =>
      [createShader stage;
       shaderSource (Shader.m_id sh) 1 (c_chars (c_str source));
       compileShader (Shader.m_id sh);
       getShaderiv (Shader.m_id sh) GL_COMPILE_STATUS]
  end.

(** The calls that link the program [p]. *)
Definition linked (p : Program.t) : list GLCall :=
  [linkProgram (Program.m_id p); getProgramiv (Program.m_id p) GL_LINK_STATUS].

(** A driver on which every step of [Program::Init] succeeds: it reports no
    error, hands out valid names and reports every compilation and every link
    as successful. *)
Definition well_behaved : Prop :=
  (forall d, drv_value getError d = GL_NO_ERROR) /\
  (forall stage d, drv_value (createShader stage) d <> Shader.m_invalid_id) /\
  (forall d, drv_value createProgram d <> Program.m_invalid_id) /\
  (forall id d, drv_out_int (getShaderiv id GL_COMPILE_STATUS) d = Some GL_TRUE) /\
  (forall id d, drv_out_int (getProgramiv id GL_LINK_STATUS) d = Some GL_TRUE).

(** The driver never reports an error. *)
Definition error_free : Prop :=
  forall d : Driver, drv_value getError d = GL_NO_ERROR.

End WorldVocabulary.

(** A program object none of whose names is valid. *)
Definition program_released : Program.t :=
  Program.mk Program.m_invalid_id
    (Shader.mk Shader.m_invalid_id) (Shader.mk Shader.m_invalid_id)
    (Shader.mk Shader.m_invalid_id) (Shader.mk Shader.m_invalid_id)
    (Shader.mk Shader.m_invalid_id) (Shader.mk Shader.m_invalid_id).

(** A program object whose program name is invalid and whose vertex shader is
    alive, as [Program::Init] leaves it when the creation of the program
    fails. *)
Definition program_with_live_shader : Program.t :=
  Program.mk Program.m_invalid_id
    (Shader.mk Shader.m_invalid_id) (Shader.mk Shader.m_invalid_id)
    (Shader.mk Shader.m_invalid_id) (Shader.mk Shader.m_invalid_id)
    (Shader.mk Shader.m_invalid_id) (Shader.mk 7%N).

(** *** The results a buffer test accepts *)

(** The literal array [StorageBufferTest::verifyResults] passes to [memcmp]
    for a test case. *)
Definition storage_expected (test_case : StorageBufferTest.VERSION)
  : list Float32.GLfloat :=
  match test_case with
  | StorageBufferTest.VALID => StorageBufferTest.expected_data_valid
  | StorageBufferTest.SOURCE_INVALID =>
      StorageBufferTest.expected_data_invalid_source
  | StorageBufferTest.DESTINATION_INVALID =>
      StorageBufferTest.expected_data_invalid_destination
  | StorageBufferTest.LAST => []
  end.

(** The float equals one of the values of the source buffer. *)
Definition in_source_buffer (x : Float32.GLfloat) : bool :=
  existsb (Float32.eqb x) StorageBufferTest.m_source_data.

(** The acceptance criterion in the words of the specification: for VALID
    the array equals {2, 3, 4, 5}; for SOURCE_INVALID every element is 0.0 or
    a value of the source buffer; for DESTINATION_INVALID every element is the
    original destination value 1.0 or a value of the source buffer. *)
Definition allowed_fallback (test_case : StorageBufferTest.VERSION)
    (buffer_data : list Byte.byte) : bool :=
  match test_case with
  | StorageBufferTest.VALID =>
      forallb (fun b => Float32.eqb (Float32.load buffer_data b)
                          (nth b StorageBufferTest.expected_data_valid
                               Float32.f_0_0))
              (seq 0 4)
  | StorageBufferTest.SOURCE_INVALID =>
      forallb (fun b => Float32.eqb (Float32.load buffer_data b) Float32.f_0_0
                        || in_source_buffer (Float32.load buffer_data b))
              (seq 0 4)
  | StorageBufferTest.DESTINATION_INVALID =>
      forallb (fun b => Float32.eqb (Float32.load buffer_data b) Float32.f_1_0
                        || in_source_buffer (Float32.load buffer_data b))
              (seq 0 4)
  | StorageBufferTest.LAST => false
  end.

(** A float that is neither 0.0, nor 1.0, nor a value of the source buffer. *)
Definition f_7_0 : Float32.GLfloat := 0x40E00000%N.

(** ** Drivers for the examples *)

(** A driver that answers every error query with [err], hands out the object
    names 1, 2, 3, ..., reports every compilation and link as successful and
    reads back [image] as the contents of every texture; [core43] tells whether
    the context supports the core profile of version 4.3 (and nothing
    newer). *)
Definition scripted (image : list Byte.byte) (err : GLenum) (core43 : bool)
  : Platform :=
  {| Driver := N;
     drv_next := fun c d => if is_create c then N.succ d else d;
     drv_value := fun c d =>
       match c with
       | getError => err
       | createShader _ | createProgram => N.succ d
       | _ => 0%N
       end;
     drv_out_int := fun c d =>
       match c with
       | getShaderiv _ _ | getProgramiv _ _ => Some GL_TRUE
       | _ => None
       end;
     drv_out_bytes := fun c d =>
       match c with
       | getTexImage _ _ _ _ => image
       | _ => []
       end;
     ContextType := unit;
     contextSupports := fun _ api =>
       match api with
       | ApiType_core major minor =>
           core43 && ((major <? 4) || ((major =? 4) && (minor <=? 3)))%N
       end;
     getGLSLVersionDeclaration := fun _ => lit "#version 430 core" |}.

(** A fresh world of a scripted driver, with the given extensions. *)
Definition fresh_world (image : list Byte.byte) (err : GLenum) (core43 : bool)
    (extensions : list string) : @World (scripted image err core43) :=
  @mkWorld (scripted image err core43) 0%N [] extensions tt None [].

(** An 8 x 8 image with every texel drawn. *)
Definition image_drawn : list Byte.byte := repeat Byte.xff 64.

(** An 8 x 8 image with every texel drawn except the first, which is neither
    255 nor the clear value 128. *)
Definition image_one_hole : list Byte.byte := Byte.x07 :: repeat Byte.xff 63.

(** [GL_INVALID_OPERATION]. *)
Definition GL_INVALID_OPERATION : GLenum := 0x0502%N.

(** ** The loops over the test cases *)

Module TexelFetchIterate.

Import TexelFetchTest.

Section Methods.
Context `{P : Platform}.

(** The values of the enumerators of [TEST_CASES]; the header that declares
    the enumeration is not among the sources. *)
Variable value : TEST_CASES -> GLuint.

(** The statements of an iteration that follow the test for the skipped
    cases: they read [m_test_case], issue GL calls, write to the log and
    update the local [test_result], which is passed in and returned; a
    [continue] among them ends them. *)
Variable body : GLuint -> bool -> M World bool.

(** The loop of [TexelFetchTest::iterate],
    [for (; m_test_case < LAST; m_test_case = (TEST_CASES)((GLuint)m_test_case + 1))].
    The member [m_test_case] is [this], held by its value (the loop can leave
    it above [LAST]); [fuel] bounds the number of iterations, and [None] tells
    that it ran out. *)
Fixpoint iterate_loop (fuel : nat) (test_result : bool)
  : M (GLuint * World) (option bool) :=
  match fuel with
  | O => ret None
  | S fuel' =>
      m_test_case <- this ;;
      if (m_test_case <? value LAST)%N then
        if (value R32UI_MULTISAMPLE =? m_test_case)%N
           || (value RG8_SNORM =? m_test_case)%N
        then
          set_this (m_test_case + 1)%N ;;
          (* continue: the increment of the loop follows *)
          m_test_case <- this ;;
          set_this (m_test_case + 1)%N ;;
          iterate_loop fuel' test_result
        else
          test_result <- inW (body m_test_case test_result) ;;
          m_test_case <- this ;;
          set_this (m_test_case + 1)%N ;;
          iterate_loop fuel' test_result
      else ret (Some test_result)
  end.

(** [TexelFetchTest::iterate]. *)
Definition iterate (fuel : nat) : M (GLuint * World) (option IterateResult) :=
  supported <- inW isRobustBufferAccessBehaviorFeatureSupported ;;
  if negb supported then ret (Some STOP)
  else
    let test_result := true in
    r <- iterate_loop fuel test_result ;;
    match r with
    | None => ret None
    | Some test_result =>
        (if Bool.eqb true test_result
         then inW (setTestResult QP_TEST_RESULT_PASS "Pass")
         else inW (setTestResult QP_TEST_RESULT_FAIL "Fail")) ;;
        ret (Some STOP)
    end.

End Methods.
End TexelFetchIterate.

Module ImageLoadStoreIterate.

Import TexelFetchTest.

Section Methods.
Context `{P : Platform}.

Variable value : TEST_CASES -> GLuint.

(** The statements of an iteration that follow the test for the skipped
    case, as in [TexelFetchTest::iterate]; the local [case_result] lives
    inside them. *)
Variable body : GLuint -> bool -> M World bool.

(** The loop of [ImageLoadStoreTest::iterate]. *)
Fixpoint iterate_loop (fuel : nat) (test_result : bool)
  : M (GLuint * World) (option bool) :=
  match fuel with
  | O => ret None
  | S fuel' =>
      m_test_case <- this ;;
      if (m_test_case <? value LAST)%N then
        if (value R32UI_MULTISAMPLE =? m_test_case)%N then
          set_this (m_test_case + 1)%N ;;
          (* continue: the increment of the loop follows *)
          m_test_case <- this ;;
          set_this (m_test_case + 1)%N ;;
          iterate_loop fuel' test_result
        else
          test_result <- inW (body m_test_case test_result) ;;
          m_test_case <- this ;;
          set_this (m_test_case + 1)%N ;;
          iterate_loop fuel' test_result
      else ret (Some test_result)
  end.

(** [ImageLoadStoreTest::iterate]. *)
Definition iterate (fuel : nat) : M (GLuint * World) (option IterateResult) :=
  supported <- inW isRobustBufferAccessBehaviorFeatureSupported ;;
  if negb supported then ret (Some STOP)
  else
    let test_result := true in
    r <- iterate_loop fuel test_result ;;
    match r with
    | None => ret None
    | Some test_result =>
        (if Bool.eqb true test_result
         then inW (setTestResult QP_TEST_RESULT_PASS "Pass")
         else inW (setTestResult QP_TEST_RESULT_FAIL "Fail")) ;;
        ret (Some STOP)
    end.

End Methods.
End ImageLoadStoreIterate.

(** ** Vocabulary of the further statements *)

(** The enumerators of [TexelFetchTest::TEST_CASES] have the values of a
    declaration that lists them in the order in which the [switch] statements
    of the source do. *)
Definition declared_in_order (value : TexelFetchTest.TEST_CASES -> GLuint)
  : Prop :=
  map value [TexelFetchTest.R8; TexelFetchTest.RG8_SNORM;
             TexelFetchTest.RGBA32F; TexelFetchTest.R32UI_MIPMAP;
             TexelFetchTest.R32UI_MULTISAMPLE; TexelFetchTest.LAST]
  = [0; 1; 2; 3; 4; 5]%N.

(** The values of such a declaration. *)
Definition position (c : TexelFetchTest.TEST_CASES) : GLuint :=
  match c with
  | TexelFetchTest.R8 => 0
  | TexelFetchTest.RG8_SNORM => 1
  | TexelFetchTest.RGBA32F => 2
  | TexelFetchTest.R32UI_MIPMAP => 3
  | TexelFetchTest.R32UI_MULTISAMPLE => 4
  | TexelFetchTest.LAST => 5
  end%N.

(** *** The shaders *)

(** The text of [TexelFetchTest::getFragmentShader]'s template between its
    tokens. *)
Definition fs_after_version : list ascii := lit (lines [
  "";
  "                      in  lowp vec2      gs_fs_tex_coord;"]
  ++ "layout (location = 0) out lowp ")%string.

Definition fs_after_type : list ascii := lit (lines [
  "      out_fs_color;"]
  ++ "layout (location = 0) uniform lowp ")%string.

Definition fs_after_sampler : list ascii := lit (lines [
  " uni_texture;";
  "";
  "void main()";
  "{"]).

Definition fs_after_plane : list ascii := lit (nl
  ++ "    ivec2 point  = ivec2(gs_fs_tex_coord * 16.0) + ivec2(")%string.

Definition fs_after_offset : list ascii := lit (lines [
  ");";
  "    out_fs_color = texelFetch(uni_texture, point, plane);";
  "}";
  ""]).

(** The fragment shader of the texel fetch test: the template with the
    version declaration, the type of the colour, the sampler type, the
    declaration of the plane and the offset filled in. *)
Definition fragment_shader (version type sampler plane offset : list ascii)
  : list ascii :=
  version ++ fs_after_version ++ type ++ fs_after_type ++ sampler
  ++ fs_after_sampler ++ plane ++ fs_after_plane ++ offset ++ fs_after_offset.

(** The text of [ImageLoadStoreTest::getComputeShader]'s template between its
    tokens. *)
Definition image_cs_head : list ascii := lit (lines [
  "#version 430 core";
  "";
  "layout (local_size_x = 1, local_size_y = 1, local_size_z = 1) in;";
  ""]
  ++ "layout (location = 1) writeonly uniform ")%string.

Definition image_cs_after_image : list ascii := lit (lines [
  " uni_destination_image;"]
  ++ "layout (location = 0, ")%string.

Definition image_cs_after_format : list ascii := lit ") readonly  uniform ".

Definition image_cs_main : list ascii := lit (lines [
  " uni_source_image;";
  "";
  "void main()";
  "{"]
  ++ "    const ivec2 point_destination = ivec2(gl_WorkGroupID.xy) + ivec2(")%string.

Definition image_cs_after_destination : list ascii := lit (lines [
  ");"]
  ++ "    const ivec2 point_source      = ivec2(gl_WorkGroupID.xy) + ivec2(")%string.

Definition image_cs_after_source : list ascii := lit (lines [");"; ""]).

Definition image_cs_end : list ascii := lit (lines ["}"; ""]).

(** The compute shader of the image test: the template with the image type,
    the format, the two coordinate offsets and the copy statements filled
    in. *)
Definition image_shader (image format destination_offset source_offset
    copy : list ascii) : list ascii :=
  image_cs_head ++ image ++ image_cs_after_image ++ format
  ++ image_cs_after_format ++ image ++ image_cs_main ++ destination_offset
  ++ image_cs_after_destination ++ source_offset ++ image_cs_after_source
  ++ copy ++ image_cs_end.

(** The text of the copy statements around their first token. *)
Definition copy_const : list ascii := lit "    const ".

Definition copy_texel_tail : list ascii := lit (lines [
  " color = imageLoad(uni_source_image, point_source);";
  "    imageStore(uni_destination_image, point_destination, color);"]).

(** The copy statements of a single-sampled image. *)
Definition copy_texel (type : list ascii) : list ascii :=
  copy_const ++ type ++ copy_texel_tail.

(** The load and the store of sample [k] of a multisampled image. *)
Definition load_sample (k : string) (type offset : list ascii) : list ascii :=
  copy_const ++ type
  ++ lit (" color_" ++ k ++ " = imageLoad(uni_source_image, point_source, "
          ++ k ++ " + ")%string
  ++ offset ++ lit (lines [");"]).

Definition store_sample (k : string) (offset : list ascii) : list ascii :=
  lit ("    imageStore(uni_destination_image, point_destination, "
       ++ k ++ " + ")%string
  ++ offset ++ lit (lines [", color_" ++ k ++ ");"])%string.

(** The copy statements of a multisampled image. *)
Definition copy_samples (type source_offset destination_offset : list ascii)
  : list ascii :=
  load_sample "0" type source_offset ++ load_sample "1" type source_offset
  ++ load_sample "2" type source_offset ++ load_sample "3" type source_offset
  ++ store_sample "0" destination_offset ++ store_sample "1" destination_offset
  ++ store_sample "2" destination_offset ++ store_sample "3" destination_offset.

(** *** Worlds *)

Section FurtherVocabulary.
Context `{P : Platform}.

(** The world with the verdict of [iterate]. *)
Definition with_verdict (test_result : bool) (w : World) : World :=
  mkWorld (gl_state w) (gl_calls w) (ctx_extensions w) (ctx_type w)
          (Some (if test_result then (QP_TEST_RESULT_PASS, "Pass")
                 else (QP_TEST_RESULT_FAIL, "Fail")))
          (test_log w).

(** The world after a call and the error query that follows it. *)
Definition checked (c : GLCall) (w : World) : World :=
  issue getError (issue c w).

(** The error query that follows the call reports no error. *)
Definition succeeds (c : GLCall) (w : World) : Prop :=
  drv_value getError (gl_state (issue c w)) = GL_NO_ERROR.

(** The calls issued between two worlds. *)
Definition issued (w w' : World) (calls : list GLCall) : Prop :=
  gl_calls w' = gl_calls w ++ calls.

(** Nothing but the driver state and the record of calls differs between two
    worlds. *)
Definition same_test_state (w w' : World) : Prop :=
  ctx_extensions w' = ctx_extensions w /\ ctx_type w' = ctx_type w /\
  test_result w' = test_result w /\ test_log w' = test_log w.

(** Nothing but the log differs between two worlds, and the log has grown by
    the given lines. *)
Definition logged (w w' : World) (lines : list string) : Prop :=
  gl_state w' = gl_state w /\ gl_calls w' = gl_calls w /\
  ctx_extensions w' = ctx_extensions w /\ ctx_type w' = ctx_type w /\
  test_result w' = test_result w /\ test_log w' = test_log w ++ lines.

(** The info log that [Shader::Compile] and [Program::Link] read with the
    given query in a buffer of [length] characters: what the driver stores,
    up to the first NUL. *)
Definition info_log (query : GLCall) (length : GLint) (w : World) : string :=
  string_of_list_ascii
    (c_chars (ascii_of_byte_list
       (overlay (drv_out_bytes query (gl_state w))
                (byte_of_ascii_list (repeat NUL (Z.to_nat length)))))).

(** The value a query leaves in a [GLint] that held [old]. *)
Definition queried (query : GLCall) (old : GLint) (w : World) : GLint :=
  match drv_out_int query (gl_state w) with
  | Some v => v
  | None => old
  end.

End FurtherVocabulary.

(** The calls of [VertexBufferObjectsTest::verifyResults], in order. *)
Definition verifyResults_calls (texture_id : GLuint) : list GLCall :=
  [bindTexture GL_TEXTURE_2D texture_id; getError;
   getTexImage GL_TEXTURE_2D 0 GL_RED_INTEGER GL_UNSIGNED_BYTE; getError;
   bindTexture GL_TEXTURE_2D 0; getError].

(** The deletion of the shader of a stage, when its source is not empty. *)
Definition deleted (source : std_string) (sh : Shader.t) : list GLCall :=
  match source with
  | [] => []
  | _ :: _ => [deleteShader (Shader.m_id sh)]
  end.

(** The line [StorageBufferTest::verifyResults] logs for a test case. *)
Definition storage_failed_line (test_case : StorageBufferTest.VERSION) : string :=
  match test_case with
  | StorageBufferTest.VALID => "Test case: valid indices failed"
  | StorageBufferTest.SOURCE_INVALID => "Test case: invalid source indices failed"
  | _ => "Test case: invalid destination indices failed"
  end.

(** The element of the read-back array is none of the values the KHR path
    allows for the test case. *)
Definition rejected (test_case : StorageBufferTest.VERSION)
    (buffer_data : list Byte.byte) (b : nat) : bool :=
  negb (Float32.eqb (Float32.load buffer_data b)
          match test_case with
          | StorageBufferTest.SOURCE_INVALID => Float32.f_0_0
          | _ => Float32.f_1_0
          end
        || in_source_buffer (Float32.load buffer_data b)).

(** *** Drivers for the further examples *)

(** A driver like [scripted] that reports every compilation and link as
    failed, with [log] as the info log. *)
Definition rejecting (log : list Byte.byte) : Platform :=
  {| Driver := N;
     drv_next := fun c d => if is_create c then N.succ d else d;
     drv_value := fun c d =>
       match c with
       | createShader _ | createProgram => N.succ d
       | _ => 0%N
       end;
     drv_out_int := fun c d =>
       match c with
       | getShaderiv _ pname | getProgramiv _ pname =>
           if (pname =? GL_INFO_LOG_LENGTH)%N
           then Some (Z.of_nat (List.length log))
           else Some GL_FALSE
       | _ => None
       end;
     drv_out_bytes := fun c d =>
       match c with
       | getShaderInfoLog _ _ | getProgramInfoLog _ _ => log
       | _ => []
       end;
     ContextType := unit;
     contextSupports := fun _ _ => true;
     getGLSLVersionDeclaration := fun _ => lit "#version 430 core" |}.

(** The info log of a compiler that rejects every shader. *)
Definition syntax_error : list Byte.byte :=
  byte_of_ascii_list (lit "0:1: syntax error").

(** A statement for the loops over the test cases: it logs the value of
    [m_test_case] and leaves [test_result] as it is. *)
Definition log_case `{P : Platform} (m_test_case : GLuint) (test_result : bool)
  : M World bool :=
  log_message (string_of_list_ascii (decimal m_test_case)) ;;
  ret test_result.


(** ** The verification routines of the texel fetch test *)

(** Modelled from the spec: further enumerators of glwEnums.hpp, with the
    values the OpenGL specification fixes; they are only passed to the
    driver. *)
Definition GL_RED : GLenum := 0x1903%N.
Definition GL_RG : GLenum := 0x8227%N.
Definition GL_BYTE : GLenum := 0x1400%N.
Definition GL_UNSIGNED_INT : GLenum := 0x1405%N.

Module TexelFetchVerify.

Import TexelFetchTest.

Definition height : nat := 16.
Definition width : nat := 16.
Definition n_pixels : nat := height * width.

(** [static_cast<GLubyte>(n)] for an unsigned [n]; a [GLbyte] is held by the
    same bit pattern. *)
Definition GLubyte_of (n : N) : GLubyte := Float32.byte_of n.

(** A [GLuint] in memory: four bytes, least significant first (the values read
    back are those the driver stored in the same order). *)
Definition GLuint_bytes (n : GLuint) : list Byte.byte := Float32.to_bytes n.

(** [p[i]] for a [GLuint* p] into memory [mem]. *)
Definition GLuint_load (mem : list Byte.byte) (i : nat) : GLuint :=
  Float32.load mem i.

(** The value of a [GLbyte], as the conversion to [GLint] gives it. *)
Definition GLbyte_value (b : Byte.byte) : GLint :=
  let n := Z.of_N (Byte.to_N b) in
  if (n <? 128)%Z then n else (n - 256)%Z.

(** [stream << n] for a signed [n]. *)
Definition decimal_int (n : GLint) : std_string :=
  if (n <? 0)%Z then lit "-" ++ decimal (Z.to_N (- n))
  else decimal (Z.to_N n).

(** The message of a mismatch in a one-channel image. *)
Definition invalid_value (drawn expected : GLuint) (i : nat) : string :=
  string_of_list_ascii
    (lit "Invalid value: " ++ decimal drawn
     ++ lit ". Expected value: " ++ decimal expected
     ++ lit " at offset: " ++ decimal (N.of_nat i)).

(** The message of a mismatch in a two-channel image. *)
Definition invalid_values (drawn_red drawn_green expected_red expected_green
    : GLint) (i : nat) : string :=
  string_of_list_ascii
    (lit "Invalid value: " ++ decimal_int drawn_red
     ++ lit ", " ++ decimal_int drawn_green
     ++ lit ". Expected value: " ++ decimal_int expected_red
     ++ lit ", " ++ decimal_int expected_green
     ++ lit ". At offset: " ++ decimal (N.of_nat i)).

Definition differ (a b : Byte.byte) : bool :=
  negb (Byte.to_N a =? Byte.to_N b)%N.

Section Methods.
Context `{P : Platform}.

(** The verification loops,
    [for (GLuint i = 0; i < n_pixels; ++i)
       if (expected != drawn) { log; result = false; break; }],
    from index [i] for [n] iterations; [mismatch] gives the message of a
    texel that is not as expected. *)
Fixpoint verify_loop (mismatch : nat -> option string) (i n : nat)
  : M World bool :=
  match n with
  | O => ret true
  | S n' =>
      match mismatch i with
      | Some message => log_message message ;; ret false
      | None => verify_loop mismatch (S i) n'
      end
  end.

(** The branches for RGBA32F, which compares floats (within a tolerance in
    [verifyInvalidResults]) and prints them, and for R32UI_MULTISAMPLE, which
    resolves the samples with a compute shader: both are outside what is
    embedded here. *)
Variable rgba32f multisample : GLuint -> M World bool.

(** The one-channel byte image. *)
Definition check_R8 (texture_id : GLuint) (expected : nat -> GLubyte)
  : M World bool :=
  let pixels := map (fun i => GLubyte_of (N.of_nat i)) (seq 0 n_pixels) in
  Texture.Bind texture_id GL_TEXTURE_2D ;;
  pixels <- Texture.GetData 0%Z GL_TEXTURE_2D GL_RED GL_UNSIGNED_BYTE pixels ;;
  Texture.Bind 0%N GL_TEXTURE_2D ;;
  verify_loop
    (fun i =>
       let expected_red := expected i in
       let drawn_red := nth i pixels Byte.x00 in
       if differ expected_red drawn_red
       then Some (invalid_value (Byte.to_N drawn_red) (Byte.to_N expected_red) i)
       else None)
    0 n_pixels.

(** The two-channel signed byte image. *)
Definition check_RG8_SNORM (texture_id : GLuint)
    (expected : nat -> GLubyte * GLubyte) : M World bool :=
  let n_channels := 2%nat in
  let pixels :=
    flat_map (fun i => [GLubyte_of (N.of_nat i); GLubyte_of (N.of_nat i)])
             (seq 0 n_pixels) in
  Texture.Bind texture_id GL_TEXTURE_2D ;;
  pixels <- Texture.GetData 0%Z GL_TEXTURE_2D GL_RG GL_BYTE pixels ;;
  Texture.Bind 0%N GL_TEXTURE_2D ;;
  verify_loop
    (fun i =>
       let '(expected_red, expected_green) := expected i in
       let drawn_red := nth (i * n_channels + 0) pixels Byte.x00 in
       let drawn_green := nth (i * n_channels + 1) pixels Byte.x00 in
       if differ expected_red drawn_red || differ expected_green drawn_green
       then Some (invalid_values (GLbyte_value drawn_red)
                    (GLbyte_value drawn_green) (GLbyte_value expected_red)
                    (GLbyte_value expected_green) i)
       else None)
    0 n_pixels.

(** Level 1 of the unsigned integer image; [pixels] is the array as the
    source fills it. *)
Definition check_R32UI_MIPMAP (texture_id : GLuint) (pixels : list Byte.byte)
    (expected : nat -> GLuint) : M World bool :=
  Texture.Bind texture_id GL_TEXTURE_2D ;;
  pixels <-
    Texture.GetData 1%Z GL_TEXTURE_2D GL_RED_INTEGER GL_UNSIGNED_INT pixels ;;
  Texture.Bind 0%N GL_TEXTURE_2D ;;
  verify_loop
    (fun i =>
       let expected_red := expected i in
       let drawn_red := GLuint_load pixels i in
       if negb (expected_red =? drawn_red)%N
       then Some (invalid_value drawn_red expected_red i)
       else None)
    0 n_pixels.

(** [TexelFetchTest::verifyInvalidResults(texture_id)]. *)
Definition verifyInvalidResults (self : t) (texture_id : GLuint) : M World bool :=
  if TEST_CASES_eqb R8 (m_test_case self) then
    check_R8 texture_id (fun _ => Byte.x00)
  else if TEST_CASES_eqb RG8_SNORM (m_test_case self) then
    check_RG8_SNORM texture_id (fun _ => (Byte.x00, Byte.x00))
  else if TEST_CASES_eqb RGBA32F (m_test_case self) then
    rgba32f texture_id
  else if TEST_CASES_eqb R32UI_MIPMAP (m_test_case self) then
    check_R32UI_MIPMAP texture_id
      (flat_map (fun i => GLuint_bytes (N.of_nat i)) (seq 0 n_pixels))
      (fun _ => 0%N)
  else if TEST_CASES_eqb R32UI_MULTISAMPLE (m_test_case self) then
    multisample texture_id
  else ret true.

(** [TexelFetchTest::verifyValidResults(texture_id)]. *)
Definition verifyValidResults (self : t) (texture_id : GLuint) : M World bool :=
  if TEST_CASES_eqb R8 (m_test_case self) then
    check_R8 texture_id (fun i => GLubyte_of (N.of_nat i))
  else if TEST_CASES_eqb RG8_SNORM (m_test_case self) then
    check_RG8_SNORM texture_id
      (fun i => (GLubyte_of ((N.of_nat i mod 16 + 2 ^ 32 - 8) mod 2 ^ 32),
                 GLubyte_of ((N.of_nat i / 16 + 2 ^ 32 - 8) mod 2 ^ 32)))
  else if TEST_CASES_eqb RGBA32F (m_test_case self) then
    rgba32f texture_id
  else if TEST_CASES_eqb R32UI_MIPMAP (m_test_case self) then
    check_R32UI_MIPMAP texture_id
      (repeat Byte.x00 (4 * (n_pixels * 4)))
      (fun i => N.of_nat i)
  else if TEST_CASES_eqb R32UI_MULTISAMPLE (m_test_case self) then
    multisample texture_id
  else ret true.

End Methods.
End TexelFetchVerify.


Section ReadBack.
Context `{P : Platform}.

(** The pixel array of a verification routine after [glGetTexImage]: what the
    driver stores for the texture bound to [GL_TEXTURE_2D], over the values
    the array was filled with. *)
Definition read_back (texture_id : GLuint) (level : GLint)
    (format type : GLenum) (pixels : list Byte.byte) (w : World)
  : list Byte.byte :=
  overlay (drv_out_bytes (getTexImage GL_TEXTURE_2D level format type)
             (gl_state (checked (bindTexture GL_TEXTURE_2D texture_id) w)))
          pixels.

End ReadBack.

(** The calls of one read-back, in order. *)
Definition read_back_calls (texture_id : GLuint) (level : GLint)
    (format type : GLenum) : list GLCall :=
  [bindTexture GL_TEXTURE_2D texture_id; getError;
   getTexImage GL_TEXTURE_2D level format type; getError;
   bindTexture GL_TEXTURE_2D 0; getError].


(** The array the two routines pass to [glGetTexImage] for R8: the bytes 0,
    1, ..., 255. *)
Definition ramp : list Byte.byte :=
  map (fun i => TexelFetchVerify.GLubyte_of (N.of_nat i)) (seq 0 256).

(** The array of the two routines for RG8_SNORM: each byte of [ramp] twice. *)
Definition ramp2 : list Byte.byte :=
  flat_map (fun i => [TexelFetchVerify.GLubyte_of (N.of_nat i);
                      TexelFetchVerify.GLubyte_of (N.of_nat i)]) (seq 0 256).

(** The array of [verifyInvalidResults] for R32UI_MIPMAP: the integers 0, 1,
    ..., 255. *)
Definition ramp_uint : list Byte.byte :=
  flat_map (fun i => TexelFetchVerify.GLuint_bytes (N.of_nat i)) (seq 0 256).


(** * Properties *)

Unset Implicit Arguments.

(** ** Proof steps *)

(** Case analysis on the next error check of the goal. *)
Ltac check_error :=
  match goal with
  | |- context [(?x =? GL_NO_ERROR)%N] => destruct (N.eqb_spec x GL_NO_ERROR)
  end.

(** The cases of a [Release] that consists of one test and one deletion;
    [proj] is the accessor of the name. *)
Ltac simple_release proj :=
  repeat match goal with
         | H : context [(?a =? ?b)%N] |- _ => destruct (N.eqb_spec a b)
         | |- context [(?a =? ?b)%N] => destruct (N.eqb_spec a b)
         | H : Ok _ _ = Ok _ _ |- _ => injection H as <- <-
         end;
  cbn [proj] in *; try congruence; try discriminate; eauto.

(** ** Searching and replacing in strings *)

Section StringFacts.

Lemma starts_with_app (tok post : list ascii) :
  starts_with tok (tok ++ post) = true.
Proof.
  induction tok as [|a tok IH]; simpl; [reflexivity|].
  now rewrite Ascii.eqb_refl, IH.
Qed.

Lemma starts_with_split (tok s : list ascii) :
  starts_with tok s = true -> exists post, s = tok ++ post.
Proof.
  revert s; induction tok as [|a tok IH]; intros s H.
  - now exists s.
  - destruct s as [|b s]; simpl in H; [discriminate|].
    apply andb_true_iff in H as [Hab Hrest].
    apply Ascii.eqb_eq in Hab; subst b.
    destruct (IH _ Hrest) as [post ->].
    now exists post.
Qed.

Lemma occurs_at_starts_with (tok s : list ascii) (p : nat) :
  occurs_at tok s p <->
  (p <= List.length s)%nat /\ starts_with tok (skipn p s) = true.
Proof.
  split.
  - intros (pre & post & -> & <-). split.
    + rewrite length_app. lia.
    + rewrite skipn_app, skipn_all, Nat.sub_diag. simpl.
      apply starts_with_app.
  - intros [Hle Hsw].
    destruct (starts_with_split _ _ Hsw) as [post Hpost].
    exists (firstn p s), post. split.
    + rewrite <- Hpost. symmetry. apply firstn_skipn.
    + apply firstn_length_le. exact Hle.
Qed.

(** [scan] returns the least offset at which the token starts. *)
Lemma scan_some (tok s : list ascii) (i p : nat) :
  scan tok s i = Some p ->
  exists k, p = (i + k)%nat /\ (k <= List.length s)%nat /\
            starts_with tok (skipn k s) = true /\
            forall j, (j < k)%nat -> starts_with tok (skipn j s) = false.
Proof.
  revert i; induction s as [|c s IH]; intros i; simpl.
  - destruct (starts_with tok []) eqn:E; [|discriminate].
    intros [= <-]. exists 0%nat. simpl. repeat split; auto with arith. lia.
  - destruct (starts_with tok (c :: s)) eqn:E.
    + intros [= <-]. exists 0%nat. simpl. repeat split; auto with arith. lia.
    + intros H. destruct (IH _ H) as (k & -> & Hk & Hsw & Hleast).
      exists (S k). simpl. repeat split; try lia; auto.
      intros [|j] Hj; simpl; [exact E|]. apply Hleast. lia.
Qed.

Lemma scan_none (tok s : list ascii) (i : nat) :
  scan tok s i = None ->
  forall j, (j <= List.length s)%nat -> starts_with tok (skipn j s) = false.
Proof.
  revert i; induction s as [|c s IH]; intros i; simpl.
  - destruct (starts_with tok []) eqn:E; [discriminate|].
    intros _ j Hj. assert (j = 0)%nat as -> by lia. exact E.
  - destruct (starts_with tok (c :: s)) eqn:E; [discriminate|].
    intros H [|j] Hj; simpl; [exact E|]. apply (IH _ H). lia.
Qed.

Lemma skipn_skipn_add {A} (a b : nat) (l : list A) :
  skipn a (skipn b l) = skipn (b + a) l.
Proof.
  revert l; induction b as [|b IH]; intros l; simpl; [reflexivity|].
  destruct l; [now rewrite skipn_nil|apply IH].
Qed.

(** What [find] returns when the token occurs at or after [pos]. *)
Lemma find_first (str : std_string) (tok : GLchar_ptr) (pos : size_t) :
  (exists p, (N.to_nat pos <= p)%nat /\ occurs_at (c_chars tok) str p) ->
  exists p, find str tok pos = N.of_nat p /\
            (N.to_nat pos <= p)%nat /\
            occurs_at (c_chars tok) str p /\
            forall q, (N.to_nat pos <= q < p)%nat ->
                      ~ occurs_at (c_chars tok) str q.
Proof.
  intros (p0 & Hp0 & Hocc0).
  apply occurs_at_starts_with in Hocc0 as [Hle0 Hsw0].
  unfold find, size.
  destruct (N.ltb_spec (N.of_nat (List.length str)) pos) as [Hlt|Hge]; [lia|].
  set (n := N.to_nat pos) in *.
  destruct (scan (c_chars tok) (skipn n str) n) as [p|] eqn:Hscan.
  - apply scan_some in Hscan as (k & -> & Hk & Hsw & Hleast).
    rewrite length_skipn in Hk. rewrite skipn_skipn_add in Hsw.
    exists (n + k)%nat. repeat split; try lia.
    + apply occurs_at_starts_with. split; [lia|exact Hsw].
    + intros q Hq Hocc. apply occurs_at_starts_with in Hocc as [_ Hq'].
      specialize (Hleast (q - n)%nat ltac:(lia)).
      rewrite skipn_skipn_add in Hleast.
      replace (n + (q - n))%nat with q in Hleast by lia. congruence.
  - pose proof (scan_none _ _ _ Hscan (p0 - n)%nat) as Hnone.
    rewrite length_skipn, skipn_skipn_add in Hnone.
    replace (n + (p0 - n))%nat with p0 in Hnone by lia.
    rewrite Hnone in Hsw0 by lia. discriminate.
Qed.

(** What [find] returns when the token does not occur at or after [pos]. *)
Lemma find_npos (str : std_string) (tok : GLchar_ptr) (pos : size_t) :
  (forall p, (N.to_nat pos <= p)%nat -> ~ occurs_at (c_chars tok) str p) ->
  find str tok pos = npos.
Proof.
  intros Hnone. unfold find, size.
  destruct (N.ltb_spec (N.of_nat (List.length str)) pos) as [Hlt|Hge]; [reflexivity|].
  set (n := N.to_nat pos) in *.
  destruct (scan (c_chars tok) (skipn n str) n) as [p|] eqn:Hscan; [|reflexivity].
  apply scan_some in Hscan as (k & -> & Hk & Hsw & _).
  rewrite length_skipn in Hk. rewrite skipn_skipn_add in Hsw.
  exfalso. apply (Hnone (n + k)%nat); [lia|].
  apply occurs_at_starts_with. split; [lia|exact Hsw].
Qed.

Lemma strlen_c_chars (p : GLchar_ptr) : List.length (c_chars p) = strlen_nat p.
Proof.
  unfold c_chars. apply firstn_length_le.
  induction p as [|c p IH]; simpl; [lia|].
  destruct (Ascii.eqb c NUL); simpl; lia.
Qed.

Lemma firstn_strlen (p : GLchar_ptr) :
  firstn (N.to_nat (strlen p)) p = c_chars p.
Proof. unfold strlen. now rewrite Nat2N.id. Qed.

(** [replace] at an occurrence of the token. *)
Lemma replace_at_occurrence {St} (pre post : list ascii) (token text : GLchar_ptr)
    (st : St) :
  replace (pre ++ c_chars token ++ post) (N.of_nat (List.length pre))
          (strlen token) text (strlen text) st
  = Ok (pre ++ c_chars text ++ post) st.
Proof.
  unfold replace, size.
  destruct (N.ltb_spec (N.of_nat (List.length (pre ++ c_chars token ++ post)))
                       (N.of_nat (List.length pre))) as [Hlt|Hge].
  - rewrite length_app in Hlt. lia.
  - unfold ret. f_equal.
    rewrite Nat2N.id, firstn_app, firstn_all, Nat.sub_diag. simpl.
    rewrite app_nil_r, firstn_strlen. f_equal. f_equal.
    rewrite !length_app, strlen_c_chars. unfold strlen.
    replace (N.to_nat _) with (List.length pre + strlen_nat token)%nat by lia.
    rewrite skipn_app, skipn_all2 by lia. simpl.
    replace (_ - _)%nat with (strlen_nat token) by lia.
    rewrite skipn_app, <- (strlen_c_chars token), skipn_all, Nat.sub_diag.
    reflexivity.
Qed.

End StringFacts.

(** ** [replaceToken] *)

Section ReplaceToken.

Variable St : Type.
Variable st : St.

Lemma replaceToken_at_occurrence (pre post : list ascii) (token text : GLchar_ptr)
    (search_position : size_t) :
  find (pre ++ c_chars token ++ post) token search_position
    = N.of_nat (List.length pre) ->
  (N.of_nat (List.length pre) + strlen text < SIZE_MODULUS)%N ->
  replaceToken token search_position text (pre ++ c_chars token ++ post) st
  = Ok ((N.of_nat (List.length pre) + strlen text)%N,
        pre ++ c_chars text ++ post) st.
Proof.
  intros Hfind Hfit. unfold replaceToken, bind.
  rewrite Hfind, replace_at_occurrence. unfold ret.
  now rewrite N.mod_small.
Qed.

(** C2.  When the token occurs in the subject at or after the search position,
    [replaceToken] returns normally; the subject splits as
    [pre ++ token ++ post] at the first such occurrence, the new subject is
    [pre ++ text ++ post] (nothing outside the token changes), and the new
    search position is the index just past the inserted text, the position of
    the token plus the length of the text.  The sizes are those of objects of
    one 64-bit address space: the sum of the two lengths is below [2^64]. *)
Theorem replaceToken_replaces_first_occurrence
    (token text : GLchar_ptr) (string : std_string) (search_position : size_t) :
  (exists p, (N.to_nat search_position <= p)%nat /\
             occurs_at (c_chars token) string p) ->
  (size string + strlen text < SIZE_MODULUS)%N ->
  exists pre post,
    string = pre ++ c_chars token ++ post /\
    (N.to_nat search_position <= List.length pre)%nat /\
    (forall q, (N.to_nat search_position <= q < List.length pre)%nat ->
               ~ occurs_at (c_chars token) string q) /\
    replaceToken token search_position text string st
    = Ok ((N.of_nat (List.length pre) + strlen text)%N,
          pre ++ c_chars text ++ post) st.
Proof.
  intros Hocc Hfit.
  destruct (find_first string token search_position Hocc)
    as (p & Hfind & Hge & (pre & post & Hsplit & Hlen) & Hleast).
  exists pre, post. subst p.
  repeat split; auto.
  subst string. apply replaceToken_at_occurrence; [exact Hfind|].
  unfold size in Hfit. rewrite length_app in Hfit. lia.
Qed.

(** Without an occurrence of the token at or after the search position,
    [find] returns [npos] and [replace] throws. *)
Lemma replaceToken_out_of_range
    (token text : GLchar_ptr) (string : std_string) (search_position : size_t) :
  (size string < npos)%N ->
  (forall p, (N.to_nat search_position <= p)%nat ->
             ~ occurs_at (c_chars token) string p) ->
  find string token search_position = npos /\
  replaceToken token search_position text string st = Throw std_out_of_range st.
Proof.
  intros Hsize Hnone.
  pose proof (find_npos string token search_position Hnone) as Hfind.
  split; [exact Hfind|].
  unfold replaceToken, bind, replace. rewrite Hfind.
  destruct (N.ltb_spec (size string) npos) as [_|Hge]; [reflexivity|lia].
Qed.

End ReplaceToken.

(** ** Decimal digits *)

Section Digits.

Lemma nb_digits_double (d : Decimal.uint) :
  (Decimal.nb_digits (Decimal.Little.double d) <= S (Decimal.nb_digits d))%nat /\
  (Decimal.nb_digits (Decimal.Little.succ_double d) <= S (Decimal.nb_digits d))%nat.
Proof.
  induction d as [|d [IH1 IH2]|d [IH1 IH2]|d [IH1 IH2]|d [IH1 IH2]|d [IH1 IH2]
                  |d [IH1 IH2]|d [IH1 IH2]|d [IH1 IH2]|d [IH1 IH2]|d [IH1 IH2]];
    simpl; split; lia.
Qed.

Lemma to_little_uint_digits (p : positive) :
  forall k : nat, (N.pos p < 2 ^ N.of_nat k)%N ->
                  (Decimal.nb_digits (Pos.to_little_uint p) <= k)%nat.
Proof.
  induction p as [p IH|p IH|]; intros [|k] H;
    try (change (2 ^ N.of_nat 0)%N with 1%N in H; lia);
    rewrite Nat2N.inj_succ, N.pow_succ_r' in H; simpl.
  - pose proof (proj2 (nb_digits_double (Pos.to_little_uint p))).
    specialize (IH k ltac:(lia)). lia.
  - pose proof (proj1 (nb_digits_double (Pos.to_little_uint p))).
    specialize (IH k ltac:(lia)). lia.
  - lia.
Qed.

Lemma length_string_of_uint (d : Decimal.uint) :
  String.length (NilEmpty.string_of_uint d) = Decimal.nb_digits d.
Proof. induction d; simpl; congruence. Qed.

Lemma length_list_ascii_of_string (s : string) :
  List.length (list_ascii_of_string s) = String.length s.
Proof. induction s; simpl; congruence. Qed.

(** A [GLuint] prints in at most 32 characters (a coarse bound: one per bit). *)
Lemma decimal_length (n : GLuint) :
  (n < 2 ^ 32)%N -> (List.length (decimal n) <= 32)%nat.
Proof.
  intros H. unfold decimal. rewrite length_list_ascii_of_string.
  destruct n as [|p]; [simpl; lia|].
  unfold NilZero.string_of_uint. simpl N.to_uint.
  destruct (Pos.to_uint p) eqn:E; rewrite <- ?E; [simpl; lia| ..];
    rewrite length_string_of_uint; unfold Pos.to_uint;
    rewrite DecimalFacts.nb_digits_rev;
    apply (to_little_uint_digits p 32); exact H.
Qed.

Lemma string_of_uint_no_NUL (d : Decimal.uint) :
  ~ In NUL (list_ascii_of_string (NilEmpty.string_of_uint d)).
Proof.
  induction d; simpl; [tauto| ..]; intros [H|H]; try discriminate; tauto.
Qed.

Lemma c_chars_no_NUL (p : GLchar_ptr) : ~ In NUL p -> c_chars p = p.
Proof.
  unfold c_chars. induction p as [|c p IH]; simpl; intros H; [reflexivity|].
  destruct (Ascii.eqb_spec c NUL) as [->|_]; [tauto|].
  simpl. f_equal. apply IH. tauto.
Qed.

(** The digits hold no NUL: [str().c_str()] is read in full. *)
Lemma c_chars_decimal (n : GLuint) : c_chars (c_str (decimal n)) = decimal n.
Proof.
  apply c_chars_no_NUL. unfold decimal, NilZero.string_of_uint.
  destruct (N.to_uint n) eqn:E; rewrite <- ?E;
    try apply string_of_uint_no_NUL.
  simpl. intros [H|[]]. discriminate.
Qed.

End Digits.

(** ** Two tokens in a row *)

Section TwoTokens.

Lemma scan_shift (tok s : list ascii) (i : nat) :
  scan tok s i = option_map (Nat.add i) (scan tok s 0).
Proof.
  revert i; induction s as [|c s IH]; intros i; simpl.
  - destruct (starts_with tok []); simpl; [now rewrite Nat.add_0_r|reflexivity].
  - destruct (starts_with tok (c :: s)); simpl; [now rewrite Nat.add_0_r|].
    rewrite (IH (S i)), (IH 1%nat).
    destruct (scan tok s 0); simpl; [f_equal; lia|reflexivity].
Qed.

Lemma find_from_start (s : std_string) (tok : GLchar_ptr) (k : nat) :
  scan (c_chars tok) s 0 = Some k -> find s tok 0%N = N.of_nat k.
Proof.
  intros H. unfold find.
  rewrite (proj2 (N.ltb_ge (size s) 0)) by apply N.le_0_l.
  change (N.to_nat 0) with 0%nat. rewrite skipn_O. now rewrite H.
Qed.

Lemma find_after_prefix (pre s : std_string) (tok : GLchar_ptr) (k : nat) :
  scan (c_chars tok) s 0 = Some k ->
  find (pre ++ s) tok (N.of_nat (List.length pre))
  = N.of_nat (List.length pre + k).
Proof.
  intros H. unfold find, size.
  destruct (N.ltb_spec (N.of_nat (List.length (pre ++ s)))
                       (N.of_nat (List.length pre))) as [Hlt|_].
  - rewrite length_app in Hlt. lia.
  - rewrite Nat2N.id, skipn_app, skipn_all, Nat.sub_diag. simpl.
    now rewrite scan_shift, H.
Qed.

Lemma strlen_le_length (p : GLchar_ptr) : (strlen_nat p <= List.length p)%nat.
Proof.
  induction p as [|c p IH]; simpl; [lia|].
  destruct (Ascii.eqb c NUL); lia.
Qed.

Lemma occurrences_spec (tok s : list ascii) (q : nat) :
  occurs_at tok s q <-> In q (occurrences tok s).
Proof.
  unfold occurrences.
  rewrite occurs_at_starts_with, filter_In, in_seq. intuition lia.
Qed.

(** Two calls of [replaceToken] for the same token, the second continuing
    where the first stopped, on a subject that holds the token twice. *)
Lemma replaceToken_twice (St : Type) (st : St) (tok a b : GLchar_ptr)
    (head mid tail : list ascii) :
  scan (c_chars tok) (head ++ c_chars tok ++ mid ++ c_chars tok ++ tail) 0
    = Some (List.length head) ->
  scan (c_chars tok) (mid ++ c_chars tok ++ tail) 0 = Some (List.length mid) ->
  (N.of_nat (List.length head + List.length mid) + strlen a + strlen b
   < SIZE_MODULUS)%N ->
  bind (replaceToken tok 0%N a (head ++ c_chars tok ++ mid ++ c_chars tok ++ tail))
       (fun x => match x with
                 | (position, source) =>
                     bind (replaceToken tok position b source)
                          (fun y => match y with
                                    | (position, source) => ret source
                                    end)
                 end) st
  = Ok (head ++ c_chars a ++ mid ++ c_chars b ++ tail) st.
Proof.
  intros H1 H2 Hfit. unfold bind at 1.
  rewrite replaceToken_at_occurrence;
    [|now apply find_from_start|lia].
  unfold bind.
  replace (head ++ c_chars a ++ mid ++ c_chars tok ++ tail)
    with (((head ++ c_chars a) ++ mid) ++ c_chars tok ++ tail)
    by now rewrite <- !app_assoc.
  assert (Hpos : (N.of_nat (List.length head) + strlen a)%N
                 = N.of_nat (List.length (head ++ c_chars a))).
  { rewrite length_app, strlen_c_chars. unfold strlen. lia. }
  rewrite replaceToken_at_occurrence.
  - unfold ret. now rewrite <- !app_assoc.
  - rewrite Hpos, <- app_assoc, find_after_prefix with (k := List.length mid)
      by exact H2.
    now rewrite !length_app.
  - rewrite !length_app, strlen_c_chars. unfold strlen in *. lia.
Qed.

End TwoTokens.

(** ** The compute shaders of the buffer tests *)

Section ComputeShaders.

Variable St : Type.
Variable st : St.

Lemma strlen_decimal (offset : GLuint) :
  (offset < 2 ^ 32)%N -> (strlen (c_str (decimal offset)) <= 32)%N.
Proof.
  intros H. unfold strlen, c_str.
  pose proof (strlen_le_length (decimal offset)).
  pose proof (decimal_length offset H). lia.
Qed.

Lemma storage_getComputeShader (self : StorageBufferTest.t) (offset : GLuint) :
  (offset < 2 ^ 32)%N ->
  StorageBufferTest.getComputeShader self offset st
  = Ok (storage_cs_head
          ++ match StorageBufferTest.m_test_case self with
             | StorageBufferTest.DESTINATION_INVALID => decimal offset
             | _ => lit "0"
             end
          ++ cs_mid
          ++ match StorageBufferTest.m_test_case self with
             | StorageBufferTest.SOURCE_INVALID => decimal offset
             | _ => lit "0"
             end
          ++ cs_tail) st.
Proof.
  intros Hoff. pose proof (strlen_decimal offset Hoff) as Hlen.
  unfold StorageBufferTest.getComputeShader,
         StorageBufferTest.getComputeShader_from.
  change (of_c_str StorageBufferTest.cs)
    with (storage_cs_head ++ c_chars (lit "OFFSET") ++ cs_mid
            ++ c_chars (lit "OFFSET") ++ cs_tail).
  destruct (StorageBufferTest.m_test_case self);
    cbv beta iota zeta delta [StorageBufferTest.VERSION_eqb];
    rewrite replaceToken_twice;
    rewrite ?c_chars_decimal; try reflexivity;
    change (strlen (c_str (of_c_str (lit "0")))) with 1%N;
    assert (N.of_nat (List.length storage_cs_head + List.length cs_mid) < 1000)%N
      by (vm_compute; reflexivity);
    unfold SIZE_MODULUS; lia.
Qed.

Lemma uniform_getComputeShader (self : UniformBufferTest.t) (offset : GLuint) :
  (offset < 2 ^ 32)%N ->
  UniformBufferTest.getComputeShader self offset st
  = Ok (uniform_cs_head
          ++ lit "0"
          ++ cs_mid
          ++ match UniformBufferTest.m_test_case self with
             | UniformBufferTest.SOURCE_INVALID => decimal offset
             | _ => lit "0"
             end
          ++ cs_tail) st.
Proof.
  intros Hoff. pose proof (strlen_decimal offset Hoff) as Hlen.
  unfold UniformBufferTest.getComputeShader,
         UniformBufferTest.getComputeShader_from.
  change (of_c_str UniformBufferTest.cs)
    with (uniform_cs_head ++ c_chars (lit "OFFSET") ++ cs_mid
            ++ c_chars (lit "OFFSET") ++ cs_tail).
  destruct (UniformBufferTest.m_test_case self);
    cbv beta iota zeta delta [UniformBufferTest.VERSION_eqb];
    rewrite replaceToken_twice;
    rewrite ?c_chars_decimal; try reflexivity;
    change (strlen (c_str (of_c_str (lit "0")))) with 1%N;
    change (strlen (lit "0")) with 1%N;
    assert (N.of_nat (List.length uniform_cs_head + List.length cs_mid) < 1000)%N
      by (vm_compute; reflexivity);
    unfold SIZE_MODULUS; lia.
Qed.

(** C5.  For every [GLuint] offset, [StorageBufferTest::getComputeShader]
    returns its template with the first OFFSET token (the destination index)
    replaced by the decimal digits of the offset when the test case is
    DESTINATION_INVALID and by "0" otherwise, and the second OFFSET token (the
    source index) replaced by the digits when the test case is SOURCE_INVALID
    and by "0" otherwise.  [UniformBufferTest::getComputeShader] does the same
    with its template, except that the destination index is always "0".  Each
    template holds the token exactly twice, after the head and after the
    middle part. *)
Theorem getComputeShader_substitutes_offsets (offset : GLuint) :
  (offset < 2 ^ 32)%N ->
  (StorageBufferTest.cs
     = storage_cs_head ++ OFFSET ++ cs_mid ++ OFFSET ++ cs_tail /\
   occurrences OFFSET StorageBufferTest.cs
     = [List.length storage_cs_head;
        List.length (storage_cs_head ++ OFFSET ++ cs_mid)] /\
   forall self : StorageBufferTest.t,
     StorageBufferTest.getComputeShader self offset st
     = Ok (storage_cs_head
             ++ match StorageBufferTest.m_test_case self with
                | StorageBufferTest.DESTINATION_INVALID => decimal offset
                | _ => lit "0"
                end
             ++ cs_mid
             ++ match StorageBufferTest.m_test_case self with
                | StorageBufferTest.SOURCE_INVALID => decimal offset
                | _ => lit "0"
                end
             ++ cs_tail) st) /\
  (UniformBufferTest.cs
     = uniform_cs_head ++ OFFSET ++ cs_mid ++ OFFSET ++ cs_tail /\
   occurrences OFFSET UniformBufferTest.cs
     = [List.length uniform_cs_head;
        List.length (uniform_cs_head ++ OFFSET ++ cs_mid)] /\
   forall self : UniformBufferTest.t,
     UniformBufferTest.getComputeShader self offset st
     = Ok (uniform_cs_head
             ++ lit "0"
             ++ cs_mid
             ++ match UniformBufferTest.m_test_case self with
                | UniformBufferTest.SOURCE_INVALID => decimal offset
                | _ => lit "0"
                end
             ++ cs_tail) st).
Proof.
  intros Hoff. split; (split; [vm_compute; reflexivity|]);
    (split; [vm_compute; reflexivity|]); intros self.
  - now apply storage_getComputeShader.
  - now apply uniform_getComputeShader.
Qed.

End ComputeShaders.

(** ** The callers of [replaceToken] *)

Section Callers.

Context `{P : Platform}.
Variable St : Type.
Variable st : St.

Lemma first_replaceToken_throws {A} (token text : GLchar_ptr) (string : std_string)
    (k : size_t * std_string -> M St A) :
  (size string < npos)%N ->
  (forall p, ~ occurs_at (c_chars token) string p) ->
  bind (replaceToken token 0%N text string) k st = Throw std_out_of_range st.
Proof.
  intros Hsize Hnone. unfold bind.
  now rewrite (proj2 (replaceToken_out_of_range St st token text string 0%N
                        Hsize (fun p _ => Hnone p))).
Qed.

(** C8.  [replaceToken] is partial: when the token does not occur in the
    subject at or after the search position, [find] returns [npos] and
    [replace(npos, ...)] throws [std::out_of_range] (a [std::string] is shorter
    than [npos]), leaving the subject and the search position as they were.
    No caller guards the precondition: each of the four shader generators,
    run on a template that lacks its first token, ends with that exception. *)
Theorem replaceToken_is_partial :
  (forall (token text : GLchar_ptr) (string : std_string)
          (search_position : size_t),
      (size string < npos)%N ->
      (forall p, (N.to_nat search_position <= p)%nat ->
                 ~ occurs_at (c_chars token) string p) ->
      find string token search_position = npos /\
      replaceToken token search_position text string st
      = Throw std_out_of_range st) /\
  (forall (cs : GLchar_ptr) (self : StorageBufferTest.t) (offset : GLuint),
      (size (of_c_str cs) < npos)%N ->
      (forall p, ~ occurs_at OFFSET (of_c_str cs) p) ->
      StorageBufferTest.getComputeShader_from cs self offset st
      = Throw std_out_of_range st) /\
  (forall (cs : GLchar_ptr) (self : UniformBufferTest.t) (offset : GLuint),
      (size (of_c_str cs) < npos)%N ->
      (forall p, ~ occurs_at OFFSET (of_c_str cs) p) ->
      UniformBufferTest.getComputeShader_from cs self offset st
      = Throw std_out_of_range st) /\
  (forall (template_code : GLchar_ptr) (self : TexelFetchTest.t)
          (version : ImageLoadStoreTest.VERSION)
          (coord_offset sample_offset : GLuint),
      TexelFetchTest.m_test_case self <> TexelFetchTest.LAST ->
      (size (of_c_str template_code) < npos)%N ->
      (forall p, ~ occurs_at (lit "IMAGE") (of_c_str template_code) p) ->
      ImageLoadStoreTest.getComputeShader_from template_code self version
        coord_offset sample_offset st
      = Throw std_out_of_range st) /\
  (forall (template_code : GLchar_ptr) (self : TexelFetchTest.t)
          (is_case_valid : bool) (fetch_offset : GLuint) (w : World),
      (size (of_c_str template_code) < npos)%N ->
      (forall p, ~ occurs_at (lit "VERSION") (of_c_str template_code) p) ->
      TexelFetchTest.getFragmentShader_from template_code self is_case_valid
        fetch_offset w
      = Throw std_out_of_range w).
Proof.
  split; [|split; [|split; [|split]]].
  - intros. now apply replaceToken_out_of_range.
  - intros cs self offset Hsize Hnone.
    unfold StorageBufferTest.getComputeShader_from.
    destruct (StorageBufferTest.m_test_case self);
      cbv beta iota zeta delta [StorageBufferTest.VERSION_eqb];
      now apply first_replaceToken_throws.
  - intros cs self offset Hsize Hnone.
    unfold UniformBufferTest.getComputeShader_from.
    now apply first_replaceToken_throws.
  - intros template_code self version coord_offset sample_offset Hcase Hsize Hnone.
    unfold ImageLoadStoreTest.getComputeShader_from.
    destruct version;
      cbv beta iota zeta delta [ImageLoadStoreTest.VERSION_eqb];
      destruct (TexelFetchTest.m_test_case self); try congruence;
      unfold bind at 1; unfold ret at 1;
      now apply first_replaceToken_throws.
  - intros template_code self is_case_valid fetch_offset w Hsize Hnone.
    unfold TexelFetchTest.getFragmentShader_from.
    pose proof (proj2 (replaceToken_out_of_range World w (lit "VERSION")
                         (getGLSLVersionDeclaration (ctx_type w))
                         (of_c_str template_code) 0%N Hsize
                         (fun p _ => Hnone p))) as Hthrow.
    destruct (TexelFetchTest.TEST_CASES_eqb _ _);
      [|destruct (TexelFetchTest.TEST_CASES_eqb _ _)];
      try destruct (Bool.eqb false is_case_valid);
      unfold bind at 1; unfold getType at 1; unfold bind at 1;
      now rewrite Hthrow.
Qed.

End Callers.

(** ** Stepping through effectful code *)

Section Steps.

Lemma bind_Ok {St A B} (m : M St A) (k : A -> M St B) (s s' : St) (a : A) :
  m s = Ok a s' -> bind m k s = k a s'.
Proof. intros H. unfold bind. now rewrite H. Qed.

Lemma bind_Throw {St A B} (m : M St A) (k : A -> M St B) (s s' : St)
    (e : Exception) :
  m s = Throw e s' -> bind m k s = Throw e s'.
Proof. intros H. unfold bind. now rewrite H. Qed.

Context `{P : Platform}.

(** The error check after a call: it returns when the driver reports
    [GL_NO_ERROR] and throws [glu::Error] otherwise; either way the query is
    recorded. *)
Lemma expect_no_error (msg : string) (w : World) :
  GLU_EXPECT_NO_ERROR_getError msg w
  = if (drv_value getError (gl_state w) =? GL_NO_ERROR)%N
    then Ok tt (issue getError w)
    else Throw (glu_Error (drv_value getError (gl_state w)) msg)
               (issue getError w).
Proof.
  unfold GLU_EXPECT_NO_ERROR_getError, bind, gl_value.
  now destruct (_ =? _)%N.
Qed.

Lemma expect_no_error_free (msg : string) (w : World) :
  error_free -> GLU_EXPECT_NO_ERROR_getError msg w = Ok tt (issue getError w).
Proof.
  intros H. rewrite expect_no_error, (H (gl_state w)). reflexivity.
Qed.

End Steps.

(** ** VertexBufferObjectsTest: verification of the drawn image *)

Section VertexBufferObjects.

Context `{P : Platform}.

Lemma verify_loop_forallb (pixels : list GLubyte) (i n : nat) :
  VertexBufferObjectsTest.verify_loop pixels i n
  = forallb (fun p => (255 =? Byte.to_N p)%N)
            (map (fun j => nth j pixels Byte.x00) (seq i n)).
Proof.
  revert i; induction n as [|n IH]; intros i;
    cbn [VertexBufferObjectsTest.verify_loop seq map forallb]; [reflexivity|].
  rewrite IH. now destruct (255 =? Byte.to_N (nth i pixels Byte.x00))%N.
Qed.

Lemma map_nth_seq {A} (l : list A) (d : A) :
  map (fun j => nth j l d) (seq 0 (List.length l)) = l.
Proof.
  induction l as [|x l IH]; simpl; [reflexivity|].
  f_equal. rewrite <- seq_shift, map_map. exact IH.
Qed.

Lemma overlay_length {A} (data buf : list A) :
  List.length (overlay data buf) = List.length buf.
Proof.
  unfold overlay. rewrite length_app, length_firstn, length_skipn. lia.
Qed.

Lemma texels_read_back_length (texture_id : GLuint) (w : World) :
  List.length (texels_read_back texture_id w) = 64%nat.
Proof. unfold texels_read_back. now rewrite overlay_length, repeat_length. Qed.

(** The outcome of [verifyResults] in full: it throws when one of the three
    error checks fails and otherwise tells whether every texel is 255. *)
Lemma verifyResults_outcome (texture_id : GLuint) (w : World) :
  match VertexBufferObjectsTest.verifyResults texture_id w with
  | Ok b _ =>
      b = forallb (fun p => (255 =? Byte.to_N p)%N)
                  (texels_read_back texture_id w)
  | Throw e _ => exists err msg, e = glu_Error err msg /\ err <> GL_NO_ERROR
  end.
Proof.
  unfold VertexBufferObjectsTest.verifyResults, Texture.Bind, Texture.GetData,
    GLU_EXPECT_NO_ERROR_getError, bind, gl, gl_out_bytes, gl_value, ret, throw.
  repeat (check_error; cbv beta iota; [|now eauto]).
  rewrite verify_loop_forallb.
  change (VertexBufferObjectsTest.width * VertexBufferObjectsTest.height)%nat
    with 64%nat.
  fold (texels_read_back texture_id w).
  rewrite <- (texels_read_back_length texture_id w).
  now rewrite map_nth_seq.
Qed.

Lemma verifyResults_returns (texture_id : GLuint) (w : World) :
  error_free ->
  exists b w', VertexBufferObjectsTest.verifyResults texture_id w = Ok b w'.
Proof.
  intros H.
  unfold VertexBufferObjectsTest.verifyResults, Texture.Bind, Texture.GetData.
  unfold bind, gl, gl_out_bytes, ret.
  repeat (rewrite expect_no_error_free by exact H; cbv beta iota).
  do 2 eexists. reflexivity.
Qed.

End VertexBufferObjects.

Section VertexBufferObjectsClaims.

Context `{P : Platform}.

Lemma all_255_iff (texels : list GLubyte) :
  forallb (fun p => (255 =? Byte.to_N p)%N) texels = true <->
  forall p, In p texels -> Byte.to_N p = 255%N.
Proof.
  rewrite forallb_forall. split; intros H p Hp.
  - symmetry. apply N.eqb_eq. now apply H.
  - apply N.eqb_eq. symmetry. now apply H.
Qed.

Lemma some_not_255_iff (texels : list GLubyte) :
  forallb (fun p => (255 =? Byte.to_N p)%N) texels = false <->
  exists i, (i < List.length texels)%nat /\
            Byte.to_N (nth i texels Byte.x00) <> 255%N.
Proof.
  split.
  - intros H. induction texels as [|p texels IH]; cbn [forallb] in H;
      [discriminate|].
    destruct (N.eqb_spec 255 (Byte.to_N p)) as [E|E]; cbn [andb] in H.
    + destruct (IH H) as (i & Hi & Hne). exists (S i).
      cbn [List.length nth]. split; [lia|exact Hne].
    + exists 0%nat. cbn [List.length nth]. split; [lia|congruence].
  - intros (i & Hi & Hne).
    destruct (forallb (fun p => (255 =? Byte.to_N p)%N) texels) eqn:E;
      [|reflexivity].
    exfalso. apply Hne. apply (proj1 (all_255_iff texels) E). now apply nth_In.
Qed.

(** C4.  [verifyValidResults] (through [verifyResults]) reads level 0 of the
    texture back into its 64-byte array and, when it returns, returns true if
    and only if all 64 bytes are 255, and false as soon as one of them is not.
    It returns whenever the driver reports no error; otherwise it throws the
    [glu::Error] of the failed check. *)
Theorem verifyValidResults_all_texels_255 (texture_id : GLuint) (w : World) :
  (forall (b : bool) (w' : World),
      VertexBufferObjectsTest.verifyValidResults texture_id w = Ok b w' ->
      (b = true <->
       forall p, In p (texels_read_back texture_id w) -> Byte.to_N p = 255%N) /\
      (b = false <->
       exists i, (i < 64)%nat /\
                 Byte.to_N (nth i (texels_read_back texture_id w) Byte.x00)
                 <> 255%N)) /\
  List.length (texels_read_back texture_id w) = 64%nat /\
  (error_free ->
   exists b w', VertexBufferObjectsTest.verifyValidResults texture_id w = Ok b w') /\
  (forall (e : Exception) (w' : World),
      VertexBufferObjectsTest.verifyValidResults texture_id w = Throw e w' ->
      exists err msg, e = glu_Error err msg /\ err <> GL_NO_ERROR).
Proof.
  unfold VertexBufferObjectsTest.verifyValidResults.
  pose proof (verifyResults_outcome texture_id w) as Hout.
  pose proof (texels_read_back_length texture_id w) as Hlen.
  repeat split.
  - intros ->. rewrite H in Hout. now apply all_255_iff.
  - intros Hall. rewrite H in Hout. subst b. now apply all_255_iff.
  - intros ->. rewrite H in Hout. symmetry in Hout.
    apply some_not_255_iff in Hout. now rewrite Hlen in Hout.
  - intros Hex. rewrite H in Hout. subst b.
    apply some_not_255_iff. now rewrite Hlen.
  - exact Hlen.
  - apply verifyResults_returns.
  - intros e w' H. now rewrite H in Hout.
Qed.

(** C9.  [verifyInvalidResults] is the negation of [verifyResults], with the
    same GL calls and the same exceptions.  When it returns, it returns true
    if and only if at least one of the 64 texels read back differs from 255:
    the other texels may all be drawn, and no texel is compared with the clear
    value 128. *)
Theorem verifyInvalidResults_negates (texture_id : GLuint) (w : World) :
  VertexBufferObjectsTest.verifyInvalidResults texture_id w
  = match VertexBufferObjectsTest.verifyResults texture_id w with
    | Ok b w' => Ok (negb b) w'
    | Throw e w' => Throw e w'
    end /\
  (forall (b : bool) (w' : World),
      VertexBufferObjectsTest.verifyInvalidResults texture_id w = Ok b w' ->
      (b = true <->
       exists i, (i < 64)%nat /\
                 Byte.to_N (nth i (texels_read_back texture_id w) Byte.x00)
                 <> 255%N)).
Proof.
  assert (Heq : VertexBufferObjectsTest.verifyInvalidResults texture_id w
                = match VertexBufferObjectsTest.verifyResults texture_id w with
                  | Ok b w' => Ok (negb b) w'
                  | Throw e w' => Throw e w'
                  end).
  { unfold VertexBufferObjectsTest.verifyInvalidResults, bind.
    now destruct (VertexBufferObjectsTest.verifyResults texture_id w). }
  split; [exact Heq|].
  intros b w' H. rewrite Heq in H.
  pose proof (verifyResults_outcome texture_id w) as Hout.
  pose proof (texels_read_back_length texture_id w) as Hlen.
  destruct (VertexBufferObjectsTest.verifyResults texture_id w) as [r w1|e w1];
    [|discriminate].
  injection H as <- <-. rewrite <- Hlen, <- some_not_255_iff, <- Hout.
  now destruct r.
Qed.

End VertexBufferObjectsClaims.

(** A drawn image is accepted as a valid result. *)
Lemma verifyValidResults_all_texels_255_witness :
  @error_free (scripted image_drawn GL_NO_ERROR true) /\
  exists b w',
    VertexBufferObjectsTest.verifyValidResults 1%N
      (fresh_world image_drawn GL_NO_ERROR true []) = Ok b w'.
Proof.
  split; [intros d; reflexivity|].
  apply (proj1 (proj2 (proj2 (verifyValidResults_all_texels_255 1%N
           (fresh_world image_drawn GL_NO_ERROR true []))))).
  intros d; reflexivity.
Defined.

(** An image with one texel that was not drawn is accepted as a robust result
    although the texel does not hold the clear value. *)
Lemma verifyInvalidResults_negates_witness :
  exists w',
    VertexBufferObjectsTest.verifyInvalidResults 1%N
      (fresh_world image_one_hole GL_NO_ERROR true []) = Ok true w' /\
    exists i, (i < 64)%nat /\
      Byte.to_N (nth i (texels_read_back 1%N
                   (fresh_world image_one_hole GL_NO_ERROR true [])) Byte.x00)
      <> 255%N.
Proof.
  eexists. split; [vm_compute; reflexivity|].
  apply (proj2 (verifyInvalidResults_negates 1%N
           (fresh_world image_one_hole GL_NO_ERROR true [])) true
           _ eq_refl).
  reflexivity.
Defined.

(** ** The feature check and the early return of the tests *)

Section FeatureCheckClaims.

Context `{P : Platform}.

Lemma existsb_eqb_In (name : string) (l : list string) :
  existsb (String.eqb name) l = true <-> In name l.
Proof.
  rewrite existsb_exists. split.
  - intros (x & Hx & Heq). apply String.eqb_eq in Heq. now subst.
  - intros H. exists name. split; [exact H|apply String.eqb_refl].
Qed.

Lemma feature_check_outcome (w : World) :
  isRobustBufferAccessBehaviorFeatureSupported w = Ok true w /\ feature_supported w
  \/
  isRobustBufferAccessBehaviorFeatureSupported w = Ok false (marked_not_supported w) /\
  ~ feature_supported w.
Proof.
  unfold isRobustBufferAccessBehaviorFeatureSupported, feature_supported,
    bind, getType, isExtensionSupported, setTestResult, ret.
  destruct (existsb _ (ctx_extensions w)) eqn:Ekhr.
  { left. split; [reflexivity|]. left. now apply existsb_eqb_In. }
  destruct (existsb (String.eqb "GL_ARB_robust_buffer_access_behavior")
                    (ctx_extensions w)) eqn:Earb.
  { left. split; [reflexivity|]. right; left. now apply existsb_eqb_In. }
  destruct (contextSupports (ctx_type w) (ApiType_core 4 3)) eqn:Ecore.
  { left. split; [reflexivity|]. right; right. reflexivity. }
  right. split; [reflexivity|].
  intros [H|[H|H]].
  - apply existsb_eqb_In in H. congruence.
  - apply existsb_eqb_In in H. congruence.
  - congruence.
Qed.

(** C6.  [isRobustBufferAccessBehaviorFeatureSupported] returns true if and
    only if the KHR extension is supported, or the ARB extension is supported,
    or the context supports OpenGL 4.3 core.  When it returns true it changes
    nothing; when it returns false it has set the test result to
    QP_TEST_RESULT_NOT_SUPPORTED and changed nothing else.  In the second
    case the [iterate] of each of the five tests returns STOP at once,
    whatever its remaining statements are: no GL call is issued (the record of
    calls and the driver state are those from before), so no resource is
    created and nothing is drawn or dispatched. *)
Theorem unsupported_feature_stops_every_test (w : World) :
  (exists (b : bool) (w' : World),
      isRobustBufferAccessBehaviorFeatureSupported w = Ok b w' /\
      (b = true <-> feature_supported w) /\
      (b = true -> w' = w) /\
      (b = false -> w' = marked_not_supported w)) /\
  (~ feature_supported w ->
   (forall rest, VertexBufferObjectsTest.iterate rest w
                 = Ok STOP (marked_not_supported w)) /\
   (forall (T : Type) (self : T) rest,
       TexelFetchTest.iterate rest (self, w)
       = Ok STOP (self, marked_not_supported w)) /\
   (forall (T : Type) (self : T) rest,
       ImageLoadStoreTest.iterate rest (self, w)
       = Ok STOP (self, marked_not_supported w)) /\
   (forall (self : StorageBufferTest.t) rest,
       StorageBufferTest.iterate rest (self, w)
       = Ok STOP (self, marked_not_supported w)) /\
   (forall (self : UniformBufferTest.t) rest,
       UniformBufferTest.iterate rest (self, w)
       = Ok STOP (self, marked_not_supported w)) /\
   gl_calls (marked_not_supported w) = gl_calls w /\
   gl_state (marked_not_supported w) = gl_state w /\
   test_result (marked_not_supported w)
   = Some (QP_TEST_RESULT_NOT_SUPPORTED, "Not Supported")).
Proof.
  destruct (feature_check_outcome w) as [[Hrun Hsup]|[Hrun Hnot]]; split.
  - exists true, w. repeat split; auto; discriminate.
  - tauto.
  - exists false, (marked_not_supported w).
    repeat split; auto; try discriminate; try tauto.
  - intros _. repeat split; intros;
      unfold VertexBufferObjectsTest.iterate, TexelFetchTest.iterate,
        ImageLoadStoreTest.iterate, StorageBufferTest.iterate,
        UniformBufferTest.iterate, bind, inW, zoom; cbn [snd fst];
      now rewrite Hrun.
Qed.

End FeatureCheckClaims.

(** ** Release of the resource wrappers *)

Section ReleaseOutcomes.

Context `{P : Platform}.

Lemma Buffer_Release_outcome (self : Buffer.t) (w : World) :
  Buffer.Release (self, w)
  = if (Buffer.m_invalid_id =? Buffer.m_id self)%N then Ok tt (self, w)
    else Ok tt (Buffer.mk Buffer.m_invalid_id (Buffer.m_target self),
                issue (deleteBuffers 1 (Buffer.m_id self)) w).
Proof.
  unfold Buffer.Release, bind, this, inW, zoom, gl, set_this, ret.
  cbn [fst snd]. now destruct (_ =? _)%N.
Qed.

Lemma Framebuffer_Release_outcome (self : Framebuffer.t) (w : World) :
  Framebuffer.Release (self, w)
  = if (Framebuffer.m_invalid_id =? Framebuffer.m_id self)%N then Ok tt (self, w)
    else Ok tt (Framebuffer.mk Framebuffer.m_invalid_id,
                issue (deleteFramebuffers 1 (Framebuffer.m_id self)) w).
Proof.
  unfold Framebuffer.Release, bind, this, inW, zoom, gl, set_this, ret.
  cbn [fst snd]. now destruct (_ =? _)%N.
Qed.

Lemma Texture_Release_outcome (self : Texture.t) (w : World) :
  Texture.Release (self, w)
  = if (Texture.m_invalid_id =? Texture.m_id self)%N then Ok tt (self, w)
    else Ok tt (Texture.mk Texture.m_invalid_id,
                issue (deleteTextures 1 (Texture.m_id self)) w).
Proof.
  unfold Texture.Release, bind, this, inW, zoom, gl, set_this, ret.
  cbn [fst snd]. now destruct (_ =? _)%N.
Qed.

Lemma Shader_Release_outcome (self : Shader.t) (w : World) :
  Shader.Release (self, w)
  = Ok tt (Shader.mk Shader.m_invalid_id, shader_released (Shader.m_id self) w).
Proof.
  unfold Shader.Release, shader_released, bind, this, inW, zoom, gl, set_this, ret.
  cbn [fst snd]. destruct (N.eqb_spec Shader.m_invalid_id (Shader.m_id self)) as [E|E];
    cbn [negb]; [|reflexivity].
  destruct self as [id]. cbn in E. now subst id.
Qed.

Lemma VertexArray_Release_outcome (self : VertexArray.t) (w : World) :
  VertexArray.Release (self, w)
  = if (VertexArray.m_invalid_id =? VertexArray.m_id self)%N then Ok tt (self, w)
    else
      let unbound := issue (bindVertexArray 0) w in
      let err := drv_value getError (gl_state unbound) in
      if (err =? GL_NO_ERROR)%N
      then Ok tt (VertexArray.mk VertexArray.m_invalid_id,
                  issue (deleteVertexArrays 1 (VertexArray.m_id self))
                        (issue getError unbound))
      else Throw (glu_Error err "BindVertexArray") (self, issue getError unbound).
Proof.
  unfold VertexArray.Release, VertexArray.Bind, bind, this, inW, zoom, gl,
    set_this, ret.
  cbn [fst snd]. destruct (_ =? VertexArray.m_id self)%N; cbn [negb]; [reflexivity|].
  rewrite expect_no_error. cbv zeta.
  now destruct (_ =? GL_NO_ERROR)%N.
Qed.

Lemma Program_Release_outcome (self : Program.t) (w : World) :
  Program.Release (self, w)
  = if (Program.m_invalid_id =? Program.m_id self)%N
    then Ok tt (program_released, shaders_released self w)
    else
      let unused := issue (useProgram Program.m_invalid_id) w in
      let err := drv_value getError (gl_state unused) in
      if (err =? GL_NO_ERROR)%N
      then Ok tt (program_released,
                  shaders_released self
                    (issue (deleteProgram (Program.m_id self))
                           (issue getError unused)))
      else Throw (glu_Error err "UseProgram") (self, issue getError unused).
Proof.
  unfold Program.Release, Program.Use.
  unfold bind at 1. unfold this at 1. cbn [fst].
  destruct (N.eqb_spec Program.m_invalid_id (Program.m_id self)) as [E|E];
    cbn [negb].
  - unfold bind, on_member, zoom, ret. cbn [fst snd].
    repeat (rewrite Shader_Release_outcome; cbn [fst snd]).
    destruct self as [id c f g tc te v]. cbn in E. subst id. reflexivity.
  - unfold bind at 1. unfold bind at 1. unfold inW at 1. unfold zoom at 1.
    cbn [fst snd]. unfold bind at 1. unfold gl at 1.
    rewrite expect_no_error. cbv zeta.
    destruct (_ =? GL_NO_ERROR)%N; [|reflexivity].
    unfold bind, inW, on_member, zoom, gl, set_this, ret. cbn [fst snd].
    repeat (rewrite Shader_Release_outcome; cbn [fst snd]).
    reflexivity.
Qed.

End ReleaseOutcomes.

Section ReleaseClaims.

Context `{P : Platform}.

Lemma nothing_deleted_by (w : World) (c : GLCall) (w' : World) :
  is_delete c = false -> nothing_deleted w w' -> nothing_deleted w (issue c w').
Proof.
  unfold nothing_deleted, issue. cbn [gl_calls]. intros Hc H.
  rewrite filter_app. cbn [filter]. rewrite Hc, app_nil_r. exact H.
Qed.

Lemma Buffer_releases :
  releases Buffer.Release Buffer.destructor
           (fun b => Buffer.m_id b = Buffer.m_invalid_id) /\
  always_returns Buffer.Release.
Proof.
  unfold releases, always_returns, Buffer.destructor.
  split; [split; [|split; [|split]]|]; intros self w; intros;
    rewrite Buffer_Release_outcome in *; simple_release Buffer.m_id.
Qed.

Lemma Framebuffer_releases :
  releases Framebuffer.Release Framebuffer.destructor
           (fun b => Framebuffer.m_id b = Framebuffer.m_invalid_id) /\
  always_returns Framebuffer.Release.
Proof.
  unfold releases, always_returns, Framebuffer.destructor.
  split; [split; [|split; [|split]]|]; intros self w; intros;
    rewrite Framebuffer_Release_outcome in *; simple_release Framebuffer.m_id.
Qed.

Lemma Texture_releases :
  releases Texture.Release Texture.destructor
           (fun b => Texture.m_id b = Texture.m_invalid_id) /\
  always_returns Texture.Release.
Proof.
  unfold releases, always_returns, Texture.destructor.
  split; [split; [|split; [|split]]|]; intros self w; intros;
    rewrite Texture_Release_outcome in *; simple_release Texture.m_id.
Qed.

Lemma shader_released_invalid (w : World) :
  shader_released Shader.m_invalid_id w = w.
Proof. reflexivity. Qed.

Lemma Shader_releases :
  releases Shader.Release Shader.destructor
           (fun b => Shader.m_id b = Shader.m_invalid_id) /\
  always_returns Shader.Release.
Proof.
  unfold releases, always_returns, Shader.destructor.
  split; [split; [|split; [|split]]|]; intros self w; intros;
    rewrite Shader_Release_outcome in *;
    try match goal with
        | H : Ok _ _ = Ok _ _ |- _ => injection H as <- <-
        end;
    try discriminate; eauto.
  destruct self as [id]. cbn in *. now subst id.
Qed.

Lemma VertexArray_releases :
  releases VertexArray.Release VertexArray.destructor
           (fun b => VertexArray.m_id b = VertexArray.m_invalid_id) /\
  (error_free -> always_returns VertexArray.Release).
Proof.
  unfold releases, always_returns, VertexArray.destructor.
  split; [split; [|split; [|split]]|]; [intros self w ..|intros Hfree self w];
    intros; rewrite VertexArray_Release_outcome in *; cbv zeta in *.
  - simple_release VertexArray.m_id.
  - simple_release VertexArray.m_id.
  - simple_release VertexArray.m_id.
  - destruct (N.eqb_spec VertexArray.m_invalid_id (VertexArray.m_id self));
      [discriminate|].
    destruct (N.eqb_spec (drv_value getError
                (gl_state (issue (bindVertexArray 0) w))) GL_NO_ERROR) as [E|E];
      [discriminate|].
    injection H as <- <-. cbn [fst snd]. repeat split; eauto.
    repeat apply nothing_deleted_by; reflexivity.
  - rewrite (Hfree _). simple_release VertexArray.m_id.
Qed.

Lemma shaders_released_invalid (p : Program.t) (w : World) :
  program_invalid p -> shaders_released p w = w.
Proof.
  intros (_ & Hc & Hf & Hg & Htc & Hte & Hv). unfold shaders_released.
  now rewrite Hc, Hf, Hg, Htc, Hte, Hv.
Qed.

Lemma program_invalid_released (p : Program.t) :
  program_invalid p <-> p = program_released.
Proof.
  split.
  - intros (Hp & Hc & Hf & Hg & Htc & Hte & Hv).
    destruct p as [id [c] [f] [g] [tc] [te] [v]]. cbn in *. now subst.
  - intros ->. repeat split.
Qed.

Lemma Program_releases :
  releases Program.Release Program.destructor program_invalid /\
  (error_free -> always_returns Program.Release).
Proof.
  unfold releases, always_returns, Program.destructor.
  split; [split; [|split; [|split]]|]; [intros self w ..|intros Hfree self w];
    intros; rewrite Program_Release_outcome in *; cbv zeta in *.
  - apply program_invalid_released. simple_release Program.m_id.
  - rewrite (shaders_released_invalid self w) by assumption.
    apply program_invalid_released in H. subst self. reflexivity.
  - assert (self' = program_released) as -> by simple_release Program.m_id.
    now rewrite (shaders_released_invalid program_released w')
      by now apply program_invalid_released.
  - destruct (N.eqb_spec Program.m_invalid_id (Program.m_id self));
      [discriminate|].
    destruct (N.eqb_spec (drv_value getError
                (gl_state (issue (useProgram Program.m_invalid_id) w)))
                GL_NO_ERROR) as [E|E];
      [discriminate|].
    injection H as <- <-. cbn [fst snd]. repeat split; eauto.
    repeat apply nothing_deleted_by; reflexivity.
  - rewrite (Hfree _). simple_release Program.m_id.
Qed.

Lemma VertexArray_checks_unbinding :
  checks_unbinding VertexArray.Release
    (fun b => VertexArray.m_id b <> VertexArray.m_invalid_id)
    (bindVertexArray 0) "BindVertexArray".
Proof.
  intros self w. cbv zeta. rewrite VertexArray_Release_outcome. cbv zeta.
  destruct (N.eqb_spec VertexArray.m_invalid_id (VertexArray.m_id self))
    as [E|E].
  - split; [intros [Hvalid _]; congruence|]. intros _. now exists self, w.
  - destruct (N.eqb_spec (drv_value getError
                (gl_state (issue (bindVertexArray 0) w))) GL_NO_ERROR) as [E'|E'].
    + split; [intros [_ Herr]; congruence|]. intros _.
      eexists _, _. reflexivity.
    + split; [reflexivity|]. intros H. exfalso. apply H. split; congruence.
Qed.

Lemma Program_checks_unbinding :
  checks_unbinding Program.Release
    (fun p => Program.m_id p <> Program.m_invalid_id)
    (useProgram Program.m_invalid_id) "UseProgram".
Proof.
  intros self w. cbv zeta. rewrite Program_Release_outcome. cbv zeta.
  destruct (N.eqb_spec Program.m_invalid_id (Program.m_id self)) as [E|E].
  - split; [intros [Hvalid _]; congruence|]. intros _.
    eexists _, _. reflexivity.
  - destruct (N.eqb_spec (drv_value getError
                (gl_state (issue (useProgram Program.m_invalid_id) w)))
                GL_NO_ERROR) as [E'|E'].
    + split; [intros [_ Herr]; congruence|]. intros _.
      eexists _, _. reflexivity.
    + split; [reflexivity|]. intros H. exfalso. apply H. split; congruence.
Qed.

(** C7, as the code has it.  For [Buffer], [Framebuffer], [Shader] and
    [Texture], [Release] always returns and leaves [m_id == m_invalid_id];
    called when [m_id] is already invalid it issues no GL call and changes
    nothing, and so does the destructor after an explicit [Release].
    [VertexArray::Release] and [Program::Release], on an object whose own
    [m_id] is valid, first unbind the object and check for a GL error: when
    the driver reports one at that check they throw the [glu::Error], with
    the object unchanged and nothing deleted; in every other case (no error
    reported there, or the own [m_id] already invalid) they return, so that
    they return on every object when the driver never reports an error.
    When they return they satisfy the same statements as the other classes,
    where for [Program] the invalid state is that of the program name and of
    the names of its six shaders together ([Program::Release] releases the
    shaders even when the program name is already invalid). *)
Theorem Release_invalidates_and_is_idempotent :
  (releases Buffer.Release Buffer.destructor
            (fun b => Buffer.m_id b = Buffer.m_invalid_id) /\
   always_returns Buffer.Release) /\
  (releases Framebuffer.Release Framebuffer.destructor
            (fun b => Framebuffer.m_id b = Framebuffer.m_invalid_id) /\
   always_returns Framebuffer.Release) /\
  (releases Shader.Release Shader.destructor
            (fun b => Shader.m_id b = Shader.m_invalid_id) /\
   always_returns Shader.Release) /\
  (releases Texture.Release Texture.destructor
            (fun b => Texture.m_id b = Texture.m_invalid_id) /\
   always_returns Texture.Release) /\
  (releases VertexArray.Release VertexArray.destructor
            (fun b => VertexArray.m_id b = VertexArray.m_invalid_id) /\
   (error_free -> always_returns VertexArray.Release) /\
   checks_unbinding VertexArray.Release
     (fun b => VertexArray.m_id b <> VertexArray.m_invalid_id)
     (bindVertexArray 0) "BindVertexArray") /\
  (releases Program.Release Program.destructor program_invalid /\
   (error_free -> always_returns Program.Release) /\
   checks_unbinding Program.Release
     (fun p => Program.m_id p <> Program.m_invalid_id)
     (useProgram Program.m_invalid_id) "UseProgram").
Proof.
  exact (conj Buffer_releases
          (conj Framebuffer_releases
            (conj Shader_releases
              (conj Texture_releases
                (conj (conj (proj1 VertexArray_releases)
                         (conj (proj2 VertexArray_releases)
                               VertexArray_checks_unbinding))
                      (conj (proj1 Program_releases)
                         (conj (proj2 Program_releases)
                               Program_checks_unbinding))))))).
Qed.

End ReleaseClaims.

(** ** Building a program from a subset of the stages *)

Section ProgramInit.

Context `{P : Platform}.

Lemma shader_call_issue (c : GLCall) (w : World) :
  filter shader_call (gl_calls (issue c w))
  = filter shader_call (gl_calls w) ++ (if shader_call c then [c] else []).
Proof.
  unfold issue. cbn [gl_calls]. rewrite filter_app. cbn [filter].
  now destruct (shader_call c).
Qed.

Lemma Shader_Init_well_behaved (stage : GLenum) (source : std_string) (w : World) :
  well_behaved ->
  exists id w',
    Shader.Init stage source (Shader.mk Shader.m_invalid_id, w)
    = Ok tt (Shader.mk id, w') /\
    (id = Shader.m_invalid_id <-> source = []) /\
    filter shader_call (gl_calls w')
    = filter shader_call (gl_calls w) ++ created stage source.
Proof.
  intros (Herr & Hsh & _ & Hcomp & _).
  destruct source as [|c source].
  - exists Shader.m_invalid_id, w. cbn [created]. rewrite app_nil_r. repeat split; auto.
  - unfold Shader.Init. rewrite (bind_Ok _ _ _ _ _ (Shader_Release_outcome _ _)).
    cbn [Shader.m_id]. rewrite shader_released_invalid.
    unfold Shader.Create, Shader.Source, Shader.Compile, bind, inW, zoom, gl, gl_value,
      gl_out_int, set_this, ret. cbn [fst snd].
    rewrite expect_no_error_free by exact Herr. cbv beta iota.
    destruct (N.eqb_spec Shader.m_invalid_id
                (drv_value (createShader stage) (gl_state w))) as [E|E];
      [now destruct (Hsh stage (gl_state w))|].
    cbn [fst snd].
    repeat (rewrite expect_no_error_free by exact Herr; cbv beta iota; cbn [fst snd]).
    rewrite Hcomp. cbn [negb Z.eqb GL_TRUE Pos.eqb].
    do 2 eexists. split; [reflexivity|]. split.
    + split; [congruence|discriminate].
    + rewrite !shader_call_issue. cbn [shader_call created]. now rewrite !app_nil_r.
Qed.

Lemma Attach_well_behaved (program_id shader_id : GLuint) (w : World) :
  well_behaved ->
  exists w',
    Program.Attach program_id shader_id w = Ok tt w' /\
    filter shader_call (gl_calls w')
    = filter shader_call (gl_calls w)
      ++ (if (Program.m_invalid_id =? program_id)%N
             || (Shader.m_invalid_id =? shader_id)%N
          then [] else [attachShader program_id shader_id]).
Proof.
  intros (Herr & _). unfold Program.Attach.
  destruct (_ || _).
  - exists w. now rewrite app_nil_r.
  - unfold bind, gl. rewrite expect_no_error_free by exact Herr.
    eexists. split; [reflexivity|].
    rewrite !shader_call_issue. cbn [shader_call]. now rewrite !app_nil_r.
Qed.

Lemma Create_well_behaved (w : World) :
  well_behaved ->
  exists id w',
    Program.Create w = Ok id w' /\ id <> Program.m_invalid_id /\
    filter shader_call (gl_calls w') = filter shader_call (gl_calls w).
Proof.
  intros (Herr & _ & Hprog & _). unfold Program.Create, bind, gl_value.
  rewrite expect_no_error_free by exact Herr. cbv beta iota.
  destruct (N.eqb_spec Program.m_invalid_id
              (drv_value createProgram (gl_state w))) as [E|E];
    [now destruct (Hprog (gl_state w))|].
  do 2 eexists. split; [reflexivity|]. split; [congruence|].
  rewrite !shader_call_issue. cbn [shader_call]. now rewrite !app_nil_r.
Qed.

Lemma Link_well_behaved (id : GLuint) (w : World) :
  well_behaved ->
  exists w',
    Program.Link id w = Ok tt w' /\
    filter shader_call (gl_calls w') = filter shader_call (gl_calls w).
Proof.
  intros (Herr & _ & _ & _ & Hlink). unfold Program.Link, bind, gl, gl_out_int.
  repeat (rewrite expect_no_error_free by exact Herr; cbv beta iota).
  rewrite Hlink. cbn [negb Z.eqb GL_TRUE Pos.eqb].
  eexists. split; [reflexivity|].
  rewrite !shader_call_issue. cbn [shader_call]. now rewrite !app_nil_r.
Qed.

Lemma shaders_released_shader_calls (p : Program.t) (w : World) :
  filter shader_call (gl_calls (shaders_released p w))
  = filter shader_call (gl_calls w).
Proof.
  unfold shaders_released, shader_released.
  repeat match goal with
         | |- context [(?a =? ?b)%N] => destruct (a =? b)%N
         end;
    rewrite ?shader_call_issue; cbn [shader_call]; now rewrite ?app_nil_r.
Qed.

Lemma Release_well_behaved (self : Program.t) (w : World) :
  well_behaved ->
  exists w',
    Program.Release (self, w) = Ok tt (program_released, w') /\
    filter shader_call (gl_calls w') = filter shader_call (gl_calls w).
Proof.
  intros (Herr & _). rewrite Program_Release_outcome. cbv zeta.
  rewrite Herr, N.eqb_refl.
  destruct (_ =? _)%N; eexists; (split; [reflexivity|]);
    rewrite shaders_released_shader_calls, ?shader_call_issue;
    cbn [shader_call]; now rewrite ?app_nil_r.
Qed.

Lemma on_member_Ok {T U A} (proj : T -> U) (upd : U -> T -> T)
    (m : M (U * World) A) (p : T) (w w' : World) (a : A) (u : U) :
  m (proj p, w) = Ok a (u, w') ->
  on_member proj upd m (p, w) = Ok a (upd u p, w').
Proof. intros H. unfold on_member, zoom. cbn [fst snd]. now rewrite H. Qed.

Lemma inW_Ok {T A} (m : M World A) (p : T) (w w' : World) (a : A) :
  m w = Ok a w' -> inW m (p, w) = Ok a (p, w').
Proof. intros H. unfold inW, zoom. cbn [fst snd]. now rewrite H. Qed.

Lemma Program_Init_well_behaved
    (cs fs gs tcs tes vs : std_string) (self : Program.t) (w : World) :
  well_behaved ->
  exists self' w',
    Program.Init cs fs gs tcs tes vs (self, w) = Ok tt (self', w') /\
    Program.m_id self' <> Program.m_invalid_id /\
    (Shader.m_id (Program.m_compute self') = Shader.m_invalid_id <-> cs = []) /\
    (Shader.m_id (Program.m_fragment self') = Shader.m_invalid_id <-> fs = []) /\
    (Shader.m_id (Program.m_geometry self') = Shader.m_invalid_id <-> gs = []) /\
    (Shader.m_id (Program.m_tess_ctrl self') = Shader.m_invalid_id <-> tcs = []) /\
    (Shader.m_id (Program.m_tess_eval self') = Shader.m_invalid_id <-> tes = []) /\
    (Shader.m_id (Program.m_vertex self') = Shader.m_invalid_id <-> vs = []) /\
    filter shader_call (gl_calls w')
    = filter shader_call (gl_calls w)
      ++ created GL_COMPUTE_SHADER cs ++ created GL_FRAGMENT_SHADER fs
      ++ created GL_GEOMETRY_SHADER gs ++ created GL_TESS_CONTROL_SHADER tcs
      ++ created GL_TESS_EVALUATION_SHADER tes ++ created GL_VERTEX_SHADER vs
      ++ attached self' (Program.m_compute self')
      ++ attached self' (Program.m_fragment self')
      ++ attached self' (Program.m_geometry self')
      ++ attached self' (Program.m_tess_ctrl self')
      ++ attached self' (Program.m_tess_eval self')
      ++ attached self' (Program.m_vertex self').
Proof.
  intros H. unfold Program.Init.
  destruct (Release_well_behaved self w H) as (w0 & R & F0).
  rewrite (bind_Ok _ _ _ _ _ R).
  destruct (Shader_Init_well_behaved GL_COMPUTE_SHADER cs w0 H)
    as (i1 & w1 & I1 & E1 & F1).
  rewrite (bind_Ok _ _ _ _ _ (on_member_Ok Program.m_compute Program.set_m_compute _
             program_released w0 w1 tt (Shader.mk i1) I1)).
  set (p1 := Program.set_m_compute (Shader.mk i1) program_released).
  destruct (Shader_Init_well_behaved GL_FRAGMENT_SHADER fs w1 H)
    as (i2 & w2 & I2 & E2 & F2).
  rewrite (bind_Ok _ _ _ _ _ (on_member_Ok Program.m_fragment Program.set_m_fragment _
             p1 w1 w2 tt (Shader.mk i2) I2)).
  set (p2 := Program.set_m_fragment (Shader.mk i2) p1).
  destruct (Shader_Init_well_behaved GL_GEOMETRY_SHADER gs w2 H)
    as (i3 & w3 & I3 & E3 & F3).
  rewrite (bind_Ok _ _ _ _ _ (on_member_Ok Program.m_geometry Program.set_m_geometry _
             p2 w2 w3 tt (Shader.mk i3) I3)).
  set (p3 := Program.set_m_geometry (Shader.mk i3) p2).
  destruct (Shader_Init_well_behaved GL_TESS_CONTROL_SHADER tcs w3 H)
    as (i4 & w4 & I4 & E4 & F4).
  rewrite (bind_Ok _ _ _ _ _ (on_member_Ok Program.m_tess_ctrl Program.set_m_tess_ctrl _
             p3 w3 w4 tt (Shader.mk i4) I4)).
  set (p4 := Program.set_m_tess_ctrl (Shader.mk i4) p3).
  destruct (Shader_Init_well_behaved GL_TESS_EVALUATION_SHADER tes w4 H)
    as (i5 & w5 & I5 & E5 & F5).
  rewrite (bind_Ok _ _ _ _ _ (on_member_Ok Program.m_tess_eval Program.set_m_tess_eval _
             p4 w4 w5 tt (Shader.mk i5) I5)).
  set (p5 := Program.set_m_tess_eval (Shader.mk i5) p4).
  destruct (Shader_Init_well_behaved GL_VERTEX_SHADER vs w5 H)
    as (i6 & w6 & I6 & E6 & F6).
  rewrite (bind_Ok _ _ _ _ _ (on_member_Ok Program.m_vertex Program.set_m_vertex _
             p5 w5 w6 tt (Shader.mk i6) I6)).
  set (p6 := Program.set_m_vertex (Shader.mk i6) p5).
  destruct (Create_well_behaved w6 H) as (ip & w7 & C & Ep & F7).
  rewrite (bind_Ok _ _ _ _ _ (inW_Ok _ _ _ _ _ C)).
  unfold bind at 1, this at 1. cbn [fst].
  unfold bind at 1, set_this at 1. cbn [fst snd].
  unfold bind at 1, this at 1. cbn [fst].
  subst p1 p2 p3 p4 p5 p6.
  cbv beta iota delta [Program.set_m_id Program.set_m_compute
    Program.set_m_fragment Program.set_m_geometry Program.set_m_tess_ctrl
    Program.set_m_tess_eval Program.set_m_vertex program_released
    Program.m_id Program.m_compute Program.m_fragment Program.m_geometry
    Program.m_tess_ctrl Program.m_tess_eval Program.m_vertex Shader.m_id].
  destruct (Attach_well_behaved ip i1 w7 H) as (w8 & A1 & G1).
  rewrite (bind_Ok _ _ _ _ _ (inW_Ok _ _ _ _ _ A1)).
  destruct (Attach_well_behaved ip i2 w8 H) as (w9 & A2 & G2).
  rewrite (bind_Ok _ _ _ _ _ (inW_Ok _ _ _ _ _ A2)).
  destruct (Attach_well_behaved ip i3 w9 H) as (w10 & A3 & G3).
  rewrite (bind_Ok _ _ _ _ _ (inW_Ok _ _ _ _ _ A3)).
  destruct (Attach_well_behaved ip i4 w10 H) as (w11 & A4 & G4).
  rewrite (bind_Ok _ _ _ _ _ (inW_Ok _ _ _ _ _ A4)).
  destruct (Attach_well_behaved ip i5 w11 H) as (w12 & A5 & G5).
  rewrite (bind_Ok _ _ _ _ _ (inW_Ok _ _ _ _ _ A5)).
  destruct (Attach_well_behaved ip i6 w12 H) as (w13 & A6 & G6).
  rewrite (bind_Ok _ _ _ _ _ (inW_Ok _ _ _ _ _ A6)).
  destruct (Link_well_behaved ip w13 H) as (w14 & L & F14).
  rewrite (inW_Ok _ _ _ _ _ L).
  do 2 eexists. split; [reflexivity|].
  cbn [Program.m_id Program.m_compute Program.m_fragment Program.m_geometry
       Program.m_tess_ctrl Program.m_tess_eval Program.m_vertex Shader.m_id].
  repeat (split; [assumption|]).
  rewrite F14, G6, G5, G4, G3, G2, G1, F7, F6, F5, F4, F3, F2, F1, F0.
  unfold attached.
  cbn [Program.m_id Program.m_compute Program.m_fragment Program.m_geometry
       Program.m_tess_ctrl Program.m_tess_eval Program.m_vertex Shader.m_id].
  rewrite (proj2 (N.eqb_neq Program.m_invalid_id ip)) by congruence.
  cbn [orb]. now rewrite <- !app_assoc.
Qed.

Lemma build_call_issue (c : GLCall) (w : World) :
  filter build_call (gl_calls (issue c w))
  = filter build_call (gl_calls w) ++ (if build_call c then [c] else []).
Proof.
  unfold issue. cbn [gl_calls]. rewrite filter_app. cbn [filter].
  now destruct (build_call c).
Qed.

Lemma Shader_Init_builds (stage : GLenum) (source : std_string) (w : World) :
  well_behaved ->
  exists id w',
    Shader.Init stage source (Shader.mk Shader.m_invalid_id, w)
    = Ok tt (Shader.mk id, w') /\
    filter build_call (gl_calls w')
    = filter build_call (gl_calls w) ++ built stage source (Shader.mk id).
Proof.
  intros (Herr & Hsh & _ & Hcomp & _).
  destruct source as [|c source].
  - exists Shader.m_invalid_id, w. cbn [built]. rewrite app_nil_r. now split.
  - unfold Shader.Init. rewrite (bind_Ok _ _ _ _ _ (Shader_Release_outcome _ _)).
    cbn [Shader.m_id]. rewrite shader_released_invalid.
    unfold Shader.Create, Shader.Source, Shader.Compile, bind, inW, zoom, gl, gl_value,
      gl_out_int, set_this, ret. cbn [fst snd].
    rewrite expect_no_error_free by exact Herr. cbv beta iota.
    destruct (N.eqb_spec Shader.m_invalid_id
                (drv_value (createShader stage) (gl_state w))) as [E|E];
      [now destruct (Hsh stage (gl_state w))|].
    cbn [fst snd].
    repeat (rewrite expect_no_error_free by exact Herr; cbv beta iota; cbn [fst snd]).
    rewrite Hcomp. cbn [negb Z.eqb GL_TRUE Pos.eqb].
    do 2 eexists. split; [reflexivity|].
    rewrite !build_call_issue. cbn [build_call built Shader.m_id].
    rewrite ?app_nil_r, <- !app_assoc. reflexivity.
Qed.

Lemma Attach_builds (program_id shader_id : GLuint) (w : World) :
  well_behaved ->
  exists w',
    Program.Attach program_id shader_id w = Ok tt w' /\
    filter build_call (gl_calls w')
    = filter build_call (gl_calls w)
      ++ (if (Program.m_invalid_id =? program_id)%N
             || (Shader.m_invalid_id =? shader_id)%N
          then [] else [attachShader program_id shader_id]).
Proof.
  intros (Herr & _). unfold Program.Attach.
  destruct (_ || _).
  - exists w. now rewrite app_nil_r.
  - unfold bind, gl. rewrite expect_no_error_free by exact Herr.
    eexists. split; [reflexivity|].
    rewrite !build_call_issue. cbn [build_call]. now rewrite !app_nil_r.
Qed.

Lemma Create_builds (w : World) :
  well_behaved ->
  exists id w',
    Program.Create w = Ok id w' /\ id <> Program.m_invalid_id /\
    filter build_call (gl_calls w')
    = filter build_call (gl_calls w) ++ [createProgram].
Proof.
  intros (Herr & _ & Hprog & _). unfold Program.Create, bind, gl_value.
  rewrite expect_no_error_free by exact Herr. cbv beta iota.
  destruct (N.eqb_spec Program.m_invalid_id
              (drv_value createProgram (gl_state w))) as [E|E];
    [now destruct (Hprog (gl_state w))|].
  do 2 eexists. split; [reflexivity|]. split; [congruence|].
  rewrite !build_call_issue. cbn [build_call]. now rewrite !app_nil_r.
Qed.

Lemma Link_builds (id : GLuint) (w : World) :
  well_behaved ->
  exists w',
    Program.Link id w = Ok tt w' /\
    filter build_call (gl_calls w')
    = filter build_call (gl_calls w)
      ++ [linkProgram id; getProgramiv id GL_LINK_STATUS].
Proof.
  intros (Herr & _ & _ & _ & Hlink). unfold Program.Link, bind, gl, gl_out_int.
  repeat (rewrite expect_no_error_free by exact Herr; cbv beta iota).
  rewrite Hlink. cbn [negb Z.eqb GL_TRUE Pos.eqb].
  eexists. split; [reflexivity|].
  rewrite !build_call_issue. cbn [build_call].
  rewrite ?app_nil_r, <- !app_assoc. reflexivity.
Qed.

Lemma shaders_released_build_calls (p : Program.t) (w : World) :
  filter build_call (gl_calls (shaders_released p w))
  = filter build_call (gl_calls w).
Proof.
  unfold shaders_released, shader_released.
  repeat match goal with
         | |- context [(?a =? ?b)%N] => destruct (a =? b)%N
         end;
    rewrite ?build_call_issue; cbn [build_call]; now rewrite ?app_nil_r.
Qed.

Lemma Release_builds (self : Program.t) (w : World) :
  well_behaved ->
  exists w',
    Program.Release (self, w) = Ok tt (program_released, w') /\
    filter build_call (gl_calls w') = filter build_call (gl_calls w).
Proof.
  intros (Herr & _). rewrite Program_Release_outcome. cbv zeta.
  rewrite Herr, N.eqb_refl.
  destruct (_ =? _)%N; eexists; (split; [reflexivity|]);
    rewrite shaders_released_build_calls, ?build_call_issue;
    cbn [build_call]; now rewrite ?app_nil_r.
Qed.

(** The calls with which [Program::Init] builds the program, on a driver on
    which every step succeeds. *)
Lemma Program_Init_builds
    (cs fs gs tcs tes vs : std_string) (self : Program.t) (w : World) :
  well_behaved ->
  exists self' w',
    Program.Init cs fs gs tcs tes vs (self, w) = Ok tt (self', w') /\
    filter build_call (gl_calls w')
    = filter build_call (gl_calls w)
      ++ built GL_COMPUTE_SHADER cs (Program.m_compute self')
      ++ built GL_FRAGMENT_SHADER fs (Program.m_fragment self')
      ++ built GL_GEOMETRY_SHADER gs (Program.m_geometry self')
      ++ built GL_TESS_CONTROL_SHADER tcs (Program.m_tess_ctrl self')
      ++ built GL_TESS_EVALUATION_SHADER tes (Program.m_tess_eval self')
      ++ built GL_VERTEX_SHADER vs (Program.m_vertex self')
      ++ [createProgram]
      ++ attached self' (Program.m_compute self')
      ++ attached self' (Program.m_fragment self')
      ++ attached self' (Program.m_geometry self')
      ++ attached self' (Program.m_tess_ctrl self')
      ++ attached self' (Program.m_tess_eval self')
      ++ attached self' (Program.m_vertex self')
      ++ linked self'.
Proof.
  intros H. unfold Program.Init.
  destruct (Release_builds self w H) as (w0 & R & F0).
  rewrite (bind_Ok _ _ _ _ _ R).
  destruct (Shader_Init_builds GL_COMPUTE_SHADER cs w0 H)
    as (i1 & w1 & I1 & F1).
  rewrite (bind_Ok _ _ _ _ _ (on_member_Ok Program.m_compute Program.set_m_compute _
             program_released w0 w1 tt (Shader.mk i1) I1)).
  set (p1 := Program.set_m_compute (Shader.mk i1) program_released).
  destruct (Shader_Init_builds GL_FRAGMENT_SHADER fs w1 H)
    as (i2 & w2 & I2 & F2).
  rewrite (bind_Ok _ _ _ _ _ (on_member_Ok Program.m_fragment Program.set_m_fragment _
             p1 w1 w2 tt (Shader.mk i2) I2)).
  set (p2 := Program.set_m_fragment (Shader.mk i2) p1).
  destruct (Shader_Init_builds GL_GEOMETRY_SHADER gs w2 H)
    as (i3 & w3 & I3 & F3).
  rewrite (bind_Ok _ _ _ _ _ (on_member_Ok Program.m_geometry Program.set_m_geometry _
             p2 w2 w3 tt (Shader.mk i3) I3)).
  set (p3 := Program.set_m_geometry (Shader.mk i3) p2).
  destruct (Shader_Init_builds GL_TESS_CONTROL_SHADER tcs w3 H)
    as (i4 & w4 & I4 & F4).
  rewrite (bind_Ok _ _ _ _ _ (on_member_Ok Program.m_tess_ctrl Program.set_m_tess_ctrl _
             p3 w3 w4 tt (Shader.mk i4) I4)).
  set (p4 := Program.set_m_tess_ctrl (Shader.mk i4) p3).
  destruct (Shader_Init_builds GL_TESS_EVALUATION_SHADER tes w4 H)
    as (i5 & w5 & I5 & F5).
  rewrite (bind_Ok _ _ _ _ _ (on_member_Ok Program.m_tess_eval Program.set_m_tess_eval _
             p4 w4 w5 tt (Shader.mk i5) I5)).
  set (p5 := Program.set_m_tess_eval (Shader.mk i5) p4).
  destruct (Shader_Init_builds GL_VERTEX_SHADER vs w5 H)
    as (i6 & w6 & I6 & F6).
  rewrite (bind_Ok _ _ _ _ _ (on_member_Ok Program.m_vertex Program.set_m_vertex _
             p5 w5 w6 tt (Shader.mk i6) I6)).
  set (p6 := Program.set_m_vertex (Shader.mk i6) p5).
  destruct (Create_builds w6 H) as (ip & w7 & C & Ep & F7).
  rewrite (bind_Ok _ _ _ _ _ (inW_Ok _ _ _ _ _ C)).
  unfold bind at 1, this at 1. cbn [fst].
  unfold bind at 1, set_this at 1. cbn [fst snd].
  unfold bind at 1, this at 1. cbn [fst].
  subst p1 p2 p3 p4 p5 p6.
  cbv beta iota delta [Program.set_m_id Program.set_m_compute
    Program.set_m_fragment Program.set_m_geometry Program.set_m_tess_ctrl
    Program.set_m_tess_eval Program.set_m_vertex program_released
    Program.m_id Program.m_compute Program.m_fragment Program.m_geometry
    Program.m_tess_ctrl Program.m_tess_eval Program.m_vertex Shader.m_id].
  destruct (Attach_builds ip i1 w7 H) as (w8 & A1 & G1).
  rewrite (bind_Ok _ _ _ _ _ (inW_Ok _ _ _ _ _ A1)).
  destruct (Attach_builds ip i2 w8 H) as (w9 & A2 & G2).
  rewrite (bind_Ok _ _ _ _ _ (inW_Ok _ _ _ _ _ A2)).
  destruct (Attach_builds ip i3 w9 H) as (w10 & A3 & G3).
  rewrite (bind_Ok _ _ _ _ _ (inW_Ok _ _ _ _ _ A3)).
  destruct (Attach_builds ip i4 w10 H) as (w11 & A4 & G4).
  rewrite (bind_Ok _ _ _ _ _ (inW_Ok _ _ _ _ _ A4)).
  destruct (Attach_builds ip i5 w11 H) as (w12 & A5 & G5).
  rewrite (bind_Ok _ _ _ _ _ (inW_Ok _ _ _ _ _ A5)).
  destruct (Attach_builds ip i6 w12 H) as (w13 & A6 & G6).
  rewrite (bind_Ok _ _ _ _ _ (inW_Ok _ _ _ _ _ A6)).
  destruct (Link_builds ip w13 H) as (w14 & L & F14).
  rewrite (inW_Ok _ _ _ _ _ L).
  do 2 eexists. split; [reflexivity|].
  cbn [Program.m_id Program.m_compute Program.m_fragment Program.m_geometry
       Program.m_tess_ctrl Program.m_tess_eval Program.m_vertex Shader.m_id].
  rewrite F14, G6, G5, G4, G3, G2, G1, F7, F6, F5, F4, F3, F2, F1, F0.
  unfold attached, linked.
  cbn [Program.m_id Program.m_compute Program.m_fragment Program.m_geometry
       Program.m_tess_ctrl Program.m_tess_eval Program.m_vertex Shader.m_id].
  rewrite (proj2 (N.eqb_neq Program.m_invalid_id ip)) by congruence.
  cbn [orb]. now rewrite <- !app_assoc.
Qed.

(** C10.  [Shader::Init] with an empty source returns at once: no GL call, no
    shader object, [m_id] as before.  [Program::Attach] does nothing when the
    program name or the shader name is the invalid one.  So [Program::Init]
    treats an empty source as an absent stage: on a driver on which every step
    succeeds it returns for every choice of the six sources, the program has a
    valid name, a member shader has a valid name exactly when its source is
    not empty, and the calls that create or attach a shader are, in order, one
    [glCreateShader] for each stage with a non-empty source and then one
    [glAttachShader] for each of these shaders.  The program is built and
    linked from these stages: the calls that build it are, in order, for each
    stage with a non-empty source [glCreateShader], [glShaderSource] with the
    source, [glCompileShader] and the query of the compile status; then
    [glCreateProgram], one [glAttachShader] for each of these shaders,
    [glLinkProgram] and the query of the link status. *)
Theorem empty_source_is_absent_stage :
  (forall (stage : GLenum) (self : Shader.t) (w : World),
      Shader.Init stage [] (self, w) = Ok tt (self, w)) /\
  (forall (program_id shader_id : GLuint) (w : World),
      program_id = Program.m_invalid_id \/ shader_id = Shader.m_invalid_id ->
      Program.Attach program_id shader_id w = Ok tt w) /\
  (well_behaved ->
   forall (cs fs gs tcs tes vs : std_string) (self : Program.t) (w : World),
   exists self' w',
     Program.Init cs fs gs tcs tes vs (self, w) = Ok tt (self', w') /\
     Program.m_id self' <> Program.m_invalid_id /\
     (Shader.m_id (Program.m_compute self') = Shader.m_invalid_id <-> cs = []) /\
     (Shader.m_id (Program.m_fragment self') = Shader.m_invalid_id <-> fs = []) /\
     (Shader.m_id (Program.m_geometry self') = Shader.m_invalid_id <-> gs = []) /\
     (Shader.m_id (Program.m_tess_ctrl self') = Shader.m_invalid_id <-> tcs = []) /\
     (Shader.m_id (Program.m_tess_eval self') = Shader.m_invalid_id <-> tes = []) /\
     (Shader.m_id (Program.m_vertex self') = Shader.m_invalid_id <-> vs = []) /\
     filter shader_call (gl_calls w')
     = filter shader_call (gl_calls w)
       ++ created GL_COMPUTE_SHADER cs ++ created GL_FRAGMENT_SHADER fs
       ++ created GL_GEOMETRY_SHADER gs ++ created GL_TESS_CONTROL_SHADER tcs
       ++ created GL_TESS_EVALUATION_SHADER tes ++ created GL_VERTEX_SHADER vs
       ++ attached self' (Program.m_compute self')
       ++ attached self' (Program.m_fragment self')
       ++ attached self' (Program.m_geometry self')
       ++ attached self' (Program.m_tess_ctrl self')
       ++ attached self' (Program.m_tess_eval self')
       ++ attached self' (Program.m_vertex self') /\
     filter build_call (gl_calls w')
     = filter build_call (gl_calls w)
       ++ built GL_COMPUTE_SHADER cs (Program.m_compute self')
       ++ built GL_FRAGMENT_SHADER fs (Program.m_fragment self')
       ++ built GL_GEOMETRY_SHADER gs (Program.m_geometry self')
       ++ built GL_TESS_CONTROL_SHADER tcs (Program.m_tess_ctrl self')
       ++ built GL_TESS_EVALUATION_SHADER tes (Program.m_tess_eval self')
       ++ built GL_VERTEX_SHADER vs (Program.m_vertex self')
       ++ [createProgram]
       ++ attached self' (Program.m_compute self')
       ++ attached self' (Program.m_fragment self')
       ++ attached self' (Program.m_geometry self')
       ++ attached self' (Program.m_tess_ctrl self')
       ++ attached self' (Program.m_tess_eval self')
       ++ attached self' (Program.m_vertex self')
       ++ linked self').
Proof.
  split; [|split].
  - reflexivity.
  - intros program_id shader_id w [-> | ->]; unfold Program.Attach.
    + now rewrite N.eqb_refl.
    + now rewrite N.eqb_refl, orb_true_r.
  - intros H cs fs gs tcs tes vs self w.
    destruct (Program_Init_well_behaved cs fs gs tcs tes vs self w H)
      as (self' & w' & Hrun & Hid & Hc & Hf & Hg & Htc & Hte & Hv & Hcalls).
    destruct (Program_Init_builds cs fs gs tcs tes vs self w H)
      as (self'' & w'' & Hrun' & Hbuilt).
    rewrite Hrun in Hrun'. injection Hrun' as <- <-.
    exists self', w'. repeat (split; [assumption|]). exact Hbuilt.
Qed.

End ProgramInit.

(** ** Comparison of memory *)

Section Memory.

Lemma to_N_inj (x y : Byte.byte) : Byte.to_N x = Byte.to_N y -> x = y.
Proof.
  intros H. pose proof (Byte.of_to_N x) as Hx.
  rewrite H, Byte.of_to_N in Hx. congruence.
Qed.

(** [memcmp] returns zero exactly when the first [n] bytes agree. *)
Lemma memcmp_zero_iff (a b : list Byte.byte) (n : nat) :
  (n <= List.length a)%nat -> (n <= List.length b)%nat ->
  (memcmp a b n = 0%Z <-> firstn n a = firstn n b).
Proof.
  revert a b; induction n as [|n IH]; intros a b Ha Hb; cbn [memcmp firstn].
  - split; reflexivity.
  - destruct a as [|x a]; [cbn in Ha; lia|].
    destruct b as [|y b]; [cbn in Hb; lia|].
    cbn [List.length] in Ha, Hb.
    destruct (N.eqb_spec (Byte.to_N x) (Byte.to_N y)) as [E|E].
    + apply to_N_inj in E. subst y.
      rewrite (IH a b) by lia. split; intros H; [now f_equal|now injection H].
    + split; [lia|]. intros H. injection H as H _. congruence.
Qed.

Lemma memcmp_16 (expected : list Float32.GLfloat) (buffer_data : list Byte.byte) :
  List.length expected = 4%nat -> List.length buffer_data = 16%nat ->
  (memcmp (Float32.array_bytes expected) buffer_data 16 = 0%Z <->
   buffer_data = Float32.array_bytes expected).
Proof.
  intros He Hb.
  assert (Hlen : List.length (Float32.array_bytes expected) = 16%nat).
  { do 5 (destruct expected as [|? expected]; try discriminate). reflexivity. }
  rewrite memcmp_zero_iff by lia.
  rewrite !firstn_all2 by lia.
  split; congruence.
Qed.

End Memory.

(** ** UniformBufferTest: verification of the buffer *)

Section UniformBuffer.

Context `{P : Platform}.

Lemma compare_outcome (expected : list Float32.GLfloat) (name : string)
    (buffer_data : list Byte.byte) (w : World) :
  List.length expected = 4%nat -> List.length buffer_data = 16%nat ->
  exists b w',
    (if negb (0 =? memcmp (Float32.array_bytes expected) buffer_data 16)%Z
     then bind (log_message name) (fun _ => ret false)
     else ret true) w = Ok b w' /\
    (b = true <-> buffer_data = Float32.array_bytes expected) /\
    (b = true -> w' = w).
Proof.
  intros He Hb. pose proof (memcmp_16 expected buffer_data He Hb) as Hcmp.
  destruct (Z.eqb_spec 0 (memcmp (Float32.array_bytes expected) buffer_data 16))
    as [E|E]; cbn [negb].
  - exists true, w. repeat split; auto. intros _. apply Hcmp. congruence.
  - eexists false, _. split; [reflexivity|]. split; [|discriminate].
    split; [discriminate|]. intros H. apply Hcmp in H. congruence.
Qed.

(** C3.  For a read-back array of four floats (16 bytes),
    [UniformBufferTest::verifyResults] returns true if and only if the array
    is byte-identical to the expected literal array of the test case:
    {2, 3, 4, 5} for VALID and {0, 0, 0, 0} for SOURCE_INVALID.  When it
    returns true it has changed nothing. *)
Theorem UniformBufferTest_verifyResults_memcmp
    (self : UniformBufferTest.t) (buffer_data : list Byte.byte) (w : World) :
  List.length buffer_data = 16%nat ->
  (UniformBufferTest.m_test_case self = UniformBufferTest.VALID ->
   exists b w',
     UniformBufferTest.verifyResults self buffer_data w = Ok b w' /\
     (b = true <->
      buffer_data = Float32.array_bytes
        [Float32.f_2_0; Float32.f_3_0; Float32.f_4_0; Float32.f_5_0]) /\
     (b = true -> w' = w)) /\
  (UniformBufferTest.m_test_case self = UniformBufferTest.SOURCE_INVALID ->
   exists b w',
     UniformBufferTest.verifyResults self buffer_data w = Ok b w' /\
     (b = true <->
      buffer_data = Float32.array_bytes
        [Float32.f_0_0; Float32.f_0_0; Float32.f_0_0; Float32.f_0_0]) /\
     (b = true -> w' = w)).
Proof.
  intros Hb. split; intros Hcase; unfold UniformBufferTest.verifyResults;
    rewrite Hcase; unfold bind at 1; unfold ret at 1; cbv beta iota;
    now apply compare_outcome.
Qed.

End UniformBuffer.

(** ** StorageBufferTest: verification of the buffer *)

Section StorageBuffer.

Context `{P : Platform}.

Lemma match_source_in_source_buffer (x : Float32.GLfloat) :
  StorageBufferTest.match_source x false = in_source_buffer x.
Proof.
  unfold StorageBufferTest.match_source, in_source_buffer,
    StorageBufferTest.m_source_data.
  cbn [seq fold_left nth existsb negb].
  destruct (Float32.eqb x Float32.f_2_0); cbn [negb orb]; [reflexivity|].
  destruct (Float32.eqb x Float32.f_3_0); cbn [negb orb]; [reflexivity|].
  destruct (Float32.eqb x Float32.f_4_0); cbn [negb orb]; [reflexivity|].
  destruct (Float32.eqb x Float32.f_5_0); reflexivity.
Qed.

Lemma for_each_unchanged {St} (l : list nat) (body : nat -> M St unit) (s : St) :
  (forall i, In i l -> body i s = Ok tt s) -> for_each l body s = Ok tt s.
Proof.
  induction l as [|i l IH]; intros H; cbn [for_each]; [reflexivity|].
  unfold bind. rewrite (H i (or_introl eq_refl)).
  apply IH. intros j Hj. apply H. now right.
Qed.

(** A [for] loop whose body returns whatever the state is returns. *)
Lemma for_each_returns {St} (l : list nat) (body : nat -> M St unit) :
  (forall i s, exists s', body i s = Ok tt s') ->
  forall s, exists s', for_each l body s = Ok tt s'.
Proof.
  intros H. induction l as [|i l IH]; intros s; cbn [for_each].
  - now exists s.
  - unfold bind. destruct (H i s) as (s1 & ->). apply IH.
Qed.

Lemma log_or_not (valid : bool) (msg : string) (w : World) :
  exists w', (if negb valid then log_message msg else ret tt) w = Ok tt w'.
Proof. destruct valid; cbn [negb]; eexists; reflexivity. Qed.

(** C1, as the code has it.  For a read-back array of four floats (16
    bytes): on the [memcmp] path (the test case is VALID, or
    [m_hasKhrRobustBufferAccess] is false) [verifyResults] returns true if and
    only if the array is byte-identical to the literal array of the test case,
    {2, 3, 4, 5} for VALID, {0, 0, 0, 0} for SOURCE_INVALID and {1, 1, 1, 1}
    for DESTINATION_INVALID; on the KHR path (the flag is true and the test
    case is SOURCE_INVALID or DESTINATION_INVALID) it returns true, with
    nothing logged, when every element compares equal to 0.0 (respectively
    1.0) or to a value of the source buffer. *)
Theorem StorageBufferTest_verifyResults_accepts
    (self : StorageBufferTest.t) (buffer_data : list Byte.byte) (w : World) :
  List.length buffer_data = 16%nat ->
  (StorageBufferTest.m_test_case self <> StorageBufferTest.LAST ->
   StorageBufferTest.m_hasKhrRobustBufferAccess self = false \/
   StorageBufferTest.m_test_case self = StorageBufferTest.VALID ->
   exists b w',
     StorageBufferTest.verifyResults self buffer_data w = Ok b w' /\
     (b = true <->
      buffer_data
      = Float32.array_bytes (storage_expected (StorageBufferTest.m_test_case self))) /\
     (b = true -> w' = w)) /\
  (StorageBufferTest.m_hasKhrRobustBufferAccess self = true ->
   StorageBufferTest.m_test_case self = StorageBufferTest.SOURCE_INVALID \/
   StorageBufferTest.m_test_case self = StorageBufferTest.DESTINATION_INVALID ->
   allowed_fallback (StorageBufferTest.m_test_case self) buffer_data = true ->
   StorageBufferTest.verifyResults self buffer_data w = Ok true w).
Proof.
  intros Hb. split.
  - intros Hlast Hpath. unfold StorageBufferTest.verifyResults.
    destruct (StorageBufferTest.m_test_case self) eqn:Hcase;
      try congruence;
      try (destruct Hpath as [Hkhr|Hkhr]; [rewrite Hkhr|discriminate]);
      unfold bind at 1; unfold ret at 1; cbv beta iota;
      now apply compare_outcome.
  - intros Hkhr Hcase Hallowed. unfold StorageBufferTest.verifyResults.
    rewrite Hkhr.
    destruct Hcase as [Hcase|Hcase]; rewrite Hcase in *;
      unfold bind at 1; unfold bind at 1;
      rewrite for_each_unchanged; try reflexivity;
      intros b Hin; cbv zeta;
      pose proof (proj1 (forallb_forall _ _) Hallowed b Hin) as Hok;
      cbv beta in Hok;
      rewrite match_source_in_source_buffer.
    + destruct (Float32.eqb (Float32.load buffer_data b) Float32.f_0_0);
        [reflexivity|]. cbn [orb] in Hok. now rewrite Hok.
    + assert (Hd : nth b StorageBufferTest.m_destination_data Float32.f_0_0
                   = Float32.f_1_0).
      { apply in_seq in Hin.
        do 4 (destruct b as [|b]; [reflexivity|]). lia. }
      rewrite Hd.
      destruct (Float32.eqb (Float32.load buffer_data b) Float32.f_1_0);
        [reflexivity|]. cbn [orb] in Hok. now rewrite Hok.
Qed.

(** On the KHR path nothing makes [verifyResults] return false: an element
    that is not allowed is logged, and the function goes on to return true. *)
Lemma verifyResults_khr_path_returns_true
    (self : StorageBufferTest.t) (buffer_data : list Byte.byte) (w : World) :
  StorageBufferTest.m_hasKhrRobustBufferAccess self = true ->
  StorageBufferTest.m_test_case self = StorageBufferTest.SOURCE_INVALID \/
  StorageBufferTest.m_test_case self = StorageBufferTest.DESTINATION_INVALID ->
  exists w', StorageBufferTest.verifyResults self buffer_data w = Ok true w'.
Proof.
  intros Hkhr Hcase. unfold StorageBufferTest.verifyResults. rewrite Hkhr.
  destruct Hcase as [Hcase|Hcase]; rewrite Hcase;
    unfold bind at 1; unfold bind at 1;
    match goal with
    | |- context [for_each ?l ?body w] =>
        destruct (for_each_returns l body
                    (fun i s => log_or_not _ _ s) w) as (w' & ->)
    end;
    exists w'; reflexivity.
Qed.

End StorageBuffer.

(** ** Floats and their memory images *)

Section Floats.

Lemma to_N_byte_of (n : N) : Byte.to_N (Float32.byte_of n) = (n mod 256)%N.
Proof.
  unfold Float32.byte_of.
  destruct (Byte.of_N (n mod 256)) as [b|] eqn:E.
  - now apply Byte.to_of_N.
  - exfalso. pose proof (Byte.to_of_N_option_map (n mod 256)) as H.
    rewrite E in H. cbn in H.
    assert (n mod 256 < 256)%N by (apply N.mod_lt; discriminate).
    destruct (N.leb_spec (n mod 256) 255); [discriminate|lia].
Qed.

(** Storing a float and loading it gives the float back. *)
Lemma of_bytes_to_bytes (f : Float32.GLfloat) :
  (f < 2 ^ 32)%N ->
  Float32.of_bytes (Float32.byte_of f) (Float32.byte_of (f / 2 ^ 8))
    (Float32.byte_of (f / 2 ^ 16)) (Float32.byte_of (f / 2 ^ 24)) = f.
Proof.
  intros H. unfold Float32.of_bytes. rewrite !to_N_byte_of.
  change (2 ^ 8)%N with 256%N. change (2 ^ 16)%N with 65536%N.
  change (2 ^ 24)%N with 16777216%N.
  change (2 ^ 32)%N with 4294967296%N in H.
  zify. Z.to_euclidean_division_equations. lia.
Qed.

(** Loading four bytes and storing the float gives the bytes back. *)
Lemma to_bytes_of_bytes (b0 b1 b2 b3 : Byte.byte) :
  Float32.to_bytes (Float32.of_bytes b0 b1 b2 b3) = [b0; b1; b2; b3].
Proof.
  pose proof (Byte.to_N_bounded b0). pose proof (Byte.to_N_bounded b1).
  pose proof (Byte.to_N_bounded b2). pose proof (Byte.to_N_bounded b3).
  unfold Float32.to_bytes.
  repeat f_equal; apply to_N_inj; rewrite to_N_byte_of;
    unfold Float32.of_bytes;
    change (2 ^ 8)%N with 256%N; change (2 ^ 16)%N with 65536%N;
    change (2 ^ 24)%N with 16777216%N;
    zify; Z.to_euclidean_division_equations; lia.
Qed.

(** A 16-byte buffer is the memory image of the four floats loaded from it. *)
Lemma array_bytes_load (mem : list Byte.byte) :
  List.length mem = 16%nat ->
  mem = Float32.array_bytes
          [Float32.load mem 0; Float32.load mem 1;
           Float32.load mem 2; Float32.load mem 3].
Proof.
  intros H.
  do 17 (destruct mem as [|? mem]; try discriminate H).
  unfold Float32.array_bytes, Float32.load. cbn [flat_map nth Nat.mul Nat.add].
  now rewrite !to_bytes_of_bytes.
Qed.

(** A float compares equal to 0.0 exactly when it is one of the two zeros. *)
Lemma eqb_zero (x : Float32.GLfloat) :
  (x < 2 ^ 32)%N ->
  (Float32.eqb x Float32.f_0_0 = true <-> x = 0%N \/ x = (2 ^ 31)%N).
Proof.
  intros Hx. unfold Float32.eqb, Float32.is_nan, Float32.is_zero,
    Float32.exponent, Float32.mantissa, Float32.f_0_0.
  change (2 ^ 32)%N with 4294967296%N in Hx.
  change (2 ^ 31)%N with 2147483648%N.
  change (2 ^ 23)%N with 8388608%N. change (2 ^ 8)%N with 256%N.
  change (0 / 8388608)%N with 0%N. change (0 mod 256)%N with 0%N.
  change (0 mod 8388608)%N with 0%N.
  cbn [N.eqb negb andb].
  rewrite andb_true_r.
  destruct (N.eqb_spec ((x / 8388608) mod 256) 255) as [E1|E1];
  destruct (N.eqb_spec (x mod 8388608) 0) as [E2|E2];
  destruct (N.eqb_spec x 0) as [E3|E3];
  destruct (N.eqb_spec ((x / 8388608) mod 256) 0) as [E4|E4];
    cbn [negb andb orb]; split; intros H; try discriminate H;
    try reflexivity; try (destruct H as [H|H]);
    try (exfalso; zify; Z.to_euclidean_division_equations; lia);
    try (zify; Z.to_euclidean_division_equations; lia).
Qed.

End Floats.

(** The comparisons of the KHR path on the two zeros and on a NaN. *)
Example negative_zero_equals_zero :
  Float32.eqb 0x80000000%N Float32.f_0_0 = true /\
  Float32.eqb 0x7FC00000%N 0x7FC00000%N = false /\
  Float32.load (Float32.array_bytes StorageBufferTest.m_source_data) 2
  = Float32.f_4_0.
Proof. repeat split. Qed.

(** ** Rows of substitutions *)

Section Rows.

Lemma starts_with_app_long (tok s post : list ascii) :
  (List.length tok <= List.length s)%nat ->
  starts_with tok (s ++ post) = starts_with tok s.
Proof.
  revert s; induction tok as [|a tok IH]; intros s H; [reflexivity|].
  destruct s as [|b s]; [cbn in H; lia|].
  cbn [app starts_with]. rewrite IH; [reflexivity|]. cbn in H. lia.
Qed.

Lemma scan_hit (tok s : list ascii) (i : nat) :
  starts_with tok s = true -> scan tok s i = Some i.
Proof. intros H. destruct s; cbn [scan]; now rewrite H. Qed.

Lemma scan_miss (tok s : list ascii) (c : ascii) (i : nat) :
  starts_with tok (c :: s) = false -> scan tok (c :: s) i = scan tok s (S i).
Proof. intros H. cbn [scan]. now rewrite H. Qed.

(** The first occurrence in a text that ends with the token stays the first
    one when the text goes on. *)
Lemma scan_app (tok mid post : list ascii) (i : nat) :
  scan tok (mid ++ tok) i = Some (i + List.length mid)%nat ->
  scan tok (mid ++ tok ++ post) i = Some (i + List.length mid)%nat.
Proof.
  revert i; induction mid as [|c mid IH]; intros i H.
  - cbn [app List.length]. rewrite Nat.add_0_r.
    apply scan_hit, starts_with_app.
  - cbn [app List.length] in *.
    destruct (starts_with tok (c :: mid ++ tok)) eqn:E.
    + rewrite scan_hit in H by exact E. injection H as H. lia.
    + rewrite scan_miss in H by exact E.
      rewrite scan_miss.
      * replace (i + S (List.length mid))%nat with (S i + List.length mid)%nat
          in * by lia.
        now apply IH.
      * change (c :: mid ++ tok ++ post) with ((c :: mid) ++ tok ++ post).
        rewrite app_assoc, starts_with_app_long; [exact E|].
        rewrite length_app. cbn [List.length]. lia.
Qed.

Variable St : Type.
Variable st : St.

(** One substitution in a row of substitutions: the text up to the search
    position is [done], the token comes after [mid], in which (the token
    appended) it does not start earlier. *)
Lemma replaceToken_next (done mid post : list ascii) (tok text : GLchar_ptr) :
  scan (c_chars tok) (mid ++ c_chars tok) 0 = Some (List.length mid) ->
  (N.of_nat (List.length (done ++ mid ++ c_chars text)) < SIZE_MODULUS)%N ->
  replaceToken tok (N.of_nat (List.length done)) text
    (done ++ mid ++ c_chars tok ++ post) st
  = Ok (N.of_nat (List.length (done ++ mid ++ c_chars text)),
        (done ++ mid ++ c_chars text) ++ post) st.
Proof.
  intros Hscan Hfit.
  pose proof (scan_app (c_chars tok) mid post 0 Hscan) as Hscan'.
  cbn [Nat.add] in Hscan'.
  replace (done ++ mid ++ c_chars tok ++ post)
    with ((done ++ mid) ++ c_chars tok ++ post) by now rewrite <- app_assoc.
  rewrite !length_app, strlen_c_chars in *.
  rewrite replaceToken_at_occurrence.
  - rewrite <- !app_assoc. f_equal. f_equal.
    rewrite length_app. unfold strlen. lia.
  - rewrite <- app_assoc, find_after_prefix with (k := List.length mid)
      by exact Hscan'.
    now rewrite length_app.
  - rewrite length_app. unfold strlen. lia.
Qed.

End Rows.

(** The length of a text of the source: known by assumption (the version
    declaration, the digits of an offset), or computed. *)
Ltac text_length :=
  first [ rewrite ?c_chars_decimal; unfold strlen in *;
          rewrite ?strlen_c_chars; lia
        | apply N.leb_le; vm_compute; reflexivity ].

(** The next substitution of a row; a hypothesis bounds the length of the
    text before the search position. *)
Ltac next_token :=
  unfold bind at 1;
  match goal with
  | HD : (N.of_nat (List.length ?D) <= ?b)%N
    |- context [replaceToken _ (N.of_nat (List.length ?D)) ?text
                  (?D ++ ?mid ++ _)] =>
      let Hm := fresh "Hm" in
      let Ht := fresh "Ht" in
      let HD' := fresh "HD" in
      assert (Hm : (N.of_nat (List.length mid) <= 1000)%N) by text_length;
      assert (Ht : (N.of_nat (List.length (c_chars text)) <= 2 ^ 32)%N)
        by text_length;
      assert (HD' : (N.of_nat (List.length (D ++ mid ++ c_chars text))
                     <= b + 1000 + 2 ^ 32)%N)
        by (rewrite (length_app D), (length_app mid); lia);
      rewrite replaceToken_next;
      [ cbv beta iota; clear Hm Ht
      | vm_compute; reflexivity
      | unfold SIZE_MODULUS; lia ]
  end.

(** The first substitution starts at position 0. *)
Ltac first_token :=
  match goal with
  | |- context [@replaceToken ?S ?t 0%N ?x ?s] =>
      change (@replaceToken S t 0%N x s)
        with (@replaceToken S t (N.of_nat (List.length (@nil ascii))) x s)
  end;
  assert (N.of_nat (List.length (@nil ascii)) <= 0)%N by (cbn; lia);
  next_token.

(** ** The fragment shader of the texel fetch test *)

Section FragmentShader.
Context `{P : Platform}.

Import TexelFetchTest.

(** X1.  [TexelFetchTest::getFragmentShader] returns for every test case
    (the shipped template holds the five tokens in the order in which they
    are replaced), and the result is the template with VERSION replaced by
    the GLSL version declaration of the context, TYPE by the colour type,
    SAMPLER by the sampler type, PLANE by the declaration of the plane and
    OFFSET by the decimal digits of the fetch offset.  For R32UI_MIPMAP and
    R32UI_MULTISAMPLE the invalid case fetches from a plane that does not
    exist (level 2, sample 9) and the offset printed is 0, whatever
    [fetch_offset] is; in the other cases the plane is 0 and the offset is
    [fetch_offset], also for a valid case.  The version declaration and the
    offset have the sizes of a C string in memory and of a [GLuint]. *)
Theorem getFragmentShader_fills_template (self : TexelFetchTest.t)
    (is_case_valid : bool) (fetch_offset : GLuint) (w : World) :
  (fetch_offset < 2 ^ 32)%N ->
  (strlen (getGLSLVersionDeclaration (ctx_type w)) < 2 ^ 32)%N ->
  template_code
  = fragment_shader (lit "VERSION") (lit "TYPE") (lit "SAMPLER") (lit "PLANE")
                    (lit "OFFSET") /\
  getFragmentShader self is_case_valid fetch_offset w
  = Ok (fragment_shader
          (c_chars (getGLSLVersionDeclaration (ctx_type w)))
          match m_test_case self with
          | R32UI_MIPMAP | R32UI_MULTISAMPLE => lit "uvec4"
          | _ => lit "vec4"
          end
          match m_test_case self with
          | R32UI_MIPMAP => lit "usampler2D"
          | R32UI_MULTISAMPLE => lit "usampler2DMS"
          | _ => lit "sampler2D"
          end
          match m_test_case self, is_case_valid with
          | R32UI_MIPMAP, true => lit (lines ["    int   plane  = 1;"])
          | R32UI_MIPMAP, false => lit (lines ["    int   plane  = 2;"])
          | R32UI_MULTISAMPLE, true =>
              lit (lines ["    int   plane  = gl_SampleID;"])
          | R32UI_MULTISAMPLE, false => lit (lines ["    int   plane  = 9;"])
          | _, _ => lit (lines ["    int   plane  = 0;"])
          end
          match m_test_case self, is_case_valid with
          | R32UI_MIPMAP, false | R32UI_MULTISAMPLE, false => lit "0"
          | _, _ => decimal fetch_offset
          end) w.
Proof.
  intros Hoff Hver. split; [vm_compute; reflexivity|].
  pose proof (decimal_length fetch_offset Hoff) as Hlen.
  unfold getFragmentShader, getFragmentShader_from.
  set (version := getGLSLVersionDeclaration (ctx_type w)) in *.
  change (of_c_str template_code)
    with ([] ++ [] ++ c_chars (lit "VERSION")
          ++ fs_after_version ++ c_chars (lit "TYPE")
          ++ fs_after_type ++ c_chars (lit "SAMPLER")
          ++ fs_after_sampler ++ c_chars (lit "PLANE")
          ++ fs_after_plane ++ c_chars (lit "OFFSET")
          ++ fs_after_offset).
  destruct (m_test_case self), is_case_valid;
    cbv beta iota zeta delta [TEST_CASES_eqb Bool.eqb];
    unfold bind at 1; unfold getType at 1; cbv beta iota; fold version.
  all: first_token; do 4 next_token.
  all: unfold ret, fragment_shader;
    rewrite ?c_chars_decimal, <- !app_assoc; reflexivity.
Qed.

End FragmentShader.

(** ** The compute shader of the image test *)

Section ImageShader.
Variable St : Type.
Variable st : St.

Import TexelFetchTest.
Import ImageLoadStoreTest.

Lemma getComputeShader_regular (self : TexelFetchTest.t)
    (version : ImageLoadStoreTest.VERSION) (coord_offset sample_offset : GLuint) :
  (coord_offset < 2 ^ 32)%N ->
  (sample_offset < 2 ^ 32)%N ->
  m_test_case self <> R32UI_MULTISAMPLE ->
  m_test_case self <> LAST ->
  getComputeShader self version coord_offset sample_offset st
  = Ok (image_shader
          match m_test_case self with
          | R32UI_MIPMAP => lit "uimage2D"
          | _ => lit "image2D"
          end
          match m_test_case self with
          | R8 => lit "r8"
          | RG8_SNORM => lit "rg8_snorm"
          | RGBA32F => lit "rgba32f"
          | _ => lit "r32ui"
          end
          match version with
          | DESTINATION_INVALID => decimal coord_offset
          | _ => lit "0"
          end
          match version with
          | SOURCE_INVALID => decimal coord_offset
          | _ => lit "0"
          end
          (copy_texel match m_test_case self with
                      | R32UI_MIPMAP => lit "uvec4"
                      | _ => lit "vec4"
                      end)) st.
Proof.
  intros Hc Hs Hms Hlast.
  pose proof (decimal_length coord_offset Hc) as Hlc.
  pose proof (decimal_length sample_offset Hs) as Hls.
  unfold getComputeShader, getComputeShader_from.
  change (of_c_str ImageLoadStoreTest.template_code)
    with ([] ++ image_cs_head ++ c_chars (lit "IMAGE")
          ++ image_cs_after_image ++ c_chars (lit "FORMAT")
          ++ image_cs_after_format ++ c_chars (lit "IMAGE")
          ++ image_cs_main ++ c_chars (lit "COORD_OFFSET")
          ++ image_cs_after_destination ++ c_chars (lit "COORD_OFFSET")
          ++ image_cs_after_source ++ c_chars (lit "COPY")
          ++ image_cs_end).
  destruct (m_test_case self), version; try congruence;
    cbv beta iota zeta delta [VERSION_eqb];
    unfold bind at 1; unfold ret at 1; cbv beta iota.
  all: first_token; do 5 next_token.
  all: match goal with
       | |- context [replaceToken _ (N.of_nat (List.length ?D)) _
                       ((?D ++ ?m ++ c_chars ?copy) ++ ?e)] =>
           replace ((D ++ m ++ c_chars copy) ++ e)
             with (D ++ (m ++ copy_const) ++ c_chars (lit "TYPE")
                     ++ (copy_texel_tail ++ e))
             by (rewrite <- !app_assoc; reflexivity)
       end.
  all: next_token.
  all: unfold ret, image_shader, copy_texel;
    rewrite ?c_chars_decimal, <- !app_assoc; reflexivity.
Qed.

Lemma getComputeShader_multisample (self : TexelFetchTest.t)
    (version : ImageLoadStoreTest.VERSION) (coord_offset sample_offset : GLuint) :
  (coord_offset < 2 ^ 32)%N ->
  (sample_offset < 2 ^ 32)%N ->
  m_test_case self = R32UI_MULTISAMPLE ->
  getComputeShader self version coord_offset sample_offset st
  = Ok (image_shader (lit "uimage2DMS") (lit "r32ui")
          match version with
          | DESTINATION_INVALID => decimal coord_offset
          | _ => lit "0"
          end
          match version with
          | SOURCE_INVALID => decimal coord_offset
          | _ => lit "0"
          end
          (copy_samples (lit "uvec4")
             match version with
             | SOURCE_INVALID => decimal sample_offset
             | _ => lit "0"
             end
             match version with
             | DESTINATION_INVALID => decimal sample_offset
             | _ => lit "0"
             end)) st.
Proof.
  intros Hc Hs Hms.
  pose proof (decimal_length coord_offset Hc) as Hlc.
  pose proof (decimal_length sample_offset Hs) as Hls.
  unfold getComputeShader, getComputeShader_from. rewrite Hms.
  change (of_c_str ImageLoadStoreTest.template_code)
    with ([] ++ image_cs_head ++ c_chars (lit "IMAGE")
          ++ image_cs_after_image ++ c_chars (lit "FORMAT")
          ++ image_cs_after_format ++ c_chars (lit "IMAGE")
          ++ image_cs_main ++ c_chars (lit "COORD_OFFSET")
          ++ image_cs_after_destination ++ c_chars (lit "COORD_OFFSET")
          ++ image_cs_after_source ++ c_chars (lit "COPY")
          ++ image_cs_end).
  destruct version;
    cbv beta iota zeta delta [VERSION_eqb];
    unfold bind at 1; unfold ret at 1; cbv beta iota.
  all: first_token; do 5 next_token.
  all: match goal with
       | |- context [replaceToken _ (N.of_nat (List.length ?D)) _
                       ((?D ++ ?m ++ c_chars ?copy) ++ ?e)] =>
           replace ((D ++ m ++ c_chars copy) ++ e)
             with (D ++ (m ++ copy_const) ++ c_chars (lit "TYPE")
                   ++ lit " color_0 = imageLoad(uni_source_image, point_source, 0 + "
                   ++ c_chars (lit "SAMPLE_OFFSET")
                   ++ lit (lines [");"] ++ "    const ")%string
                   ++ c_chars (lit "TYPE")
                   ++ lit " color_1 = imageLoad(uni_source_image, point_source, 1 + "
                   ++ c_chars (lit "SAMPLE_OFFSET")
                   ++ lit (lines [");"] ++ "    const ")%string
                   ++ c_chars (lit "TYPE")
                   ++ lit " color_2 = imageLoad(uni_source_image, point_source, 2 + "
                   ++ c_chars (lit "SAMPLE_OFFSET")
                   ++ lit (lines [");"] ++ "    const ")%string
                   ++ c_chars (lit "TYPE")
                   ++ lit " color_3 = imageLoad(uni_source_image, point_source, 3 + "
                   ++ c_chars (lit "SAMPLE_OFFSET")
                   ++ lit (lines [");"]
                      ++ "    imageStore(uni_destination_image, point_destination, 0 + ")%string
                   ++ c_chars (lit "SAMPLE_OFFSET")
                   ++ lit (lines [", color_0);"]
                      ++ "    imageStore(uni_destination_image, point_destination, 1 + ")%string
                   ++ c_chars (lit "SAMPLE_OFFSET")
                   ++ lit (lines [", color_1);"]
                      ++ "    imageStore(uni_destination_image, point_destination, 2 + ")%string
                   ++ c_chars (lit "SAMPLE_OFFSET")
                   ++ lit (lines [", color_2);"]
                      ++ "    imageStore(uni_destination_image, point_destination, 3 + ")%string
                   ++ c_chars (lit "SAMPLE_OFFSET")
                   ++ (lit (lines [", color_3);"]) ++ e))
             by (rewrite <- !app_assoc; reflexivity)
       end.
  all: do 12 next_token.
  all: unfold ret, image_shader, copy_samples, load_sample, store_sample;
    rewrite ?c_chars_decimal, <- !app_assoc; reflexivity.
Qed.

(** X2.  [ImageLoadStoreTest::getComputeShader] returns for every test case
    but LAST, for which it throws [tcu::TestError] ("Invalid enum") before
    any substitution.  The result is the template with the image type, the
    format and the copy statements of the test case; the coordinate offset
    goes to the source point for SOURCE_INVALID and to the destination point
    for DESTINATION_INVALID, the other point gets 0, and VALID gets 0 twice.
    In the multisample case the four loads take the sample offset for
    SOURCE_INVALID and the four stores take it for DESTINATION_INVALID; the
    coordinate offset is printed there as well (the assignment
    [coord_offset = 0] comes after the offset was printed). *)
Theorem image_getComputeShader_fills_template (self : TexelFetchTest.t)
    (version : ImageLoadStoreTest.VERSION) (coord_offset sample_offset : GLuint) :
  (coord_offset < 2 ^ 32)%N ->
  (sample_offset < 2 ^ 32)%N ->
  let coord_for v := if VERSION_eqb version v then decimal coord_offset
                     else lit "0" in
  let sample_for v := if VERSION_eqb version v then decimal sample_offset
                      else lit "0" in
  let shader image format copy :=
    Ok (image_shader image format (coord_for DESTINATION_INVALID)
                     (coord_for SOURCE_INVALID) copy) st in
  ImageLoadStoreTest.template_code
  = image_shader (lit "IMAGE") (lit "FORMAT") (lit "COORD_OFFSET")
                 (lit "COORD_OFFSET") (lit "COPY") /\
  getComputeShader self version coord_offset sample_offset st
  = match m_test_case self with
    | R8 => shader (lit "image2D") (lit "r8") (copy_texel (lit "vec4"))
    | RG8_SNORM =>
        shader (lit "image2D") (lit "rg8_snorm") (copy_texel (lit "vec4"))
    | RGBA32F =>
        shader (lit "image2D") (lit "rgba32f") (copy_texel (lit "vec4"))
    | R32UI_MIPMAP =>
        shader (lit "uimage2D") (lit "r32ui") (copy_texel (lit "uvec4"))
    | R32UI_MULTISAMPLE =>
        shader (lit "uimage2DMS") (lit "r32ui")
               (copy_samples (lit "uvec4") (sample_for SOURCE_INVALID)
                             (sample_for DESTINATION_INVALID))
    | LAST => Throw (tcu_TestError "Invalid enum") st
    end.
Proof.
  intros Hc Hs. cbv zeta. split; [vm_compute; reflexivity|].
  destruct (m_test_case self) eqn:Hcase.
  1, 2, 3, 4:
    rewrite getComputeShader_regular by (try assumption; congruence);
    rewrite Hcase; destruct version; reflexivity.
  - rewrite getComputeShader_multisample by assumption.
    destruct version; reflexivity.
  - unfold getComputeShader, getComputeShader_from. rewrite Hcase.
    destruct version; reflexivity.
Qed.

End ImageShader.

(** ** The loops over the test cases *)

Section Loops.
Context `{P : Platform}.

Import TexelFetchTest.

Variable value : TEST_CASES -> GLuint.
Variable body : GLuint -> bool -> M World bool.

(** One turn of the loop of [TexelFetchTest::iterate]. *)
Lemma TexelFetch_loop_turn (fuel : nat) (test_result : bool) (m : GLuint)
    (w : World) :
  TexelFetchIterate.iterate_loop value body (S fuel) test_result (m, w)
  = if (m <? value LAST)%N then
      if (value R32UI_MULTISAMPLE =? m)%N || (value RG8_SNORM =? m)%N
      then TexelFetchIterate.iterate_loop value body fuel test_result
             ((m + 1 + 1)%N, w)
      else match body m test_result w with
           | Ok r w1 =>
               TexelFetchIterate.iterate_loop value body fuel r ((m + 1)%N, w1)
           | Throw e w1 => Throw e (m, w1)
           end
    else Ok (Some test_result) (m, w).
Proof.
  cbn [TexelFetchIterate.iterate_loop].
  unfold bind at 1. unfold this at 1. cbn [fst].
  destruct (m <? _)%N; [|reflexivity].
  destruct (_ || _).
  - reflexivity.
  - unfold bind at 1. unfold inW, zoom. cbn [fst snd].
    destruct (body m test_result w); reflexivity.
Qed.

(** One turn of the loop of [ImageLoadStoreTest::iterate]. *)
Lemma ImageLoadStore_loop_turn (fuel : nat) (test_result : bool) (m : GLuint)
    (w : World) :
  ImageLoadStoreIterate.iterate_loop value body (S fuel) test_result (m, w)
  = if (m <? value LAST)%N then
      if (value R32UI_MULTISAMPLE =? m)%N
      then ImageLoadStoreIterate.iterate_loop value body fuel test_result
             ((m + 1 + 1)%N, w)
      else match body m test_result w with
           | Ok r w1 =>
               ImageLoadStoreIterate.iterate_loop value body fuel r
                 ((m + 1)%N, w1)
           | Throw e w1 => Throw e (m, w1)
           end
    else Ok (Some test_result) (m, w).
Proof.
  cbn [ImageLoadStoreIterate.iterate_loop].
  unfold bind at 1. unfold this at 1. cbn [fst].
  destruct (m <? _)%N; [|reflexivity].
  destruct (_ =? _)%N.
  - reflexivity.
  - unfold bind at 1. unfold inW, zoom. cbn [fst snd].
    destruct (body m test_result w); reflexivity.
Qed.

Lemma verdict_set (test_result : bool) (self : GLuint) (w : World) :
  (if Bool.eqb true test_result
   then inW (setTestResult QP_TEST_RESULT_PASS "Pass")
   else inW (setTestResult QP_TEST_RESULT_FAIL "Fail")) (self, w)
  = Ok tt (self, with_verdict test_result w).
Proof. destruct test_result; reflexivity. Qed.

Hypothesis Hvalue : declared_in_order value.

Lemma enumerator_values :
  value R8 = 0%N /\ value RG8_SNORM = 1%N /\ value RGBA32F = 2%N /\
  value R32UI_MIPMAP = 3%N /\ value R32UI_MULTISAMPLE = 4%N /\
  value LAST = 5%N.
Proof.
  unfold declared_in_order in Hvalue. cbn [map] in Hvalue.
  injection Hvalue as -> -> -> -> -> ->. repeat split.
Qed.

Lemma TexelFetch_iterate_loop_from_R8 (fuel : nat) (w : World) :
  (5 <= fuel)%nat ->
  TexelFetchIterate.iterate_loop value body fuel true (value R8, w)
  = match body (value R8) true w with
    | Throw e w1 => Throw e (value R8, w1)
    | Ok r1 w1 =>
        match body (value R32UI_MIPMAP) r1 w1 with
        | Throw e w2 => Throw e (value R32UI_MIPMAP, w2)
        | Ok r2 w2 => Ok (Some r2) ((value LAST + 1)%N, w2)
        end
    end.
Proof.
  intros Hfuel.
  do 5 (destruct fuel as [|fuel]; [lia|]). clear Hfuel.
  destruct enumerator_values as (V0 & V1 & V2 & V3 & V4 & V5).
  rewrite V0, V3, V5.
  rewrite TexelFetch_loop_turn. rewrite V1, V4, V5.
  cbv beta iota delta [N.ltb N.compare N.eqb Pos.compare Pos.compare_cont orb
    Pos.eqb].
  destruct (body 0%N true w) as [r1 w1|e w1]; [|reflexivity].
  rewrite TexelFetch_loop_turn. rewrite V1, V4, V5.
  change (0 + 1)%N with 1%N.
  cbv beta iota delta [N.ltb N.compare N.eqb Pos.compare Pos.compare_cont orb
    Pos.eqb].
  rewrite TexelFetch_loop_turn. rewrite V1, V4, V5.
  change (1 + 1 + 1)%N with 3%N.
  cbv beta iota delta [N.ltb N.compare N.eqb Pos.compare Pos.compare_cont orb
    Pos.eqb].
  destruct (body 3%N r1 w1) as [r2 w2|e w2]; [|reflexivity].
  rewrite TexelFetch_loop_turn. rewrite V1, V4, V5.
  change (3 + 1)%N with 4%N.
  cbv beta iota delta [N.ltb N.compare N.eqb Pos.compare Pos.compare_cont orb
    Pos.eqb].
  rewrite TexelFetch_loop_turn. rewrite V5.
  reflexivity.
Qed.

Lemma ImageLoadStore_iterate_loop_from_R8 (fuel : nat) (w : World) :
  (6 <= fuel)%nat ->
  ImageLoadStoreIterate.iterate_loop value body fuel true (value R8, w)
  = match body (value R8) true w with
    | Throw e w1 => Throw e (value R8, w1)
    | Ok r1 w1 =>
    match body (value RG8_SNORM) r1 w1 with
    | Throw e w2 => Throw e (value RG8_SNORM, w2)
    | Ok r2 w2 =>
    match body (value RGBA32F) r2 w2 with
    | Throw e w3 => Throw e (value RGBA32F, w3)
    | Ok r3 w3 =>
    match body (value R32UI_MIPMAP) r3 w3 with
    | Throw e w4 => Throw e (value R32UI_MIPMAP, w4)
    | Ok r4 w4 => Ok (Some r4) ((value LAST + 1)%N, w4)
    end end end end.
Proof.
  intros Hfuel.
  do 6 (destruct fuel as [|fuel]; [lia|]). clear Hfuel.
  destruct enumerator_values as (V0 & V1 & V2 & V3 & V4 & V5).
  rewrite V0, V1, V2, V3, V5.
  rewrite ImageLoadStore_loop_turn. rewrite V4, V5.
  cbv beta iota delta [N.ltb N.compare N.eqb Pos.compare Pos.compare_cont orb
    Pos.eqb].
  destruct (body 0%N true w) as [r1 w1|e w1]; [|reflexivity].
  rewrite ImageLoadStore_loop_turn. rewrite V4, V5.
  change (0 + 1)%N with 1%N.
  cbv beta iota delta [N.ltb N.compare N.eqb Pos.compare Pos.compare_cont orb
    Pos.eqb].
  destruct (body 1%N r1 w1) as [r2 w2|e w2]; [|reflexivity].
  rewrite ImageLoadStore_loop_turn. rewrite V4, V5.
  change (1 + 1)%N with 2%N.
  cbv beta iota delta [N.ltb N.compare N.eqb Pos.compare Pos.compare_cont orb
    Pos.eqb].
  destruct (body 2%N r2 w2) as [r3 w3|e w3]; [|reflexivity].
  rewrite ImageLoadStore_loop_turn. rewrite V4, V5.
  change (2 + 1)%N with 3%N.
  cbv beta iota delta [N.ltb N.compare N.eqb Pos.compare Pos.compare_cont orb
    Pos.eqb].
  destruct (body 3%N r3 w3) as [r4 w4|e w4]; [|reflexivity].
  rewrite ImageLoadStore_loop_turn. rewrite V4, V5.
  change (3 + 1)%N with 4%N.
  cbv beta iota delta [N.ltb N.compare N.eqb Pos.compare Pos.compare_cont orb
    Pos.eqb].
  rewrite ImageLoadStore_loop_turn. rewrite V5.
  reflexivity.
Qed.

(** X3.  [TexelFetchTest::iterate], started as the constructor leaves the
    object ([m_test_case] is R8) on a context that supports the feature,
    runs the statements of its loop for R8 and then for R32UI_MIPMAP, and
    for no other test case: RG8_SNORM and R32UI_MULTISAMPLE are skipped on
    purpose, and RGBA32F is skipped because the skip of RG8_SNORM increments
    [m_test_case] and the [continue] runs the increment of the loop once
    more.  The loop ends after at most five turns with [m_test_case] one
    above LAST; the test result is Pass when [test_result] is still true
    and Fail otherwise, and [iterate] returns STOP.  An exception ends
    [iterate] with [m_test_case] at the test case that threw.  The
    enumerators are assumed to have the values of a declaration in the
    order of the source's [switch] statements. *)
Theorem TexelFetchTest_iterate_runs_R8_and_mipmap (fuel : nat) (w : World) :
  (5 <= fuel)%nat ->
  feature_supported w ->
  TexelFetchIterate.iterate value body fuel (value R8, w)
  = match body (value R8) true w with
    | Throw e w1 => Throw e (value R8, w1)
    | Ok r1 w1 =>
        match body (value R32UI_MIPMAP) r1 w1 with
        | Throw e w2 => Throw e (value R32UI_MIPMAP, w2)
        | Ok r2 w2 =>
            Ok (Some STOP) ((value LAST + 1)%N, with_verdict r2 w2)
        end
    end.
Proof.
  intros Hfuel Hsup. unfold TexelFetchIterate.iterate.
  destruct (feature_check_outcome w) as [[Hrun _]|[_ Hnot]]; [|tauto].
  rewrite (bind_Ok _ _ _ _ _ (inW_Ok _ _ _ _ _ Hrun)). cbn [negb].
  unfold bind at 1. rewrite TexelFetch_iterate_loop_from_R8 by exact Hfuel.
  destruct (body _ true w) as [r1 w1|e w1]; [|reflexivity].
  destruct (body _ r1 w1) as [r2 w2|e w2]; [|reflexivity].
  unfold bind. rewrite verdict_set. reflexivity.
Qed.

(** X4.  [ImageLoadStoreTest::iterate], started with [m_test_case] at R8 on
    a context that supports the feature, runs the statements of its loop for
    R8, RG8_SNORM, RGBA32F and R32UI_MIPMAP, in this order, and never for
    R32UI_MULTISAMPLE: that case is skipped at the head of the loop, so the
    later tests for it inside the loop never hold.  The loop ends after at
    most six turns with [m_test_case] one above LAST; the verdict and the
    exceptions are as for [TexelFetchTest::iterate]. *)
Theorem ImageLoadStoreTest_iterate_skips_multisample (fuel : nat) (w : World) :
  (6 <= fuel)%nat ->
  feature_supported w ->
  ImageLoadStoreIterate.iterate value body fuel (value R8, w)
  = match body (value R8) true w with
    | Throw e w1 => Throw e (value R8, w1)
    | Ok r1 w1 =>
    match body (value RG8_SNORM) r1 w1 with
    | Throw e w2 => Throw e (value RG8_SNORM, w2)
    | Ok r2 w2 =>
    match body (value RGBA32F) r2 w2 with
    | Throw e w3 => Throw e (value RGBA32F, w3)
    | Ok r3 w3 =>
    match body (value R32UI_MIPMAP) r3 w3 with
    | Throw e w4 => Throw e (value R32UI_MIPMAP, w4)
    | Ok r4 w4 =>
        Ok (Some STOP) ((value LAST + 1)%N, with_verdict r4 w4)
    end end end end.
Proof.
  intros Hfuel Hsup. unfold ImageLoadStoreIterate.iterate.
  destruct (feature_check_outcome w) as [[Hrun _]|[_ Hnot]]; [|tauto].
  rewrite (bind_Ok _ _ _ _ _ (inW_Ok _ _ _ _ _ Hrun)). cbn [negb].
  unfold bind at 1. rewrite ImageLoadStore_iterate_loop_from_R8 by exact Hfuel.
  destruct (body _ true w) as [r1 w1|e w1]; [|reflexivity].
  destruct (body _ r1 w1) as [r2 w2|e w2]; [|reflexivity].
  destruct (body _ r2 w2) as [r3 w3|e w3]; [|reflexivity].
  destruct (body _ r3 w3) as [r4 w4|e w4]; [|reflexivity].
  unfold bind. rewrite verdict_set. reflexivity.
Qed.

End Loops.

(** ** Compilation and linking *)

(** The branch of [Compile] and [Link] that reports a failure does not
    return. *)
Ltac failure_branch :=
  let H := fresh in
  intros H; exfalso; revert H;
  unfold bind at 1; unfold gl_out_int at 1;
  unfold bind at 1; rewrite expect_no_error;
  destruct (_ =? GL_NO_ERROR)%N; [|discriminate];
  unfold bind at 1; unfold resize_empty;
  destruct (_ <? 0)%Z; [discriminate|]; unfold ret at 1;
  unfold bind at 1; unfold gl_out_bytes at 1;
  unfold bind at 1; rewrite expect_no_error;
  destruct (_ =? GL_NO_ERROR)%N; discriminate.

(** The steps of the branch of [Compile] and [Link] that reports a failure,
    on a driver that reports no error. *)
Ltac failure_steps Hfree :=
  cbn [negb Z.eqb GL_TRUE GL_FALSE];
  unfold bind at 1; unfold gl_out_int at 1;
  unfold bind at 1; rewrite expect_no_error_free by exact Hfree;
  unfold bind at 1; unfold resize_empty;
  (destruct (_ <? 0)%Z; [reflexivity|]); unfold ret at 1;
  unfold bind at 1; unfold gl_out_bytes at 1;
  unfold bind at 1; rewrite expect_no_error_free by exact Hfree;
  reflexivity.

Section CompileLink.
Context `{P : Platform}.

Lemma Compile_returns_iff (id : GLuint) (w w' : World) :
  Shader.Compile id w = Ok tt w' <->
  succeeds (compileShader id) w /\
  drv_out_int (getShaderiv id GL_COMPILE_STATUS)
              (gl_state (checked (compileShader id) w)) = Some GL_TRUE /\
  succeeds (getShaderiv id GL_COMPILE_STATUS) (checked (compileShader id) w) /\
  w' = checked (getShaderiv id GL_COMPILE_STATUS) (checked (compileShader id) w).
Proof.
  unfold Shader.Compile, succeeds, checked.
  unfold bind at 1. unfold gl at 1.
  unfold bind at 1. rewrite expect_no_error.
  destruct (N.eqb_spec (drv_value getError (gl_state (issue (compileShader id) w)))
              GL_NO_ERROR) as [E1|E1];
    [|split; [discriminate|tauto]].
  unfold bind at 1. unfold gl_out_int at 1.
  unfold bind at 1. rewrite expect_no_error.
  set (w2 := issue getError (issue (compileShader id) w)) in *.
  destruct (N.eqb_spec
              (drv_value getError
                 (gl_state (issue (getShaderiv id GL_COMPILE_STATUS) w2)))
              GL_NO_ERROR) as [E2|E2];
    [|split; [discriminate|tauto]].
  destruct (drv_out_int (getShaderiv id GL_COMPILE_STATUS) (gl_state w2))
    as [status|] eqn:Es.
  - destruct (Z.eqb_spec GL_TRUE status) as [E3|E3]; cbn [negb].
    + subst status. unfold ret. split.
      * intros [= <-]. auto.
      * intros (_ & _ & _ & ->). reflexivity.
    + split; [failure_branch|intros (_ & [= ->] & _); congruence].
  - cbn [negb Z.eqb GL_TRUE GL_FALSE].
    split; [failure_branch|intros (_ & [=] & _)].
Qed.

Lemma Link_returns_iff (id : GLuint) (w w' : World) :
  Program.Link id w = Ok tt w' <->
  succeeds (linkProgram id) w /\
  drv_out_int (getProgramiv id GL_LINK_STATUS)
              (gl_state (checked (linkProgram id) w)) = Some GL_TRUE /\
  succeeds (getProgramiv id GL_LINK_STATUS) (checked (linkProgram id) w) /\
  w' = checked (getProgramiv id GL_LINK_STATUS) (checked (linkProgram id) w).
Proof.
  unfold Program.Link, succeeds, checked.
  unfold bind at 1. unfold gl at 1.
  unfold bind at 1. rewrite expect_no_error.
  destruct (N.eqb_spec (drv_value getError (gl_state (issue (linkProgram id) w)))
              GL_NO_ERROR) as [E1|E1];
    [|split; [discriminate|tauto]].
  unfold bind at 1. unfold gl_out_int at 1.
  unfold bind at 1. rewrite expect_no_error.
  set (w2 := issue getError (issue (linkProgram id) w)) in *.
  destruct (N.eqb_spec
              (drv_value getError
                 (gl_state (issue (getProgramiv id GL_LINK_STATUS) w2)))
              GL_NO_ERROR) as [E2|E2];
    [|split; [discriminate|tauto]].
  destruct (drv_out_int (getProgramiv id GL_LINK_STATUS) (gl_state w2))
    as [status|] eqn:Es.
  - destruct (Z.eqb_spec GL_TRUE status) as [E3|E3]; cbn [negb].
    + subst status. unfold ret. split.
      * intros [= <-]. auto.
      * intros (_ & _ & _ & ->). reflexivity.
    + split; [failure_branch|intros (_ & [= ->] & _); congruence].
  - cbn [negb Z.eqb GL_TRUE GL_FALSE].
    split; [failure_branch|intros (_ & [=] & _)].
Qed.

(** X5.  [Shader::Compile] returns normally if and only if the error query
    after [glCompileShader] reports no error, the driver stores GL_TRUE as
    the compile status, and the error query after that [glGetShaderiv]
    reports no error; it has then issued these four calls and nothing else.
    A status the driver does not store counts as a failure (the variable is
    initialised to GL_FALSE).  [Program::Link] does the same with
    [glLinkProgram] and the link status.  In every other case they end with
    an exception. *)
Theorem Compile_and_Link_return_iff_success (id : GLuint) (w w' : World) :
  (Shader.Compile id w = Ok tt w' <->
   succeeds (compileShader id) w /\
   drv_out_int (getShaderiv id GL_COMPILE_STATUS)
               (gl_state (checked (compileShader id) w)) = Some GL_TRUE /\
   succeeds (getShaderiv id GL_COMPILE_STATUS) (checked (compileShader id) w) /\
   w' = checked (getShaderiv id GL_COMPILE_STATUS)
                (checked (compileShader id) w)) /\
  (Program.Link id w = Ok tt w' <->
   succeeds (linkProgram id) w /\
   drv_out_int (getProgramiv id GL_LINK_STATUS)
               (gl_state (checked (linkProgram id) w)) = Some GL_TRUE /\
   succeeds (getProgramiv id GL_LINK_STATUS) (checked (linkProgram id) w) /\
   w' = checked (getProgramiv id GL_LINK_STATUS) (checked (linkProgram id) w)).
Proof. split; [apply Compile_returns_iff|apply Link_returns_iff]. Qed.

(** X6.  On a driver that reports no GL error, a compilation whose status
    is not GL_TRUE makes [Shader::Compile] query the length of the info log,
    read the log into a string of that length and throw [tcu::TestError]
    with the log up to its first NUL as the message; when the driver reports
    a negative length, [std::string::resize] throws [std::length_error]
    before the log is read.  The shader is not deleted on the way.
    [Program::Link] treats a failed link in the same way. *)
Theorem failed_compilation_throws_info_log (id : GLuint) (w : World) :
  error_free ->
  (queried (getShaderiv id GL_COMPILE_STATUS) GL_FALSE
           (checked (compileShader id) w) <> GL_TRUE ->
   let asked :=
     checked (getShaderiv id GL_COMPILE_STATUS) (checked (compileShader id) w) in
   let length := queried (getShaderiv id GL_INFO_LOG_LENGTH) 0%Z asked in
   let told := checked (getShaderiv id GL_INFO_LOG_LENGTH) asked in
   Shader.Compile id w
   = if (length <? 0)%Z then Throw std_length_error told
     else Throw (tcu_TestError (info_log (getShaderInfoLog id length) length told))
                (checked (getShaderInfoLog id length) told)) /\
  (queried (getProgramiv id GL_LINK_STATUS) GL_FALSE
           (checked (linkProgram id) w) <> GL_TRUE ->
   let asked :=
     checked (getProgramiv id GL_LINK_STATUS) (checked (linkProgram id) w) in
   let length := queried (getProgramiv id GL_INFO_LOG_LENGTH) 0%Z asked in
   let told := checked (getProgramiv id GL_INFO_LOG_LENGTH) asked in
   Program.Link id w
   = if (length <? 0)%Z then Throw std_length_error told
     else Throw (tcu_TestError (info_log (getProgramInfoLog id length) length told))
                (checked (getProgramInfoLog id length) told)).
Proof.
  intros Hfree. split; intros Hstatus; cbv zeta;
    unfold Shader.Compile, Program.Link, checked, queried, info_log in *;
    unfold bind at 1; unfold gl at 1;
    unfold bind at 1; rewrite expect_no_error_free by exact Hfree;
    unfold bind at 1; unfold gl_out_int at 1;
    unfold bind at 1; rewrite expect_no_error_free by exact Hfree;
    match goal with
    | |- context [negb (GL_TRUE =? ?s)%Z] =>
        destruct (Z.eqb_spec GL_TRUE s) as [E|E]; [congruence|]
    end;
    failure_steps Hfree.
Qed.

End CompileLink.

(** ** The name a shader object holds *)

Section ShaderInit.
Context `{P : Platform}.

(** X7.  [Shader::Init] with a source that is not empty first releases the
    shader the object holds and then creates the new one.  When the creation
    fails, [Init] throws what [Shader::Create] throws and [m_id] is the
    invalid name.  When it succeeds, the object holds the name
    [glCreateShader] has returned, which is valid, whether [Init] then
    returns or throws: [Init] returns when setting the source and compiling
    return, and throws what they throw otherwise, so that after a failed
    compilation the destructor deletes the shader. *)
Theorem Shader_Init_holds_created_name (stage : GLenum) (source : std_string)
    (self : Shader.t) (w : World) :
  source <> [] ->
  let released := shader_released (Shader.m_id self) w in
  match Shader.Create stage released with
  | Ok id created =>
      id = drv_value (createShader stage) (gl_state released) /\
      id <> Shader.m_invalid_id /\
      match Shader.Init stage source (self, w) with
      | Ok _ (self', w') =>
          Shader.m_id self' = id /\
          (Shader.Source id source ;; Shader.Compile id) created = Ok tt w'
      | Throw e (self', w') =>
          Shader.m_id self' = id /\
          (Shader.Source id source ;; Shader.Compile id) created = Throw e w'
      end
  | Throw e failed =>
      Shader.Init stage source (self, w)
      = Throw e (Shader.mk Shader.m_invalid_id, failed)
  end.
Proof.
  intros Hsrc. cbv zeta.
  set (w0 := shader_released (Shader.m_id self) w).
  assert (Hinit :
    Shader.Init stage source (self, w)
    = match Shader.Create stage w0 with
      | Ok id created =>
          match (Shader.Source id source ;; Shader.Compile id) created with
          | Ok _ w' => Ok tt (Shader.mk id, w')
          | Throw e w' => Throw e (Shader.mk id, w')
          end
      | Throw e failed => Throw e (Shader.mk Shader.m_invalid_id, failed)
      end).
  { destruct source as [|c source]; [congruence|].
    unfold Shader.Init.
    rewrite (bind_Ok _ _ _ _ _ (Shader_Release_outcome _ _)). fold w0.
    unfold bind, inW, zoom, set_this. cbn [fst snd].
    destruct (Shader.Create stage w0) as [id created|e failed];
      [|reflexivity].
    cbn [fst snd].
    destruct (Shader.Source id (c :: source) created) as [[] w1|e w1];
      [|reflexivity].
    cbn [fst snd].
    destruct (Shader.Compile id w1) as [[] w2|e w2]; reflexivity. }
  rewrite Hinit. clear Hinit.
  assert (Hid : forall id created,
             Shader.Create stage w0 = Ok id created ->
             id = drv_value (createShader stage) (gl_state w0) /\
             id <> Shader.m_invalid_id).
  { unfold Shader.Create, bind, gl_value. rewrite expect_no_error.
    intros id created. destruct (_ =? GL_NO_ERROR)%N; [|discriminate].
    destruct (N.eqb_spec Shader.m_invalid_id
                (drv_value (createShader stage) (gl_state w0))) as [E|E];
      [discriminate|].
    unfold ret. intros [= <- <-]. split; [reflexivity|congruence]. }
  destruct (Shader.Create stage w0) as [id created|e failed];
    [|reflexivity].
  destruct (Hid id created eq_refl) as [Hval Hvalid].
  split; [exact Hval|]. split; [exact Hvalid|].
  destruct ((Shader.Source id source ;; Shader.Compile id) created)
    as [[] w'|e w']; split; reflexivity.
Qed.

End ShaderInit.

(** ** A program from its creation to its destruction *)

Section InitRelease.
Context `{P : Platform}.

Lemma is_delete_issue (c : GLCall) (w : World) :
  filter is_delete (gl_calls (issue c w))
  = filter is_delete (gl_calls w) ++ (if is_delete c then [c] else []).
Proof.
  unfold issue. cbn [gl_calls]. rewrite filter_app. cbn [filter].
  now destruct (is_delete c).
Qed.

Lemma shader_released_deletes (source : std_string) (sh : Shader.t) (w : World) :
  (Shader.m_id sh = Shader.m_invalid_id <-> source = []) ->
  filter is_delete (gl_calls (shader_released (Shader.m_id sh) w))
  = filter is_delete (gl_calls w) ++ deleted source sh.
Proof.
  intros H. unfold shader_released, deleted.
  destruct (N.eqb_spec Shader.m_invalid_id (Shader.m_id sh)) as [E|E].
  - rewrite (proj1 H) by congruence. now rewrite app_nil_r.
  - destruct source as [|c source].
    + exfalso. apply E. symmetry. now apply H.
    + now rewrite is_delete_issue.
Qed.

(** X8.  On a driver on which every step succeeds, [Program::Init] followed
    by the destructor deletes what [Init] created, once each: the destructor
    returns with every name invalid, and the [glDelete*] calls it issues are
    [glDeleteProgram] for the program and then one [glDeleteShader] for the
    shader of each stage whose source was not empty, in the order compute,
    fragment, geometry, tessellation control, tessellation evaluation,
    vertex. *)
Theorem Init_then_destructor_deletes_created
    (cs fs gs tcs tes vs : std_string) (self : Program.t) (w : World) :
  well_behaved ->
  exists self' w' w'',
    Program.Init cs fs gs tcs tes vs (self, w) = Ok tt (self', w') /\
    Program.destructor (self', w') = Ok tt (program_released, w'') /\
    filter is_delete (gl_calls w'')
    = filter is_delete (gl_calls w')
      ++ [deleteProgram (Program.m_id self')]
      ++ deleted cs (Program.m_compute self')
      ++ deleted fs (Program.m_fragment self')
      ++ deleted gs (Program.m_geometry self')
      ++ deleted tcs (Program.m_tess_ctrl self')
      ++ deleted tes (Program.m_tess_eval self')
      ++ deleted vs (Program.m_vertex self').
Proof.
  intros H.
  destruct (Program_Init_well_behaved cs fs gs tcs tes vs self w H)
    as (self' & w' & Hinit & Hid & Hc & Hf & Hg & Htc & Hte & Hv & _).
  exists self', w'. eexists. split; [exact Hinit|].
  unfold Program.destructor. rewrite Program_Release_outcome. cbv zeta.
  rewrite (proj2 (N.eqb_neq _ _)) by congruence.
  destruct H as (Herr & _). rewrite Herr, N.eqb_refl.
  split; [reflexivity|].
  unfold shaders_released.
  rewrite (shader_released_deletes vs), (shader_released_deletes tes),
    (shader_released_deletes tcs), (shader_released_deletes gs),
    (shader_released_deletes fs), (shader_released_deletes cs) by assumption.
  rewrite !is_delete_issue. cbn [is_delete].
  now rewrite !app_nil_r, <- !app_assoc.
Qed.

End InitRelease.

(** ** What the verification routines do to the world *)

Section VerifyEffects.
Context `{P : Platform}.

Lemma issue_calls (c : GLCall) (w : World) :
  gl_calls (issue c w) = gl_calls w ++ [c].
Proof. reflexivity. Qed.

(** X9.  [VertexBufferObjectsTest::verifyResults] touches nothing but the
    GL: the test result and the log stay as they are.  When it returns it
    has issued six calls: it binds the texture, checks for an error, reads
    level 0 back, checks, binds texture 0 and checks.  When it throws, the
    exception is the [glu::Error] of the check that failed, with the message
    of the wrapper ("BindTexture" or "GetTexImage"), and the calls issued are
    those up to that check; after a failed read-back the texture is still
    bound, since the unbinding is not reached. *)
Theorem verifyResults_call_trace (texture_id : GLuint) (w : World) :
  match VertexBufferObjectsTest.verifyResults texture_id w with
  | Ok _ w' =>
      issued w w' (verifyResults_calls texture_id) /\ same_test_state w w'
  | Throw e w' =>
      same_test_state w w' /\
      exists err n,
        err <> GL_NO_ERROR /\
        issued w w' (firstn n (verifyResults_calls texture_id)) /\
        (n = 2%nat /\ e = glu_Error err "BindTexture" \/
         n = 4%nat /\ e = glu_Error err "GetTexImage" \/
         n = 6%nat /\ e = glu_Error err "BindTexture")
  end.
Proof.
  unfold VertexBufferObjectsTest.verifyResults, Texture.Bind, Texture.GetData,
    issued, verifyResults_calls.
  unfold bind at 1. unfold bind at 1. unfold gl at 1. rewrite expect_no_error.
  destruct (N.eqb_spec (drv_value getError
              (gl_state (issue (bindTexture GL_TEXTURE_2D texture_id) w)))
              GL_NO_ERROR) as [E1|E1].
  2: { split; [repeat split|]. eexists _, 2%nat. split; [exact E1|].
       split; [|left; split; reflexivity].
       rewrite !issue_calls, <- !app_assoc. reflexivity. }
  unfold bind at 1. unfold bind at 1. unfold gl_out_bytes at 1.
  unfold bind at 1. rewrite expect_no_error.
  match goal with
  | |- context [(?x =? GL_NO_ERROR)%N] =>
      destruct (N.eqb_spec x GL_NO_ERROR) as [E2|E2]
  end.
  2: { split; [repeat split|]. eexists _, 4%nat. split; [exact E2|].
       split; [|right; left; split; reflexivity].
       rewrite !issue_calls, <- !app_assoc. reflexivity. }
  unfold ret at 1.
  unfold bind at 1. unfold bind at 1. unfold gl at 1. rewrite expect_no_error.
  match goal with
  | |- context [(?x =? GL_NO_ERROR)%N] =>
      destruct (N.eqb_spec x GL_NO_ERROR) as [E3|E3]
  end.
  2: { split; [repeat split|]. eexists _, 6%nat. split; [exact E3|].
       split; [|right; right; split; reflexivity].
       rewrite !issue_calls, <- !app_assoc. reflexivity. }
  unfold ret. split; [|repeat split].
  rewrite !issue_calls, <- !app_assoc. reflexivity.
Qed.

Lemma logged_refl (w : World) : logged w w [].
Proof. unfold logged. rewrite app_nil_r. repeat split. Qed.

Lemma logged_step (w w' : World) (lines : list string) (msg : string) :
  logged w w' lines ->
  exists w'', log_message msg w' = Ok tt w'' /\ logged w w'' (lines ++ [msg]).
Proof.
  intros (H1 & H2 & H3 & H4 & H5 & H6).
  eexists. split; [reflexivity|]. unfold logged. cbn.
  rewrite H6, app_assoc. repeat split; assumption.
Qed.

(** A loop that logs the same line in some of its turns. *)
Lemma for_each_logs (msg : string) (test : nat -> bool) (l : list nat)
    (w0 w : World) (lines : list string) :
  logged w0 w lines ->
  exists w',
    for_each l (fun i => if test i then log_message msg else ret tt) w
    = Ok tt w' /\
    logged w0 w' (lines ++ repeat msg (List.length (filter test l))).
Proof.
  revert w lines; induction l as [|i l IH]; intros w lines H; cbn [for_each].
  - exists w. cbn. rewrite app_nil_r. split; [reflexivity|exact H].
  - unfold bind. cbn [filter]. destruct (test i).
    + destruct (logged_step _ _ _ msg H) as (w1 & -> & H1).
      destruct (IH w1 _ H1) as (w' & -> & H').
      exists w'. split; [reflexivity|].
      cbn [List.length repeat]. now rewrite <- app_assoc in H'.
    + unfold ret at 1. apply IH. exact H.
Qed.

Lemma for_each_ext {St} (l : list nat) (f g : nat -> M St unit) (s : St) :
  (forall i, In i l -> forall s', f i s' = g i s') ->
  for_each l f s = for_each l g s.
Proof.
  revert s; induction l as [|i l IH]; intros s H; cbn [for_each]; [reflexivity|].
  unfold bind. rewrite (H i (or_introl eq_refl)).
  destruct (g i s); [|reflexivity]. apply IH. intros j Hj. apply H. now right.
Qed.

(** X10.  [UniformBufferTest::verifyResults] never touches the GL or the
    test result, whatever the buffer holds: it returns for VALID and
    SOURCE_INVALID, having logged nothing when the result is true and the one
    line "Test case: ... failed" when it is false, and for any other test
    case it throws [tcu::TestError] ("Invalid enum") with nothing changed. *)
Theorem UniformBufferTest_verifyResults_only_logs
    (self : UniformBufferTest.t) (buffer_data : list Byte.byte) (w : World) :
  match UniformBufferTest.verifyResults self buffer_data w with
  | Ok b w' =>
      UniformBufferTest.m_test_case self <> UniformBufferTest.LAST /\
      logged w w'
        (if b then []
         else match UniformBufferTest.m_test_case self with
              | UniformBufferTest.VALID => ["Test case: valid indices failed"]
              | _ => ["Test case: invalid source indices failed"]
              end)
  | Throw e w' =>
      UniformBufferTest.m_test_case self = UniformBufferTest.LAST /\
      e = tcu_TestError "Invalid enum" /\ w' = w
  end.
Proof.
  unfold UniformBufferTest.verifyResults.
  destruct (UniformBufferTest.m_test_case self);
    unfold bind at 1; cbn [ret TCU_FAIL throw]; cbv beta iota;
    try (repeat split; reflexivity);
    destruct (negb _); unfold bind, log_message, ret;
    (split; [discriminate|]); unfold logged; cbn;
    rewrite ?app_nil_r; repeat split.
Qed.

(** X11.  [StorageBufferTest::verifyResults] never touches the GL or the
    test result, whatever the buffer holds, and throws ("Invalid enum",
    nothing changed) exactly for a test case that is none of the three.  On
    the [memcmp] path it logs nothing when it returns true and the one line
    "Test case: ... failed" when it returns false.  On the KHR path (the flag
    is set and the test case is not VALID) it returns true and logs that line
    once for each of the four elements that is neither the fallback value of
    the test case (0.0 for SOURCE_INVALID, 1.0 for DESTINATION_INVALID) nor a
    value of the source buffer. *)
Theorem StorageBufferTest_verifyResults_only_logs
    (self : StorageBufferTest.t) (buffer_data : list Byte.byte) (w : World) :
  let test_case := StorageBufferTest.m_test_case self in
  match StorageBufferTest.verifyResults self buffer_data w with
  | Ok b w' =>
      test_case <> StorageBufferTest.LAST /\
      (if StorageBufferTest.m_hasKhrRobustBufferAccess self
          && negb (StorageBufferTest.VERSION_eqb test_case StorageBufferTest.VALID)
       then b = true /\
            logged w w'
              (repeat (storage_failed_line test_case)
                 (List.length (filter (rejected test_case buffer_data) (seq 0 4))))
       else logged w w' (if b then [] else [storage_failed_line test_case]))
  | Throw e w' =>
      test_case = StorageBufferTest.LAST /\
      e = tcu_TestError "Invalid enum" /\ w' = w
  end.
Proof.
  cbv zeta. unfold StorageBufferTest.verifyResults.
  destruct (StorageBufferTest.m_test_case self) eqn:Hcase;
    [| | |repeat split; reflexivity];
    destruct (StorageBufferTest.m_hasKhrRobustBufferAccess self);
    cbn [andb negb StorageBufferTest.VERSION_eqb];
    unfold bind at 1.
  1, 2, 4, 6:
    cbn [ret]; cbv beta iota;
    destruct (negb _); unfold bind, log_message, ret;
    (split; [discriminate|]); unfold logged; cbn;
    rewrite ?app_nil_r; repeat split.
  - unfold bind at 1.
    rewrite for_each_ext
      with (g := fun i => if rejected StorageBufferTest.SOURCE_INVALID buffer_data i
                          then log_message
                                 (StorageBufferTest.failed_message
                                    "invalid source indices")
                          else ret tt).
    + destruct (for_each_logs
                  (StorageBufferTest.failed_message "invalid source indices")
                  (rejected StorageBufferTest.SOURCE_INVALID buffer_data)
                  (seq 0 4) w w [] (logged_refl w)) as (w' & -> & Hlog).
      cbn [ret]. cbv beta iota. unfold ret.
      split; [discriminate|]. split; [reflexivity|]. exact Hlog.
    + intros i _ s'. cbv zeta. unfold rejected.
      rewrite match_source_in_source_buffer.
      destruct (Float32.eqb (Float32.load buffer_data i) Float32.f_0_0);
        cbn [orb negb]; reflexivity.
  - unfold bind at 1.
    rewrite for_each_ext
      with (g := fun i =>
                   if rejected StorageBufferTest.DESTINATION_INVALID buffer_data i
                   then log_message
                          (StorageBufferTest.failed_message
                             "invalid destination indices")
                   else ret tt).
    + destruct (for_each_logs
                  (StorageBufferTest.failed_message "invalid destination indices")
                  (rejected StorageBufferTest.DESTINATION_INVALID buffer_data)
                  (seq 0 4) w w [] (logged_refl w)) as (w' & -> & Hlog).
      cbn [ret]. cbv beta iota. unfold ret.
      split; [discriminate|]. split; [reflexivity|]. exact Hlog.
    + intros i Hi s'. cbv zeta. unfold rejected.
      rewrite match_source_in_source_buffer.
      assert (Hd : nth i StorageBufferTest.m_destination_data Float32.f_0_0
                   = Float32.f_1_0).
      { apply in_seq in Hi.
        do 4 (destruct i as [|i]; [reflexivity|]). lia. }
      rewrite Hd.
      destruct (Float32.eqb (Float32.load buffer_data i) Float32.f_1_0);
        cbn [orb negb]; reflexivity.
Qed.

End VerifyEffects.


(** ** TexelFetchTest: verification of the fetched image *)

Section TexelFetchVerifyFacts.
Context `{P : Platform}.

Import TexelFetchTest.
Import TexelFetchVerify.

(** The loop returns true when no texel is a mismatch; otherwise it logs the
    message of the first mismatch, and only that, and returns false. *)
Lemma verify_loop_outcome (mismatch : nat -> option string) (n i : nat)
    (w : World) :
  (forall j, (i <= j < i + n)%nat -> mismatch j = None) /\
  verify_loop mismatch i n w = Ok true w
  \/
  exists j message w',
    (i <= j < i + n)%nat /\ mismatch j = Some message /\
    (forall k, (i <= k < j)%nat -> mismatch k = None) /\
    verify_loop mismatch i n w = Ok false w' /\ logged w w' [message].
Proof.
  revert i; induction n as [|n IH]; intros i; cbn [verify_loop].
  - left. split; [intros j Hj; lia|reflexivity].
  - destruct (mismatch i) as [message|] eqn:E.
    + right. exists i, message. eexists. split; [lia|]. split; [exact E|].
      split; [intros k Hk; lia|]. split; [reflexivity|].
      unfold logged. cbn. repeat split.
    + destruct (IH (S i))
        as [[Hall Hrun]|(j & message & w' & Hj & Hm & Hfirst & Hrun & Hlog)].
      * left. split; [|exact Hrun].
        intros j Hj. destruct (Nat.eq_dec j i) as [->|Hne]; [exact E|].
        apply Hall. lia.
      * right. exists j, message, w'. split; [lia|]. split; [exact Hm|].
        split; [|split; assumption].
        intros k Hk. destruct (Nat.eq_dec k i) as [->|Hne]; [exact E|].
        apply Hfirst. lia.
Qed.

(** What a routine does with one image: the texture is bound, read back and
    unbound, and the array read is searched for the first mismatch. *)
Lemma read_and_verify_outcome (texture_id : GLuint) (level : GLint)
    (format type : GLenum) (pixels : list Byte.byte)
    (mismatch : list Byte.byte -> nat -> option string) (w : World) :
  let run :=
    (Texture.Bind texture_id GL_TEXTURE_2D ;;
     pixels <- Texture.GetData level GL_TEXTURE_2D format type pixels ;;
     Texture.Bind 0%N GL_TEXTURE_2D ;;
     verify_loop (mismatch pixels) 0 n_pixels) w in
  let drawn := read_back texture_id level format type pixels w in
  match run with
  | Ok result w' =>
      issued w w' (read_back_calls texture_id level format type) /\
      ctx_extensions w' = ctx_extensions w /\ ctx_type w' = ctx_type w /\
      test_result w' = test_result w /\
      if result
      then (forall i, (i < n_pixels)%nat -> mismatch drawn i = None) /\
           test_log w' = test_log w
      else exists i message,
             (i < n_pixels)%nat /\ mismatch drawn i = Some message /\
             (forall k, (k < i)%nat -> mismatch drawn k = None) /\
             test_log w' = test_log w ++ [message]
  | Throw e w' =>
      exists err message,
        e = glu_Error err message /\ err <> GL_NO_ERROR /\
        (message = "BindTexture" \/ message = "GetTexImage") /\
        same_test_state w w'
  end.
Proof.
  cbv zeta. unfold Texture.Bind, Texture.GetData, read_back, checked.
  unfold bind at 1. unfold bind at 1. unfold gl at 1. rewrite expect_no_error.
  check_error.
  2: { eexists _, _. split; [reflexivity|]. split; [assumption|].
       split; [auto|repeat split]. }
  unfold bind at 1. unfold bind at 1. unfold gl_out_bytes at 1.
  unfold bind at 1. rewrite expect_no_error.
  check_error.
  2: { eexists _, _. split; [reflexivity|]. split; [assumption|].
       split; [auto|repeat split]. }
  unfold ret at 1.
  unfold bind at 1. unfold bind at 1. unfold gl at 1. rewrite expect_no_error.
  check_error.
  2: { eexists _, _. split; [reflexivity|]. split; [assumption|].
       split; [auto|repeat split]. }
  match goal with
  | |- context [verify_loop ?m 0 n_pixels ?w3] =>
      destruct (verify_loop_outcome m n_pixels 0 w3)
        as [[Hall ->]|(j & message & w' & Hj & Hm & Hfirst & -> & Hlog)]
  end.
  - unfold issued, read_back_calls. cbn [gl_calls issue ctx_extensions ctx_type
      test_result test_log].
    rewrite <- !app_assoc. repeat split.
    intros i Hi. apply Hall. lia.
  - destruct Hlog as (_ & Hc & He & Ht & Hr & Hl).
    unfold issued, read_back_calls. rewrite Hc, He, Ht, Hr, Hl.
    cbn [gl_calls issue ctx_extensions ctx_type test_result test_log].
    rewrite <- !app_assoc. repeat split.
    exists j, message. split; [lia|]. split; [exact Hm|].
    split; [|reflexivity]. intros k Hk. apply Hfirst. lia.
Qed.


(** The verdict of a routine, from the outcome of its loop. *)
Lemma verdict_iff (result : bool) (n : nat) (mismatch : nat -> option string)
    (expected : nat -> Prop) (l l' : list string) :
  (forall i, (i < n)%nat -> mismatch i = None <-> expected i) ->
  (if result then (forall i, (i < n)%nat -> mismatch i = None) /\ l' = l
   else exists i message,
          (i < n)%nat /\ mismatch i = Some message /\
          (forall k, (k < i)%nat -> mismatch k = None) /\
          l' = l ++ [message]) ->
  result = true <-> forall i, (i < n)%nat -> expected i.
Proof.
  intros Hok H. destruct result.
  - destruct H as [H _]. split; [|reflexivity].
    intros _ i Hi. apply Hok; auto.
  - destruct H as (i & message & Hi & Hm & _). split; [discriminate|].
    intros Hall. pose proof (proj2 (Hok i Hi) (Hall i Hi)). congruence.
Qed.


Lemma differ_false (a b : Byte.byte) : differ a b = false <-> b = a.
Proof.
  unfold differ. destruct (N.eqb_spec (Byte.to_N a) (Byte.to_N b)) as [E|E];
    cbn [negb]; split; try discriminate; try reflexivity.
  - intros _. symmetry. now apply to_N_inj.
  - intros ->. congruence.
Qed.

Lemma GLbyte_value_inj (a b : Byte.byte) :
  GLbyte_value a = GLbyte_value b -> a = b.
Proof.
  unfold GLbyte_value. cbv zeta. intros H. apply to_N_inj.
  pose proof (Byte.to_N_bounded a) as Ha. pose proof (Byte.to_N_bounded b) as Hb.
  revert H Ha Hb. generalize (Byte.to_N a) (Byte.to_N b). intros x y.
  destruct (Z.ltb_spec (Z.of_N x) 128), (Z.ltb_spec (Z.of_N y) 128); lia.
Qed.

(** [static_cast<GLubyte>(x - 8)] for an unsigned [x] below 16, read as a
    [GLbyte], is [x - 8]. *)
Lemma GLbyte_value_minus_8 (x : N) :
  (x < 16)%N ->
  GLbyte_value (GLubyte_of ((x + 2 ^ 32 - 8) mod 2 ^ 32)) = (Z.of_N x - 8)%Z.
Proof.
  intros H. unfold GLbyte_value, GLubyte_of. cbv zeta. rewrite to_N_byte_of.
  change (2 ^ 32)%N with 4294967296%N.
  assert (E : (((x + 4294967296 - 8) mod 4294967296) mod 256
               = if x <? 8 then x + 248 else x - 8)%N).
  { destruct (N.ltb_spec x 8).
    - rewrite (N.mod_small (x + 4294967296 - 8) 4294967296) by lia.
      replace (x + 4294967296 - 8)%N with (x + 248 + 16777215 * 256)%N by lia.
      rewrite N.Div0.mod_add. apply N.mod_small. lia.
    - replace (x + 4294967296 - 8)%N with (x - 8 + 1 * 4294967296)%N by lia.
      rewrite N.Div0.mod_add, (N.mod_small (x - 8) 4294967296) by lia.
      apply N.mod_small. lia. }
  rewrite E. destruct (N.ltb_spec x 8);
    match goal with |- context [(?a <? 128)%Z] => destruct (Z.ltb_spec a 128) end;
    lia.
Qed.

Lemma signed_texel (x : N) (drawn : Byte.byte) :
  (x < 16)%N ->
  differ (GLubyte_of ((x + 2 ^ 32 - 8) mod 2 ^ 32)) drawn = false
  <-> GLbyte_value drawn = (Z.of_N x - 8)%Z.
Proof.
  intros H. rewrite differ_false, <- (GLbyte_value_minus_8 x H). split.
  - now intros ->.
  - apply GLbyte_value_inj.
Qed.

Lemma nth_overlay {A} (data buf : list A) (d : A) (i : nat) :
  nth i (overlay data buf) d
  = if (i <? List.length data)%nat then
      if (i <? List.length buf)%nat then nth i data d else d
    else nth i buf d.
Proof.
  unfold overlay. revert buf i; induction data as [|a data IH]; intros buf i.
  - cbn [List.length skipn]. rewrite firstn_nil. reflexivity.
  - destruct buf as [|b buf].
    + cbn [List.length firstn skipn app].
      change (i <? 0)%nat with false.
      destruct (i <? _)%nat; now destruct i.
    + cbn [List.length firstn skipn app]. destruct i as [|i]; [reflexivity|].
      cbn [nth]. rewrite IH. reflexivity.
Qed.

Lemma nth_ramp (i : nat) :
  (i < 256)%nat -> nth i ramp Byte.x00 = GLubyte_of (N.of_nat i).
Proof.
  intros H. unfold ramp.
  change Byte.x00 with ((fun i => GLubyte_of (N.of_nat i)) 0%nat).
  rewrite map_nth, seq_nth by exact H. reflexivity.
Qed.

Lemma ramp_length : List.length ramp = 256%nat.
Proof. reflexivity. Qed.

Lemma no_message {A} (c : bool) (x : A) (Q : Prop) :
  (c = false <-> Q) -> (if c then Some x else None) = None <-> Q.
Proof.
  intros H. destruct c; split; try reflexivity; try discriminate.
  - intros HQ. apply H in HQ. discriminate.
  - intros _. now apply H.
Qed.

Lemma signed_texels (i : nat) (red green : Byte.byte) :
  (i < 256)%nat ->
  differ (GLubyte_of ((N.of_nat i mod 16 + 2 ^ 32 - 8) mod 2 ^ 32)) red
  || differ (GLubyte_of ((N.of_nat i / 16 + 2 ^ 32 - 8) mod 2 ^ 32)) green
  = false
  <-> GLbyte_value red = (Z.of_nat i mod 16 - 8)%Z /\
      GLbyte_value green = (Z.of_nat i / 16 - 8)%Z.
Proof.
  intros Hi. rewrite orb_false_iff, !signed_texel.
  - rewrite N2Z.inj_mod, N2Z.inj_div, nat_N_Z. reflexivity.
  - apply N.Div0.div_lt_upper_bound. lia.
  - apply N.mod_lt. discriminate.
Qed.

End TexelFetchVerifyFacts.

(** The outcome of the read-back of a routine, for the run in hypothesis
    [Hrun]. *)
Ltac read_back_outcome Hrun H :=
  match type of Hrun with
  | bind (Texture.Bind ?id _)
      (fun _ => bind (Texture.GetData ?level _ ?format ?type ?pixels)
       (fun p => bind _ (fun _ =>
          TexelFetchVerify.verify_loop (@?m p) _ _))) ?w = Ok ?result ?w' =>
      pose proof (read_and_verify_outcome id level format type pixels m w) as H;
      cbv beta zeta in H;
      match type of H with
      | match ?r with _ => _ end =>
          let E := fresh in
          assert (E : r = Ok result w') by exact Hrun;
          rewrite E in H; clear E
      end
  end.

Section TexelFetchVerifyR8.
Context `{P : Platform}.

Import TexelFetchVerify.

(** The verdict on the one-channel byte image. *)
Lemma check_R8_verdict (texture_id : GLuint) (expected : nat -> GLubyte)
    (w w' : World) (result : bool) :
  check_R8 texture_id expected w = Ok result w' ->
  result = true <->
  forall i, (i < 256)%nat ->
    nth i (read_back texture_id 0%Z GL_RED GL_UNSIGNED_BYTE ramp w) Byte.x00
    = expected i.
Proof.
  intros Hrun. unfold check_R8 in Hrun. cbv zeta in Hrun.
  change (map _ (seq 0 n_pixels)) with ramp in Hrun.
  read_back_outcome Hrun H.
  destruct H as (_ & _ & _ & _ & H).
  eapply verdict_iff; [|exact H].
  intros i _. cbv beta. apply no_message, differ_false.
Qed.

(** A byte of the array read back is the one the driver stored, or, past the
    end of what it stored, the one the array was filled with. *)
Lemma nth_read_back_R8 (texture_id : GLuint) (w : World) (i : nat) :
  (i < 256)%nat ->
  let stored :=
    drv_out_bytes (getTexImage GL_TEXTURE_2D 0 GL_RED GL_UNSIGNED_BYTE)
      (gl_state (checked (bindTexture GL_TEXTURE_2D texture_id) w)) in
  nth i (read_back texture_id 0%Z GL_RED GL_UNSIGNED_BYTE ramp w) Byte.x00
  = if (i <? List.length stored)%nat then nth i stored Byte.x00
    else GLubyte_of (N.of_nat i).
Proof.
  intros Hi. cbv zeta. unfold read_back.
  rewrite nth_overlay, ramp_length, nth_ramp by exact Hi.
  apply Nat.ltb_lt in Hi. rewrite Hi. reflexivity.
Qed.

Lemma GLubyte_of_nonzero (i : nat) :
  (0 < i < 256)%nat -> GLubyte_of (N.of_nat i) <> Byte.x00.
Proof.
  intros Hi E. apply (f_equal Byte.to_N) in E.
  unfold GLubyte_of in E. rewrite to_N_byte_of, N.mod_small in E by lia.
  change (Byte.to_N Byte.x00) with 0%N in E. lia.
Qed.

End TexelFetchVerifyR8.

Section TexelFetchVerifyProperties.
Context `{P : Platform}.

Import TexelFetchTest.
Import TexelFetchVerify.

Variable rgba32f multisample : GLuint -> M World bool.

(** X12.  [TexelFetchTest::verifyValidResults] returns true exactly when the
    image read back holds the values the valid fetch draws: for R8 texel [i]
    is the byte [i]; for RG8_SNORM its two channels are [i mod 16 - 8] and
    [i / 16 - 8]; for R32UI_MIPMAP integer [i] of level 1 is [i].  For a test
    case beyond the last image it returns true and does nothing. *)
Theorem verifyValidResults_accepts_drawn_values (self : TexelFetchTest.t)
    (texture_id : GLuint) (w w' : World) (result : bool) :
  verifyValidResults rgba32f multisample self texture_id w = Ok result w' ->
  match m_test_case self with
  | R8 =>
      let drawn := read_back texture_id 0%Z GL_RED GL_UNSIGNED_BYTE ramp w in
      result = true <->
      forall i, (i < 256)%nat ->
        nth i drawn Byte.x00 = GLubyte_of (N.of_nat i)
  | RG8_SNORM =>
      let drawn := read_back texture_id 0%Z GL_RG GL_BYTE ramp2 w in
      result = true <->
      forall i, (i < 256)%nat ->
        GLbyte_value (nth (2 * i) drawn Byte.x00)
        = (Z.of_nat i mod 16 - 8)%Z /\
        GLbyte_value (nth (2 * i + 1) drawn Byte.x00)
        = (Z.of_nat i / 16 - 8)%Z
  | R32UI_MIPMAP =>
      let drawn := read_back texture_id 1%Z GL_RED_INTEGER GL_UNSIGNED_INT
                     (repeat Byte.x00 4096) w in
      result = true <->
      forall i, (i < 256)%nat -> GLuint_load drawn i = N.of_nat i
  | RGBA32F | R32UI_MULTISAMPLE => True
  | LAST => result = true /\ w' = w
  end.
Proof.
  unfold verifyValidResults.
  destruct (m_test_case self); cbv beta iota zeta delta [TEST_CASES_eqb];
    intros Hrun; try exact I.
  - exact (check_R8_verdict _ _ _ _ _ Hrun).
  - unfold check_RG8_SNORM in Hrun. cbv beta iota zeta in Hrun.
    change (flat_map _ (seq 0 n_pixels)) with ramp2 in Hrun.
    read_back_outcome Hrun H.
    destruct H as (_ & _ & _ & _ & H).
    eapply verdict_iff; [|exact H].
    intros i Hi. cbv beta.
    rewrite Nat.add_0_r, (Nat.mul_comm i 2).
    apply no_message, signed_texels. exact Hi.
  - unfold check_R32UI_MIPMAP in Hrun. cbv beta iota zeta in Hrun.
    change (repeat Byte.x00 (4 * (n_pixels * 4)))
      with (repeat Byte.x00 4096) in Hrun.
    read_back_outcome Hrun H.
    destruct H as (_ & _ & _ & _ & H).
    eapply verdict_iff; [|exact H].
    intros i _. cbv beta. apply no_message.
    rewrite negb_false_iff, N.eqb_eq. split; congruence.
  - injection Hrun as <- <-. split; reflexivity.
Qed.

(** X13.  [TexelFetchTest::verifyInvalidResults] returns true exactly when
    every texel read back is zero: the 256 bytes for R8, both channels of the
    256 texels for RG8_SNORM, the 256 integers of level 1 for R32UI_MIPMAP.
    For a test case beyond the last image it returns true and does
    nothing. *)
Theorem verifyInvalidResults_accepts_zeros (self : TexelFetchTest.t)
    (texture_id : GLuint) (w w' : World) (result : bool) :
  verifyInvalidResults rgba32f multisample self texture_id w = Ok result w' ->
  match m_test_case self with
  | R8 =>
      let drawn := read_back texture_id 0%Z GL_RED GL_UNSIGNED_BYTE ramp w in
      result = true <->
      forall i, (i < 256)%nat -> nth i drawn Byte.x00 = Byte.x00
  | RG8_SNORM =>
      let drawn := read_back texture_id 0%Z GL_RG GL_BYTE ramp2 w in
      result = true <->
      forall i, (i < 256)%nat ->
        nth (2 * i) drawn Byte.x00 = Byte.x00 /\
        nth (2 * i + 1) drawn Byte.x00 = Byte.x00
  | R32UI_MIPMAP =>
      let drawn := read_back texture_id 1%Z GL_RED_INTEGER GL_UNSIGNED_INT
                     ramp_uint w in
      result = true <->
      forall i, (i < 256)%nat -> GLuint_load drawn i = 0%N
  | RGBA32F | R32UI_MULTISAMPLE => True
  | LAST => result = true /\ w' = w
  end.
Proof.
  unfold verifyInvalidResults.
  destruct (m_test_case self); cbv beta iota zeta delta [TEST_CASES_eqb];
    intros Hrun; try exact I.
  - exact (check_R8_verdict _ _ _ _ _ Hrun).
  - unfold check_RG8_SNORM in Hrun. cbv beta iota zeta in Hrun.
    change (flat_map _ (seq 0 n_pixels)) with ramp2 in Hrun.
    read_back_outcome Hrun H.
    destruct H as (_ & _ & _ & _ & H).
    eapply verdict_iff; [|exact H].
    intros i _. cbv beta.
    rewrite Nat.add_0_r, (Nat.mul_comm i 2).
    apply no_message. rewrite orb_false_iff, !differ_false. reflexivity.
  - unfold check_R32UI_MIPMAP in Hrun. cbv beta iota zeta in Hrun.
    change (flat_map _ (seq 0 n_pixels)) with ramp_uint in Hrun.
    read_back_outcome Hrun H.
    destruct H as (_ & _ & _ & _ & H).
    eapply verdict_iff; [|exact H].
    intros i _. cbv beta. apply no_message.
    rewrite negb_false_iff, N.eqb_eq. split; congruence.
  - injection Hrun as <- <-. split; reflexivity.
Qed.




(** X15.  For R8 [verifyValidResults] fills the array with the very values it
    expects before the read-back, so that only the bytes the driver stores
    are put to the test: the result is true exactly when each of them is its
    own offset, and a read-back that stores nothing is accepted. *)
Theorem verifyValidResults_R8_tests_stored_bytes_only
    (self : TexelFetchTest.t) (texture_id : GLuint) (w w' : World)
    (result : bool) :
  m_test_case self = R8 ->
  verifyValidResults rgba32f multisample self texture_id w = Ok result w' ->
  let stored :=
    drv_out_bytes (getTexImage GL_TEXTURE_2D 0 GL_RED GL_UNSIGNED_BYTE)
      (gl_state (checked (bindTexture GL_TEXTURE_2D texture_id) w)) in
  (result = true <->
   forall i, (i < 256)%nat -> (i < List.length stored)%nat ->
     nth i stored Byte.x00 = GLubyte_of (N.of_nat i)) /\
  (stored = [] -> result = true).
Proof.
  intros Hcase Hrun. cbv zeta. unfold verifyValidResults in Hrun.
  rewrite Hcase in Hrun. cbv beta iota zeta delta [TEST_CASES_eqb] in Hrun.
  apply check_R8_verdict in Hrun.
  assert (Hiff : result = true <->
                 forall i, (i < 256)%nat ->
                   (i < List.length
                          (drv_out_bytes
                             (getTexImage GL_TEXTURE_2D 0 GL_RED GL_UNSIGNED_BYTE)
                             (gl_state (checked (bindTexture GL_TEXTURE_2D
                                                   texture_id) w))))%nat ->
                   nth i (drv_out_bytes
                            (getTexImage GL_TEXTURE_2D 0 GL_RED GL_UNSIGNED_BYTE)
                            (gl_state (checked (bindTexture GL_TEXTURE_2D
                                                  texture_id) w))) Byte.x00
                   = GLubyte_of (N.of_nat i)).
  { rewrite Hrun. split; intros Hall i Hi.
    - intros Hs. specialize (Hall i Hi).
      rewrite nth_read_back_R8 in Hall by exact Hi. cbv zeta in Hall.
      apply Nat.ltb_lt in Hs. now rewrite Hs in Hall.
    - rewrite nth_read_back_R8 by exact Hi. cbv zeta.
      destruct (Nat.ltb_spec i (List.length
                  (drv_out_bytes
                     (getTexImage GL_TEXTURE_2D 0 GL_RED GL_UNSIGNED_BYTE)
                     (gl_state (checked (bindTexture GL_TEXTURE_2D
                                           texture_id) w)))));
        [now apply Hall|reflexivity]. }
  split; [exact Hiff|].
  intros Hnil. apply Hiff. intros i _ Hs. rewrite Hnil in Hs.
  cbn [List.length] in Hs. lia.
Qed.

(** X16.  For R8 [verifyInvalidResults] fills the array with the bytes 0, 1,
    ..., 255 and expects zeros, so that it returns true only if the driver
    stores all 256 bytes, and stores zeros. *)
Theorem verifyInvalidResults_R8_needs_all_bytes_stored
    (self : TexelFetchTest.t) (texture_id : GLuint) (w w' : World)
    (result : bool) :
  m_test_case self = R8 ->
  verifyInvalidResults rgba32f multisample self texture_id w = Ok result w' ->
  let stored :=
    drv_out_bytes (getTexImage GL_TEXTURE_2D 0 GL_RED GL_UNSIGNED_BYTE)
      (gl_state (checked (bindTexture GL_TEXTURE_2D texture_id) w)) in
  result = true <->
  (256 <= List.length stored)%nat /\
  forall i, (i < 256)%nat -> nth i stored Byte.x00 = Byte.x00.
Proof.
  intros Hcase Hrun. cbv zeta. unfold verifyInvalidResults in Hrun.
  rewrite Hcase in Hrun. cbv beta iota zeta delta [TEST_CASES_eqb] in Hrun.
  apply check_R8_verdict in Hrun. rewrite Hrun. clear Hrun.
  set (stored := drv_out_bytes _ _).
  assert (Hnth : forall i, (i < 256)%nat ->
            nth i (read_back texture_id 0%Z GL_RED GL_UNSIGNED_BYTE ramp w)
              Byte.x00
            = if (i <? List.length stored)%nat then nth i stored Byte.x00
              else GLubyte_of (N.of_nat i))
    by (intros i Hi; exact (nth_read_back_R8 texture_id w i Hi)).
  split.
  - intros Hall.
    assert (Hlen : (256 <= List.length stored)%nat).
    { destruct (Nat.le_gt_cases 256 (List.length stored)) as [|Hshort];
        [assumption|exfalso].
      assert (Hi : (0 < Nat.max (List.length stored) 1 < 256)%nat) by lia.
      pose proof (Hall _ (proj2 Hi)) as H0. rewrite Hnth in H0 by lia.
      destruct (Nat.ltb_spec (Nat.max (List.length stored) 1)
                  (List.length stored)); [lia|].
      exact (GLubyte_of_nonzero _ Hi H0). }
    split; [exact Hlen|]. intros i Hi.
    pose proof (Hall i Hi) as H0. rewrite Hnth in H0 by exact Hi.
    destruct (Nat.ltb_spec i (List.length stored)); [exact H0|lia].
  - intros [Hlen Hall] i Hi. rewrite Hnth by exact Hi.
    destruct (Nat.ltb_spec i (List.length stored)); [now apply Hall|lia].
Qed.

End TexelFetchVerifyProperties.

(** * Instances *)

(** ** Token substitution *)

(** The token of [x + OFFSET;] is replaced. *)
Lemma replaceToken_replaces_first_occurrence_witness :
  (exists p, (N.to_nat 0 <= p)%nat /\
             occurs_at (c_chars (lit "OFFSET")) (lit "x + OFFSET;") p) /\
  (size (lit "x + OFFSET;") + strlen (lit "16") < SIZE_MODULUS)%N /\
  exists pre post,
    lit "x + OFFSET;" = pre ++ c_chars (lit "OFFSET") ++ post /\
    (N.to_nat 0 <= List.length pre)%nat /\
    (forall q, (N.to_nat 0 <= q < List.length pre)%nat ->
               ~ occurs_at (c_chars (lit "OFFSET")) (lit "x + OFFSET;") q) /\
    replaceToken (lit "OFFSET") 0%N (lit "16") (lit "x + OFFSET;") tt
    = Ok ((N.of_nat (List.length pre) + strlen (lit "16"))%N,
          pre ++ c_chars (lit "16") ++ post) tt.
Proof.
  assert (H1 : exists p, (N.to_nat 0 <= p)%nat /\
             occurs_at (c_chars (lit "OFFSET")) (lit "x + OFFSET;") p).
  { exists 4%nat. split; [cbn; lia|].
    exists (lit "x + "), (lit ";"). split; reflexivity. }
  assert (H2 : (size (lit "x + OFFSET;") + strlen (lit "16") < SIZE_MODULUS)%N)
    by (vm_compute; reflexivity).
  split; [exact H1|]. split; [exact H2|].
  exact (replaceToken_replaces_first_occurrence unit tt (lit "OFFSET")
           (lit "16") (lit "x + OFFSET;") 0%N H1 H2).
Defined.

(** A subject without the token. *)
Lemma replaceToken_is_partial_witness :
  (size (lit "x + 1;") < npos)%N /\
  (forall p, (N.to_nat 0 <= p)%nat ->
             ~ occurs_at (c_chars (lit "OFFSET")) (lit "x + 1;") p) /\
  find (lit "x + 1;") (lit "OFFSET") 0%N = npos /\
  replaceToken (lit "OFFSET") 0%N (lit "16") (lit "x + 1;") tt
  = Throw std_out_of_range tt.
Proof.
  assert (H1 : (size (lit "x + 1;") < npos)%N) by (vm_compute; reflexivity).
  assert (H2 : forall p, (N.to_nat 0 <= p)%nat ->
             ~ occurs_at (c_chars (lit "OFFSET")) (lit "x + 1;") p).
  { intros p _ Hocc. apply occurrences_spec in Hocc. exact Hocc. }
  split; [exact H1|]. split; [exact H2|].
  exact (proj1 (replaceToken_is_partial (P := scripted [] GL_NO_ERROR true)
                  unit tt)
               (lit "OFFSET") (lit "16") (lit "x + 1;") 0%N H1 H2).
Defined.

(** The source index of the storage buffer test, 4 KiB past the end. *)
Lemma getComputeShader_substitutes_offsets_witness :
  (4096 < 2 ^ 32)%N /\
  StorageBufferTest.getComputeShader
    (StorageBufferTest.mk StorageBufferTest.SOURCE_INVALID false) 4096%N tt
  = Ok (storage_cs_head ++ lit "0" ++ cs_mid ++ decimal 4096%N ++ cs_tail) tt.
Proof.
  assert (H : (4096 < 2 ^ 32)%N) by (vm_compute; reflexivity).
  split; [exact H|].
  exact (proj2 (proj2 (proj1
           (getComputeShader_substitutes_offsets unit tt 4096%N H)))
           (StorageBufferTest.mk StorageBufferTest.SOURCE_INVALID false)).
Defined.

(** ** The feature check *)

(** A context without the extensions and older than 4.3: the test stops. *)
Lemma unsupported_feature_stops_every_test_witness :
  ~ feature_supported (fresh_world [] GL_NO_ERROR false []) /\
  VertexBufferObjectsTest.iterate (ret CONTINUE)
    (fresh_world [] GL_NO_ERROR false [])
  = Ok STOP (marked_not_supported (fresh_world [] GL_NO_ERROR false [])).
Proof.
  assert (H : ~ feature_supported (fresh_world [] GL_NO_ERROR false [])).
  { intros [H|[H|H]]; [destruct H|destruct H|discriminate H]. }
  split; [exact H|].
  exact (proj1 (proj2 (unsupported_feature_stops_every_test
                         (fresh_world [] GL_NO_ERROR false [])) H)
               (ret CONTINUE)).
Defined.

(** ** Release *)

(** A vertex array object is released on a driver that reports no error. *)
Lemma Release_invalidates_and_is_idempotent_witness :
  @error_free (scripted [] GL_NO_ERROR true) /\
  exists self' w',
    VertexArray.Release (VertexArray.mk 5%N, fresh_world [] GL_NO_ERROR true [])
    = Ok tt (self', w').
Proof.
  assert (H : @error_free (scripted [] GL_NO_ERROR true))
    by (intros d; reflexivity).
  split; [exact H|].
  exact (proj1 (proj2 (proj1 (proj2 (proj2 (proj2 (proj2
           (Release_invalidates_and_is_idempotent
              (P := scripted [] GL_NO_ERROR true))))))))
           H (VertexArray.mk 5%N) (fresh_world [] GL_NO_ERROR true [])).
Defined.

(** The statement about [Release] fails for [Program] when the invalid state
    is that of [m_id] alone: with the program name invalid and a member shader
    alive, [Release] deletes the shader and changes the object. *)
Lemma Release_counterexample :
  Program.m_id program_with_live_shader = Program.m_invalid_id /\
  (exists w',
      Program.Release (program_with_live_shader,
                       fresh_world [] GL_NO_ERROR true [])
      = Ok tt (program_released, w') /\
      gl_calls w' = [deleteShader 7%N]) /\
  ~ releases (P := scripted [] GL_NO_ERROR true)
      Program.Release Program.destructor
      (fun p => Program.m_id p = Program.m_invalid_id).
Proof.
  split; [reflexivity|]. split.
  - eexists. split; vm_compute; reflexivity.
  - intros (_ & Hnoop & _).
    specialize (Hnoop program_with_live_shader
                  (fresh_world [] GL_NO_ERROR true []) eq_refl).
    vm_compute in Hnoop. discriminate Hnoop.
Qed.

(** A vertex array object on a driver that reports an error after the
    unbinding: [Release] throws and the object keeps its name. *)
Example VertexArray_Release_throws :
  VertexArray.Release
    (VertexArray.mk 5%N, fresh_world [] GL_INVALID_OPERATION true [])
  = Throw (glu_Error GL_INVALID_OPERATION "BindVertexArray")
      (VertexArray.mk 5%N,
       issue getError
         (issue (bindVertexArray 0)
                (fresh_world [] GL_INVALID_OPERATION true []))).
Proof. vm_compute. reflexivity. Qed.

(** ** Program initialisation *)

Lemma scripted_well_behaved (image : list Byte.byte) (core43 : bool) :
  @well_behaved (scripted image GL_NO_ERROR core43).
Proof.
  repeat split; intros; cbn; try reflexivity.
  - apply N.neq_succ_0.
  - apply N.neq_succ_0.
Qed.

(** A program with a compute shader only: the shader is created, given its
    source and compiled, and the program is created, given the shader and
    linked. *)
Lemma empty_source_is_absent_stage_witness :
  @well_behaved (scripted [] GL_NO_ERROR true) /\
  exists self' w',
    Program.Init (lit "void main() {}") [] [] [] [] []
      (program_released, fresh_world [] GL_NO_ERROR true [])
    = Ok tt (self', w') /\
    filter shader_call (gl_calls w')
    = [createShader GL_COMPUTE_SHADER; attachShader 2 1] /\
    filter build_call (gl_calls w')
    = [createShader GL_COMPUTE_SHADER;
       shaderSource 1 1 (lit "void main() {}");
       compileShader 1%N; getShaderiv 1%N GL_COMPILE_STATUS;
       createProgram; attachShader 2 1;
       linkProgram 2%N; getProgramiv 2%N GL_LINK_STATUS].
Proof.
  split; [apply scripted_well_behaved|].
  destruct (proj2 (proj2 (empty_source_is_absent_stage
                            (P := scripted [] GL_NO_ERROR true)))
                  (scripted_well_behaved [] true)
                  (lit "void main() {}") [] [] [] [] []
                  program_released (fresh_world [] GL_NO_ERROR true []))
    as (self' & w' & Hrun & _ & _ & _ & _ & _ & _ & _ & Hcalls & Hbuilt).
  exists self', w'. split; [exact Hrun|].
  vm_compute in Hrun. injection Hrun as <- <-.
  split; [exact Hcalls|exact Hbuilt].
Defined.

(** ** Buffer verification *)

(** The source values read back by the uniform buffer test. *)
Lemma UniformBufferTest_verifyResults_memcmp_witness :
  List.length (Float32.array_bytes UniformBufferTest.expected_data_valid) = 16%nat /\
  exists b w',
    UniformBufferTest.verifyResults (UniformBufferTest.mk UniformBufferTest.VALID)
      (Float32.array_bytes UniformBufferTest.expected_data_valid)
      (fresh_world [] GL_NO_ERROR true [])
    = Ok b w' /\
    (b = true <->
     Float32.array_bytes UniformBufferTest.expected_data_valid
     = Float32.array_bytes
         [Float32.f_2_0; Float32.f_3_0; Float32.f_4_0; Float32.f_5_0]) /\
    (b = true -> w' = fresh_world [] GL_NO_ERROR true []).
Proof.
  split; [reflexivity|].
  exact (proj1 (UniformBufferTest_verifyResults_memcmp
                  (UniformBufferTest.mk UniformBufferTest.VALID)
                  (Float32.array_bytes UniformBufferTest.expected_data_valid)
                  (fresh_world [] GL_NO_ERROR true []) eq_refl) eq_refl).
Defined.

(** A read of 0, 2, 5 and 3 through invalid source indices is accepted on the
    KHR path. *)
Lemma StorageBufferTest_verifyResults_accepts_witness :
  List.length (Float32.array_bytes
                 [Float32.f_0_0; Float32.f_2_0; Float32.f_5_0; Float32.f_3_0])
  = 16%nat /\
  StorageBufferTest.verifyResults
    (StorageBufferTest.mk StorageBufferTest.SOURCE_INVALID true)
    (Float32.array_bytes
       [Float32.f_0_0; Float32.f_2_0; Float32.f_5_0; Float32.f_3_0])
    (fresh_world [] GL_NO_ERROR true [])
  = Ok true (fresh_world [] GL_NO_ERROR true []).
Proof.
  split; [reflexivity|].
  exact (proj2 (StorageBufferTest_verifyResults_accepts
                  (StorageBufferTest.mk StorageBufferTest.SOURCE_INVALID true)
                  (Float32.array_bytes
                     [Float32.f_0_0; Float32.f_2_0; Float32.f_5_0; Float32.f_3_0])
                  (fresh_world [] GL_NO_ERROR true []) eq_refl)
               eq_refl (or_introl eq_refl) eq_refl).
Defined.

(** On the [memcmp] path the allowed fallback values are not the criterion:
    for SOURCE_INVALID, four values of the source buffer are allowed, but
    without the KHR flag the array is compared with {0, 0, 0, 0} and
    rejected. *)
Lemma StorageBufferTest_verifyResults_counterexample :
  List.length (Float32.array_bytes StorageBufferTest.m_source_data) = 16%nat /\
  allowed_fallback StorageBufferTest.SOURCE_INVALID
    (Float32.array_bytes StorageBufferTest.m_source_data) = true /\
  returned (StorageBufferTest.verifyResults
              (StorageBufferTest.mk StorageBufferTest.SOURCE_INVALID false)
              (Float32.array_bytes StorageBufferTest.m_source_data)
              (fresh_world [] GL_NO_ERROR true []))
  = Some false.
Proof. repeat split; vm_compute; reflexivity. Qed.

(** On the KHR path an array of four values 7.0, none of which is allowed, is
    logged four times and accepted. *)
Example StorageBufferTest_verifyResults_khr_accepts_anything :
  allowed_fallback StorageBufferTest.SOURCE_INVALID
    (Float32.array_bytes [f_7_0; f_7_0; f_7_0; f_7_0]) = false /\
  exists w',
    StorageBufferTest.verifyResults
      (StorageBufferTest.mk StorageBufferTest.SOURCE_INVALID true)
      (Float32.array_bytes [f_7_0; f_7_0; f_7_0; f_7_0])
      (fresh_world [] GL_NO_ERROR true [])
    = Ok true w' /\
    test_log w' = repeat "Test case: invalid source indices failed" 4.
Proof.
  split; [vm_compute; reflexivity|].
  eexists. split; vm_compute; reflexivity.
Qed.

(** ** The shaders of the texture tests *)

(** The invalid fetch from a mipmap: level 2, and 0 for the offset 512. *)
Lemma getFragmentShader_fills_template_witness :
  (512 < 2 ^ 32)%N /\
  (strlen (getGLSLVersionDeclaration
             (ctx_type (fresh_world [] GL_NO_ERROR true []))) < 2 ^ 32)%N /\
  TexelFetchTest.getFragmentShader
    (TexelFetchTest.mk TexelFetchTest.R32UI_MIPMAP) false 512%N
    (fresh_world [] GL_NO_ERROR true [])
  = Ok (fragment_shader (lit "#version 430 core") (lit "uvec4")
          (lit "usampler2D") (lit (lines ["    int   plane  = 2;"])) (lit "0"))
       (fresh_world [] GL_NO_ERROR true []).
Proof.
  assert (H1 : (512 < 2 ^ 32)%N) by (vm_compute; reflexivity).
  assert (H2 : (strlen (getGLSLVersionDeclaration
                  (ctx_type (fresh_world [] GL_NO_ERROR true []))) < 2 ^ 32)%N)
    by (vm_compute; reflexivity).
  split; [exact H1|]. split; [exact H2|].
  exact (proj2 (getFragmentShader_fills_template
                  (TexelFetchTest.mk TexelFetchTest.R32UI_MIPMAP) false 512%N
                  (fresh_world [] GL_NO_ERROR true []) H1 H2)).
Defined.

(** The loads of a multisampled image with an invalid source. *)
Lemma image_getComputeShader_fills_template_witness :
  (16 < 2 ^ 32)%N /\ (4 < 2 ^ 32)%N /\
  ImageLoadStoreTest.getComputeShader
    (TexelFetchTest.mk TexelFetchTest.R32UI_MULTISAMPLE)
    ImageLoadStoreTest.SOURCE_INVALID 16%N 4%N tt
  = Ok (image_shader (lit "uimage2DMS") (lit "r32ui") (lit "0") (decimal 16%N)
          (copy_samples (lit "uvec4") (decimal 4%N) (lit "0"))) tt.
Proof.
  assert (H1 : (16 < 2 ^ 32)%N) by (vm_compute; reflexivity).
  assert (H2 : (4 < 2 ^ 32)%N) by (vm_compute; reflexivity).
  split; [exact H1|]. split; [exact H2|].
  exact (proj2 (image_getComputeShader_fills_template unit tt
                  (TexelFetchTest.mk TexelFetchTest.R32UI_MULTISAMPLE)
                  ImageLoadStoreTest.SOURCE_INVALID 16%N 4%N H1 H2)).
Defined.

(** ** The loops over the test cases *)

(** With statements that log the test case, the texel fetch test logs R8 and
    R32UI_MIPMAP. *)
Lemma TexelFetchTest_iterate_runs_R8_and_mipmap_witness :
  declared_in_order position /\
  (5 <= 5)%nat /\
  feature_supported (fresh_world [] GL_NO_ERROR true []) /\
  exists w',
    TexelFetchIterate.iterate position log_case 5
      (position TexelFetchTest.R8, fresh_world [] GL_NO_ERROR true [])
    = Ok (Some STOP) (6%N, w') /\
    test_log w' = ["0"; "3"] /\
    test_result w' = Some (QP_TEST_RESULT_PASS, "Pass").
Proof.
  assert (H0 : declared_in_order position) by reflexivity.
  assert (H1 : (5 <= 5)%nat) by lia.
  assert (H2 : feature_supported (fresh_world [] GL_NO_ERROR true []))
    by (right; right; reflexivity).
  split; [exact H0|]. split; [exact H1|]. split; [exact H2|].
  eexists. split; [|split].
  - exact (TexelFetchTest_iterate_runs_R8_and_mipmap position log_case H0 5
             (fresh_world [] GL_NO_ERROR true []) H1 H2).
  - reflexivity.
  - reflexivity.
Defined.

(** With the same statements, the image test logs the four cases before
    R32UI_MULTISAMPLE. *)
Lemma ImageLoadStoreTest_iterate_skips_multisample_witness :
  declared_in_order position /\
  (6 <= 6)%nat /\
  feature_supported (fresh_world [] GL_NO_ERROR true []) /\
  exists w',
    ImageLoadStoreIterate.iterate position log_case 6
      (position TexelFetchTest.R8, fresh_world [] GL_NO_ERROR true [])
    = Ok (Some STOP) (6%N, w') /\
    test_log w' = ["0"; "1"; "2"; "3"] /\
    test_result w' = Some (QP_TEST_RESULT_PASS, "Pass").
Proof.
  assert (H0 : declared_in_order position) by reflexivity.
  assert (H1 : (6 <= 6)%nat) by lia.
  assert (H2 : feature_supported (fresh_world [] GL_NO_ERROR true []))
    by (right; right; reflexivity).
  split; [exact H0|]. split; [exact H1|]. split; [exact H2|].
  eexists. split; [|split].
  - exact (ImageLoadStoreTest_iterate_skips_multisample position log_case H0 6
             (fresh_world [] GL_NO_ERROR true []) H1 H2).
  - reflexivity.
  - reflexivity.
Defined.

(** ** Compilation *)

(** A compiler that rejects the shader: [Compile] throws with the info log
    as the message. *)
Lemma failed_compilation_throws_info_log_witness :
  @error_free (rejecting syntax_error) /\
  queried (P := rejecting syntax_error)
    (getShaderiv 1%N GL_COMPILE_STATUS) GL_FALSE
    (checked (compileShader 1%N) (@mkWorld (rejecting syntax_error) 0%N [] [] tt None []))
  <> GL_TRUE /\
  Shader.Compile (P := rejecting syntax_error) 1%N
    (@mkWorld (rejecting syntax_error) 0%N [] [] tt None [])
  = Throw (tcu_TestError "0:1: syntax error")
      (@mkWorld (rejecting syntax_error) 0%N
         [compileShader 1%N; getError; getShaderiv 1%N GL_COMPILE_STATUS; getError;
          getShaderiv 1%N GL_INFO_LOG_LENGTH; getError;
          getShaderInfoLog 1%N 17%Z; getError]
         [] tt None []).
Proof.
  assert (H1 : @error_free (rejecting syntax_error)) by (intros d; reflexivity).
  assert (H2 : queried (P := rejecting syntax_error)
                 (getShaderiv 1%N GL_COMPILE_STATUS) GL_FALSE
                 (checked (compileShader 1%N)
                    (@mkWorld (rejecting syntax_error) 0%N [] [] tt None []))
               <> GL_TRUE) by discriminate.
  split; [exact H1|]. split; [exact H2|].
  exact (proj1 (failed_compilation_throws_info_log (P := rejecting syntax_error)
                  1%N (@mkWorld (rejecting syntax_error) 0%N [] [] tt None [])
                  H1) H2).
Defined.

(** ** Shaders and programs *)

(** A shader object that holds the name 7 is initialised again on a driver
    that rejects every shader: the old shader is deleted, [Init] throws after
    the new shader was created, and the object holds the new name 1. *)
Lemma Shader_Init_holds_created_name_witness :
  lit "void main() {}" <> [] /\
  exists w',
    Shader.Init (P := rejecting syntax_error) GL_COMPUTE_SHADER
      (lit "void main() {}")
      (Shader.mk 7%N, @mkWorld (rejecting syntax_error) 0%N [] [] tt None [])
    = Throw (tcu_TestError "0:1: syntax error") (Shader.mk 1%N, w') /\
    firstn 2 (gl_calls w') = [deleteShader 7; createShader GL_COMPUTE_SHADER].
Proof.
  assert (H : lit "void main() {}" <> []) by discriminate.
  split; [exact H|].
  pose proof (Shader_Init_holds_created_name (P := rejecting syntax_error)
                GL_COMPUTE_SHADER (lit "void main() {}") (Shader.mk 7%N)
                (@mkWorld (rejecting syntax_error) 0%N [] [] tt None []) H)
    as T.
  cbv zeta in T.
  destruct (Shader.Create (P := rejecting syntax_error) GL_COMPUTE_SHADER _)
    as [id created|e failed] eqn:Hcreate; [|discriminate Hcreate].
  destruct T as (Hid & _ & T).
  vm_compute in Hid. subst id.
  destruct (Shader.Init (P := rejecting syntax_error) GL_COMPUTE_SHADER _ _)
    as [[] [self' w']|e [self' w']] eqn:Hinit.
  - vm_compute in Hinit. discriminate Hinit.
  - destruct T as [Hname _]. destruct self' as [name]. cbn in Hname.
    subst name. vm_compute in Hinit. injection Hinit as <- <-.
    eexists. split; reflexivity.
Defined.

(** A program with a compute shader: the destructor deletes the program 2 and
    the shader 1. *)
Lemma Init_then_destructor_deletes_created_witness :
  @well_behaved (scripted [] GL_NO_ERROR true) /\
  exists self' w' w'',
    Program.Init (lit "void main() {}") [] [] [] [] []
      (program_released, fresh_world [] GL_NO_ERROR true [])
    = Ok tt (self', w') /\
    Program.destructor (self', w') = Ok tt (program_released, w'') /\
    filter is_delete (gl_calls w'')
    = filter is_delete (gl_calls w')
      ++ [deleteProgram (Program.m_id self')]
      ++ deleted (lit "void main() {}") (Program.m_compute self')
      ++ deleted [] (Program.m_fragment self')
      ++ deleted [] (Program.m_geometry self')
      ++ deleted [] (Program.m_tess_ctrl self')
      ++ deleted [] (Program.m_tess_eval self')
      ++ deleted [] (Program.m_vertex self').
Proof.
  split; [apply scripted_well_behaved|].
  exact (Init_then_destructor_deletes_created
           (P := scripted [] GL_NO_ERROR true)
           (lit "void main() {}") [] [] [] [] []
           program_released (fresh_world [] GL_NO_ERROR true [])
           (scripted_well_behaved [] true)).
Defined.

(** ** TexelFetchTest: verification of the fetched image *)

(** The byte image of a valid fetch, read back from a driver that reports no
    error, is accepted. *)
Lemma verifyValidResults_accepts_drawn_values_witness :
  exists w',
    TexelFetchVerify.verifyValidResults (fun _ => ret true) (fun _ => ret true)
      (TexelFetchTest.mk TexelFetchTest.R8) 1%N
      (fresh_world ramp GL_NO_ERROR true []) = Ok true w' /\
    (true = true <->
     forall i, (i < 256)%nat ->
       nth i (read_back 1%N 0%Z GL_RED GL_UNSIGNED_BYTE ramp
                (fresh_world ramp GL_NO_ERROR true [])) Byte.x00
       = TexelFetchVerify.GLubyte_of (N.of_nat i)).
Proof.
  assert (H : { w' | TexelFetchVerify.verifyValidResults
                       (fun _ => ret true) (fun _ => ret true)
                       (TexelFetchTest.mk TexelFetchTest.R8) 1%N
                       (fresh_world ramp GL_NO_ERROR true []) = Ok true w' })
    by (eexists; vm_compute; reflexivity).
  destruct H as [w' H]. exists w'. split; [exact H|].
  exact (verifyValidResults_accepts_drawn_values _ _
           (TexelFetchTest.mk TexelFetchTest.R8) 1%N _ _ true H).
Defined.

(** An image of zeros is accepted as the result of an invalid fetch. *)
Lemma verifyInvalidResults_accepts_zeros_witness :
  exists w',
    TexelFetchVerify.verifyInvalidResults (fun _ => ret true) (fun _ => ret true)
      (TexelFetchTest.mk TexelFetchTest.R8) 1%N
      (fresh_world (repeat Byte.x00 256) GL_NO_ERROR true []) = Ok true w' /\
    (true = true <->
     forall i, (i < 256)%nat ->
       nth i (read_back 1%N 0%Z GL_RED GL_UNSIGNED_BYTE ramp
                (fresh_world (repeat Byte.x00 256) GL_NO_ERROR true []))
           Byte.x00
       = Byte.x00).
Proof.
  assert (H : { w' | TexelFetchVerify.verifyInvalidResults
                       (fun _ => ret true) (fun _ => ret true)
                       (TexelFetchTest.mk TexelFetchTest.R8) 1%N
                       (fresh_world (repeat Byte.x00 256) GL_NO_ERROR true [])
                     = Ok true w' })
    by (eexists; vm_compute; reflexivity).
  destruct H as [w' H]. exists w'. split; [exact H|].
  exact (verifyInvalidResults_accepts_zeros _ _
           (TexelFetchTest.mk TexelFetchTest.R8) 1%N _ _ true H).
Defined.


(** A driver that stores nothing: the valid byte image is accepted. *)
Lemma verifyValidResults_R8_tests_stored_bytes_only_witness :
  exists w',
    TexelFetchVerify.verifyValidResults (fun _ => ret true) (fun _ => ret true)
      (TexelFetchTest.mk TexelFetchTest.R8) 1%N
      (fresh_world [] GL_NO_ERROR true []) = Ok true w' /\
    let stored :=
      drv_out_bytes (getTexImage GL_TEXTURE_2D 0 GL_RED GL_UNSIGNED_BYTE)
        (gl_state (checked (bindTexture GL_TEXTURE_2D 1)
                     (fresh_world [] GL_NO_ERROR true []))) in
    (true = true <->
     forall i, (i < 256)%nat -> (i < List.length stored)%nat ->
       nth i stored Byte.x00 = TexelFetchVerify.GLubyte_of (N.of_nat i)) /\
    (stored = [] -> true = true).
Proof.
  assert (H : { w' | TexelFetchVerify.verifyValidResults
                       (fun _ => ret true) (fun _ => ret true)
                       (TexelFetchTest.mk TexelFetchTest.R8) 1%N
                       (fresh_world [] GL_NO_ERROR true []) = Ok true w' })
    by (eexists; vm_compute; reflexivity).
  destruct H as [w' H]. exists w'. split; [exact H|].
  exact (verifyValidResults_R8_tests_stored_bytes_only _ _
           (TexelFetchTest.mk TexelFetchTest.R8) 1%N _ _ true eq_refl H).
Defined.

(** A driver that stores nothing: the invalid byte image is rejected. *)
Lemma verifyInvalidResults_R8_needs_all_bytes_stored_witness :
  exists w',
    TexelFetchVerify.verifyInvalidResults (fun _ => ret true) (fun _ => ret true)
      (TexelFetchTest.mk TexelFetchTest.R8) 1%N
      (fresh_world [] GL_NO_ERROR true []) = Ok false w' /\
    let stored :=
      drv_out_bytes (getTexImage GL_TEXTURE_2D 0 GL_RED GL_UNSIGNED_BYTE)
        (gl_state (checked (bindTexture GL_TEXTURE_2D 1)
                     (fresh_world [] GL_NO_ERROR true []))) in
    false = true <->
    (256 <= List.length stored)%nat /\
    forall i, (i < 256)%nat -> nth i stored Byte.x00 = Byte.x00.
Proof.
  assert (H : { w' | TexelFetchVerify.verifyInvalidResults
                       (fun _ => ret true) (fun _ => ret true)
                       (TexelFetchTest.mk TexelFetchTest.R8) 1%N
                       (fresh_world [] GL_NO_ERROR true []) = Ok false w' })
    by (eexists; vm_compute; reflexivity).
  destruct H as [w' H]. exists w'. split; [exact H|].
  exact (verifyInvalidResults_R8_needs_all_bytes_stored _ _
           (TexelFetchTest.mk TexelFetchTest.R8) 1%N _ _ false eq_refl H).
Defined.
